(** * telegram-digest: configuration resolver, summariser dispatch and
      digest assembler

    A shallow embedding of [main.py] (configuration lookups,
    [get_digest] and [health]), [summariser.py] (prompt templates and the
    [summarise] dispatcher), [telegram_client.py] (the client over
    Telethon) and the identifiers and group entries of [setup.py].  Python dictionaries with a fixed set of keys
    are records; a key that the code reads with [.get] or tests with [in]
    is an [option] field.  The Telegram client and the Anthropic client are
    external: every call to them goes through an oracle that threads an
    abstract world and either returns or raises, and every call is logged
    with its outcome. *)

From Stdlib Require Import String Ascii ZArith List Bool Lia.
Import ListNotations.

#[local] Open Scope string_scope.
#[local] Open Scope Z_scope.

(** ** Python values *)

(** [d.get(key, default)] on an optional key. *)
Definition dict_get {A : Type} (field : option A) (default : A) : A :=
  match field with
  | Some v => v
  | None => default
  end.

(** [len(xs)] *)
Definition len {A : Type} (xs : list A) : Z := Z.of_nat (length xs).

(** Truth value of a list: [if messages:] *)
Definition list_truthy {A : Type} (xs : list A) : bool :=
  match xs with
  | [] => false
  | _ :: _ => true
  end.

(** Truth value of a string. *)
Definition str_truthy (s : string) : bool :=
  match s with
  | EmptyString => false
  | String _ _ => true
  end.

(** [sep.join(xs)] *)
Definition join (sep : string) (xs : list string) : string :=
  String.concat sep xs.

(** A byte that continues a UTF-8 code point (10xxxxxx). *)
Definition is_continuation (c : ascii) : bool :=
  let n := nat_of_ascii c in (Nat.leb 128 n && Nat.ltb n 192)%bool.

(** [s[:n]]: the first [n] code points of [s].  Strings are kept as UTF-8
    byte strings, so a continuation byte stays with the code point it
    belongs to and is not counted. *)
Fixpoint str_prefix (n : nat) (s : string) : string :=
  match s with
  | EmptyString => EmptyString
  | String c rest =>
      if is_continuation c then String c (str_prefix n rest)
      else
        match n with
        | O => EmptyString
        | S n' => String c (str_prefix n' rest)
        end
  end.

Definition dq : string := String (ascii_of_nat 34) EmptyString.
Definition nl : string := String (ascii_of_nat 10) EmptyString.
Definition emdash : string :=
  String (ascii_of_nat 226)
    (String (ascii_of_nat 128) (String (ascii_of_nat 148) EmptyString)).

(** An ASCII instance of [str.lower], used where a concrete lowering
    function is needed.  The development itself is parametric in the
    lowering function. *)
Definition ascii_lower_char (c : ascii) : ascii :=
  let n := nat_of_ascii c in
  if (Nat.leb 65 n && Nat.leb n 90)%bool then ascii_of_nat (n + 32) else c.

Fixpoint ascii_lower (s : string) : string :=
  match s with
  | EmptyString => EmptyString
  | String c rest => String (ascii_lower_char c) (ascii_lower rest)
  end.

(** ** Data model *)

(** An entry of [unread["dms"]], [unread["groups"]] or
    [unread["supergroups"]] as built by [get_unread_summary].  The
    [is_forum] marker it sets on forums is never read and is left out. *)
Record Item := mkItem {
  item_id : Z;
  item_name : string;
  item_unread_count : Z
}.

Record Unread := mkUnread {
  dms : list Item;
  groups : list Item;
  supergroups : list Item
}.

(** A topic as returned by [get_group_topics]; [unread_count] is read
    with [.get("unread_count", 0)]. *)
Record Topic := mkTopic {
  topic_id : Z;
  topic_title : string;
  topic_unread_count : option Z
}.

(** A message dictionary; the summariser reads every key with [.get]. *)
Record Message := mkMessage {
  msg_id : option Z;
  msg_date : option string;
  msg_sender : option string;
  msg_text : option string;
  msg_has_media : option bool;
  msg_reply_to_id : option Z
}.

(** [config.yaml]: a topic entry, a group entry and the document.  Values
    have the types of the configuration document: names and styles are
    strings, thresholds integers, [topics] a list of topic entries,
    [excluded_groups] a list of names, [show_dm_counts] a boolean. *)
Record TopicConfig := mkTopicConfig {
  tc_name : string;
  tc_type : option string;
  tc_threshold : option Z
}.

Record GroupConfig := mkGroupConfig {
  gc_name : string;
  gc_topics : option (list TopicConfig);
  gc_default_type : option string;
  gc_type : option string;
  gc_threshold : option Z
}.

Record Config := mkConfig {
  cfg_groups : option (list GroupConfig);
  cfg_excluded_groups : option (list string);
  cfg_show_dm_counts : option bool
}.

(** The digest. *)
Record CountEntry := mkCount {
  ce_name : string;
  ce_count : Z
}.

Record ForumData := mkForumData {
  fd_name : string;
  fd_total_count : Z;
  fd_topics : list CountEntry
}.

Record MessageCounts := mkMessageCounts {
  mc_dms : list CountEntry;
  mc_groups : list CountEntry;
  mc_forums : list ForumData
}.

Record SummaryRec := mkSummary {
  sr_group : string;
  sr_topic : string;
  sr_type : string;
  sr_message_count : Z;
  sr_summary : string
}.

Record DigestResponse := mkDigest {
  message_counts : MessageCounts;
  summaries : list SummaryRec;
  errors : list string
}.

(** ** Exceptions and logged calls *)

(** An exception caught by [except Exception], observed through
    [str(e)] only. *)
Record Exn := mkExn { exn_str : string }.

Inductive outcome (A : Type) : Type :=
| Ret (a : A)
| Raise (e : Exn).
Arguments Ret {A} a.
Arguments Raise {A} e.

Definition is_raise {A : Type} (r : outcome A) : bool :=
  match r with
  | Ret _ => false
  | Raise _ => true
  end.

(** One external call together with what it returned. *)
Inductive Event : Type :=
| EvUnreadSummary (r : outcome Unread)
| EvGroupTopics (group_id : Z) (r : outcome (list Topic))
| EvTopicMessages (group_id topic_id limit since_hours : Z)
    (r : outcome (list Message))
| EvChatMessages (chat_id limit since_hours : Z) (r : outcome (list Message))
| EvCreate (model : string) (max_tokens : Z) (prompt : string)
    (r : outcome string).

(** A message fetch or a generation call that raised. *)
Definition attempt_raised (ev : Event) : bool :=
  match ev with
  | EvTopicMessages _ _ _ _ r => is_raise r
  | EvChatMessages _ _ _ r => is_raise r
  | EvCreate _ _ _ r => is_raise r
  | _ => false
  end.

(** The interface of [TelegramDigestClient] that [get_digest] uses, over
    the state [World] of everything outside the process.  Each method may
    raise; [get_digest] is verified against any client.  (The client shipped
    in [telegram_client.py] catches exceptions inside [get_group_topics],
    [get_topic_messages] and [get_chat_messages] and returns an empty list
    instead.) *)
Record TelegramDigestClient (World : Type) := mkClient {
  get_unread_summary : World -> World * outcome Unread;
  get_group_topics : World -> Z -> World * outcome (list Topic);
  get_topic_messages :
    World -> Z -> Z -> Z -> Z -> World * outcome (list Message);
  get_chat_messages : World -> Z -> Z -> Z -> World * outcome (list Message)
}.
Arguments mkClient {World}.
Arguments get_unread_summary {World}.
Arguments get_group_topics {World}.
Arguments get_topic_messages {World}.
Arguments get_chat_messages {World}.

(** f"Error summarising {where}: {str(e)}" *)
Definition error_message (where_ : string) (e : Exn) : string :=
  "Error summarising " ++ where_ ++ ": " ++ exn_str e.

(** ** A sample configuration and conversation source

    Forum "Team" with listed topics and default style "skip", plain group
    "Chat" with a direct style, "hidden" globally excluded, direct-message
    counts switched off.  The source lists a group and a forum whose names
    are excluded and that have no group entry.  It is stateless
    ([World := unit]): the fetch for topic 4 raises, the window of topic 5
    is empty. *)

Definition ex_eng_topic : TopicConfig :=
  mkTopicConfig "Eng" (Some "technical") (Some 3).

Definition ex_team_topics : list TopicConfig :=
  [ ex_eng_topic;
    mkTopicConfig "Memes" (Some "bogus-style") (Some 1);
    mkTopicConfig "Ops" (Some "logistics") (Some 1);
    mkTopicConfig "Quiet" (Some "logistics") (Some 1);
    mkTopicConfig "Low" (Some "technical") (Some 50) ].

Definition ex_team_entry : GroupConfig :=
  mkGroupConfig "Team" (Some ex_team_topics) (Some "skip") None None.

Definition ex_chat_entry : GroupConfig :=
  mkGroupConfig "Chat" None None (Some "logistics") (Some 2).

Definition ex_config : Config :=
  mkConfig (Some [ex_team_entry; ex_chat_entry]) (Some ["hidden"])
    (Some false).

(** A configuration whose only entry carries both a topic list and a
    direct style. *)
Definition ex_both_entry : GroupConfig :=
  mkGroupConfig "Team" (Some [ex_eng_topic]) (Some "skip")
    (Some "technical") (Some 1).

Definition ex_config_both : Config :=
  mkConfig (Some [ex_both_entry]) None None.

Definition ex_unread : Unread :=
  mkUnread
    [ mkItem 1 "Alice" 2; mkItem 2 "Bob" 1 ]
    [ mkItem 10 "chat" 4; mkItem 11 "Hidden" 7; mkItem 12 "Other" 3 ]
    [ mkItem 20 "Team" 25; mkItem 21 "Guild" 6; mkItem 22 "HIDDEN" 9 ].

Definition ex_topics (group_id : Z) : list Topic :=
  if group_id =? 20 then
    [ mkTopic 1 "Eng" (Some 5); mkTopic 2 "Random" (Some 10);
      mkTopic 3 "Memes" (Some 4); mkTopic 4 "Ops" (Some 2);
      mkTopic 5 "Quiet" (Some 1); mkTopic 6 "Low" (Some 3) ]
  else [ mkTopic 1 "General" (Some 6) ].

Definition ex_message (text : string) : Message :=
  mkMessage (Some 7) (Some "2024-01-15T10:00:00+00:00") (Some "Alice")
    (Some text) (Some false) None.

Definition ex_client : TelegramDigestClient unit :=
  mkClient
    (fun w => (w, Ret ex_unread))
    (fun w group_id => (w, Ret (ex_topics group_id)))
    (fun w group_id topic_id limit since_hours =>
       if topic_id =? 4 then (w, Raise (mkExn "timeout"))
       else if topic_id =? 5 then (w, Ret [])
       else if topic_id =? 1 then
         (w, Ret [ex_message "first"; ex_message "second"])
       else (w, Ret [ex_message "only"]))
    (fun w chat_id limit since_hours => (w, Ret [ex_message "hello"])).

Definition ex_create (w : unit) (model : string) (max_tokens : Z)
    (prompt : string) : unit * outcome string :=
  (w, Ret "generated text").

(** ** The identifiers of the user ([summariser.py], lines 16-18, and
    [setup.py], line 102) *)

(** [s.split(sep)] for a separator of one character. *)
Fixpoint split_on (sep : ascii) (s : string) : list string :=
  match s with
  | EmptyString => [EmptyString]
  | String c rest =>
      if Ascii.eqb c sep then EmptyString :: split_on sep rest
      else
        match split_on sep rest with
        | x :: xs => String c x :: xs
        | [] => [String c EmptyString]
        end
  end.

Definition comma : ascii := ascii_of_nat 44.

Section Identifiers.

(** [str.strip] *)
Variable strip : string -> string.

(** [[x.strip() for x in os.getenv("MY_IDENTIFIERS", "Marta").split(",")]];
    [env] is the value of the environment variable, if it is set. *)
Definition identifiers_of_env (env : option string) : list string :=
  map strip (split_on comma (dict_get env "Marta")).

(** [MY_IDENTIFIERS[0]]; [None] stands for the [IndexError]. *)
Definition first_identifier (env : option string) : option string :=
  match identifiers_of_env env with
  | [] => None
  | x :: _ => Some x
  end.

End Identifiers.

(** [f"{name},{handle}" if handle else name], the value [setup.py] writes
    for [MY_IDENTIFIERS]. *)
Definition setup_identifiers (name handle : string) : string :=
  if str_truthy handle then name ++ "," ++ handle else name.

(** ** The group entries of the setup wizard ([setup.py], lines 113-153)

    One pass of the topic loop asks for a name, a type and, unless the type
    is "skip", a number for the threshold ([ta_threshold] is that number
    once parsed); the group entry holds the name, the topics and the type
    chosen for the other topics. *)

Record TopicAnswer := mkTopicAnswer {
  ta_name : string;
  ta_type : string;
  ta_threshold : Z
}.

Definition wizard_topic (answer : TopicAnswer) : TopicConfig :=
  let threshold :=
    if negb (String.eqb (ta_type answer) "skip") then ta_threshold answer
    else 1 in
  mkTopicConfig (ta_name answer) (Some (ta_type answer)) (Some threshold).

Definition wizard_group (group_name : string) (topics : list TopicAnswer)
    (default_type : string) : GroupConfig :=
  mkGroupConfig group_name (Some (map wizard_topic topics))
    (Some default_type) None None.

(** ** The shipped client ([telegram_client.py])

    [TelegramDigestClient] over the Telethon client it wraps.  Telethon is
    external: its calls are oracles over the world.  Times are integers
    (microseconds); messages written by [print] are not modelled. *)

Module telegram_client.

(** [dialog.entity]: the three classes the code tests with [isinstance],
    and everything else.  [forum] is the attribute read with
    [getattr(entity, 'forum', False)]. *)
Inductive Entity : Type :=
| User (id : Z)
| Channel (id : Z) (forum : option bool)
| Chat (id : Z)
| OtherEntity (id : Z).

Definition entity_id (entity : Entity) : Z :=
  match entity with
  | User id => id
  | Channel id _ => id
  | Chat id => id
  | OtherEntity id => id
  end.

(** Truth value of [getattr(entity, 'forum', False)]. *)
Definition entity_forum (entity : Entity) : bool :=
  match entity with
  | Channel _ (Some true) => true
  | _ => false
  end.

Record Dialog := mkDialog {
  dialog_unread_count : Z;
  dialog_archived : bool;
  dialog_name : option string;
  dialog_entity : Entity
}.

(** An element of [result.topics]; [ft_title] is [None] when the object has
    no [title] attribute, [ft_unread_count] when it has no [unread_count]. *)
Record ForumTopic := mkForumTopic {
  ft_id : Z;
  ft_title : option string;
  ft_unread_count : option Z
}.

(** [message.sender]: a [User], an object with a [title], or another
    object. *)
Inductive Sender : Type :=
| SenderUser (first_name username : option string)
| SenderTitled (title : string)
| SenderOther.

(** A Telethon message: [tm_date] is [message.date] (UTC), [tm_media] is
    [message.media is not None], [tm_reply_to] is [None] when
    [message.reply_to] is absent and [Some reply_to_msg_id] otherwise. *)
Record TlMessage := mkTlMessage {
  tm_id : Z;
  tm_date : Z;
  tm_sender : option Sender;
  tm_text : option string;
  tm_media : bool;
  tm_reply_to : option (option Z)
}.

(** What [async for message in client.iter_messages(...)] goes through: the
    messages yielded, in order, then the end of the iteration or an
    exception; [world_after n] is the world once [n] messages have been
    taken. *)
Record MessageStream (World : Type) := mkStream {
  yielded : list TlMessage;
  failure : option Exn;
  world_after : nat -> World
}.
Arguments mkStream {World}.
Arguments yielded {World}.
Arguments failure {World}.
Arguments world_after {World}.

(** The Telethon client ([self.client]) and the clock.  [since_cutoff w h]
    is [datetime.now() - timedelta(hours=h)]. *)
Record TelegramClient (World : Type) := mkTelegramClient {
  get_dialogs : World -> World * outcome (list Dialog);
  get_entity : World -> Z -> World * outcome Entity;
  get_forum_topics : World -> Entity -> World * outcome (list ForumTopic);
  iter_messages : World -> Entity -> Z -> option Z -> MessageStream World;
  since_cutoff : World -> Z -> outcome Z
}.
Arguments mkTelegramClient {World}.
Arguments get_dialogs {World}.
Arguments get_entity {World}.
Arguments get_forum_topics {World}.
Arguments iter_messages {World}.
Arguments since_cutoff {World}.

(** [x or "Unknown"] on an optional string. *)
Definition or_unknown (x : option string) : string :=
  match x with
  | Some s => if str_truthy s then s else "Unknown"
  | None => "Unknown"
  end.

(** One iteration of the loop of [get_unread_summary] (lines 53-80). *)
Definition add_dialog (summary : Unread) (dialog : Dialog) : Unread :=
  if dialog_unread_count dialog =? 0 then summary
  else if dialog_archived dialog then summary
  else
    let entity := dialog_entity dialog in
    let name := or_unknown (dialog_name dialog) in
    let item := mkItem (entity_id entity) name (dialog_unread_count dialog) in
    match entity with
    | User _ =>
        mkUnread (dms summary ++ [item]) (groups summary)
          (supergroups summary)
    | Channel _ _ =>
        if entity_forum entity then
          mkUnread (dms summary) (groups summary)
            (supergroups summary ++ [item])
        else
          mkUnread (dms summary) (groups summary ++ [item])
            (supergroups summary)
    | Chat _ =>
        mkUnread (dms summary) (groups summary ++ [item])
          (supergroups summary)
    | OtherEntity _ => summary
    end.

Definition unread_summary_of (dialogs : list Dialog) : Unread :=
  fold_left add_dialog dialogs (mkUnread [] [] []).

(** [_get_sender_name] (lines 213-223). *)
Definition get_sender_name (message : TlMessage) : string :=
  match tm_sender message with
  | Some (SenderUser first_name username) =>
      match first_name with
      | Some s => if str_truthy s then s else or_unknown username
      | None => or_unknown username
      end
  | Some (SenderTitled title) => title
  | Some SenderOther => "Unknown"
  | None => "Unknown"
  end.

Section Client.

Variable World : Type.

(** [datetime.isoformat] *)
Variable isoformat : Z -> string.

Variable client : TelegramClient World.

(** The dictionary built for a message of a topic (lines 163-175) and of a
    chat (lines 200-206).  A [reply_to_id] key holding [None] reads like a
    missing key: [format_messages_for_prompt] only tests its truth value. *)
Definition topic_message_data (message : TlMessage) : Message :=
  mkMessage (Some (tm_id message)) (Some (isoformat (tm_date message)))
    (Some (get_sender_name message))
    (Some (dict_get (tm_text message) EmptyString))
    (Some (tm_media message))
    (match tm_reply_to message with
     | Some reply_to_msg_id => reply_to_msg_id
     | None => None
     end).

Definition chat_message_data (message : TlMessage) : Message :=
  mkMessage (Some (tm_id message)) (Some (isoformat (tm_date message)))
    (Some (get_sender_name message))
    (Some (dict_get (tm_text message) EmptyString))
    (Some (tm_media message))
    None.

(** The [async for] loop of both fetches: [break] at the first message
    older than [since]; [taken] counts the messages taken from the
    iterator. *)
Fixpoint collect (data : TlMessage -> Message) (since : Z)
    (stream : list TlMessage) (failure : option Exn)
    (messages : list Message) (taken : nat) : nat * outcome (list Message) :=
  match stream with
  | [] =>
      match failure with
      | Some e => (taken, Raise e)
      | None => (taken, Ret messages)
      end
  | message :: rest =>
      if tm_date message <? since then (S taken, Ret messages)
      else collect data since rest failure (messages ++ [data message])
             (S taken)
  end.

(** [try: ... except Exception as e: print(...); return []] *)
Definition or_empty {A : Type} (r : World * outcome (list A))
  : World * outcome (list A) :=
  match r with
  | (w, Ret xs) => (w, Ret xs)
  | (w, Raise _) => (w, Ret [])
  end.

(** The body of the [try] of [get_topic_messages] and [get_chat_messages];
    [reply_to] is the [reply_to=topic_id] argument of [iter_messages]. *)
Definition fetch_window (data : TlMessage -> Message) (reply_to : option Z)
    (w : World) (group_id limit since_hours : Z)
  : World * outcome (list Message) :=
  match get_entity client w group_id with
  | (w1, Raise e) => (w1, Raise e)
  | (w1, Ret entity) =>
      match since_cutoff client w1 since_hours with
      | Raise e => (w1, Raise e)
      | Ret since =>
          let stream := iter_messages client w1 entity limit reply_to in
          let (taken, r) :=
            collect data since (yielded stream) (failure stream) [] 0 in
          (world_after stream taken, r)
      end
  end.

Definition get_topic_messages (w : World)
    (group_id topic_id limit since_hours : Z)
  : World * outcome (list Message) :=
  or_empty
    (fetch_window topic_message_data (Some topic_id) w group_id limit
       since_hours).

Definition get_chat_messages (w : World) (chat_id limit since_hours : Z)
  : World * outcome (list Message) :=
  or_empty (fetch_window chat_message_data None w chat_id limit since_hours).

(** The loop over [result.topics] (lines 107-124). *)
Fixpoint topics_loop (group_id : Z) (count_recent_messages : bool)
    (w : World) (raw : list ForumTopic) (topics : list Topic)
  : World * outcome (list Topic) :=
  match raw with
  | [] => (w, Ret topics)
  | topic :: rest =>
      let unread := dict_get (ft_unread_count topic) 0 in
      let (w1, unread) :=
        if count_recent_messages then
          match get_topic_messages w group_id (ft_id topic) 50 24 with
          | (w1, Ret messages) => (w1, len messages)
          | (w1, Raise _) => (w1, unread)
          end
        else (w, unread) in
      match ft_title topic with
      | None => (w1, Raise (mkExn "object has no attribute 'title'"))
      | Some title =>
          topics_loop group_id count_recent_messages w1 rest
            (topics ++ [mkTopic (ft_id topic) title (Some unread)])
      end
  end.

Definition get_group_topics (w : World) (group_id : Z)
    (count_recent_messages : bool) : World * outcome (list Topic) :=
  or_empty
    (match get_entity client w group_id with
     | (w1, Raise e) => (w1, Raise e)
     | (w1, Ret entity) =>
         if negb (entity_forum entity) then (w1, Ret [])
         else
           match get_forum_topics client w1 entity with
           | (w2, Raise e) => (w2, Raise e)
           | (w2, Ret raw) =>
               topics_loop group_id count_recent_messages w2 raw []
           end
     end).

Definition get_unread_summary (w : World) : World * outcome Unread :=
  match get_dialogs client w with
  | (w1, Ret dialogs) => (w1, Ret (unread_summary_of dialogs))
  | (w1, Raise e) => (w1, Raise e)
  end.

(** The object [main.py] stores in [tg_client]; it calls
    [get_group_topics] with the default [count_recent_messages=False]. *)
Definition digest_client : TelegramDigestClient World :=
  mkClient get_unread_summary
    (fun w group_id => get_group_topics w group_id false)
    get_topic_messages get_chat_messages.

End Client.

End telegram_client.

(** ** A sample Telethon client

    Seven dialogs, among them one without unread messages, one archived, one
    whose entity is of no listed class and one without a name; a forum with
    three topics; a message stream whose third message is older than the
    cutoff. *)

Definition ex_dialogs : list telegram_client.Dialog :=
  [ telegram_client.mkDialog 2 false (Some "Alice") (telegram_client.User 1);
    telegram_client.mkDialog 0 false (Some "Bob") (telegram_client.User 2);
    telegram_client.mkDialog 4 false (Some "chat") (telegram_client.Chat 10);
    telegram_client.mkDialog 9 true (Some "Old")
      (telegram_client.Channel 13 None);
    telegram_client.mkDialog 25 false (Some "Team")
      (telegram_client.Channel 20 (Some true));
    telegram_client.mkDialog 3 false (Some "Gone")
      (telegram_client.OtherEntity 14);
    telegram_client.mkDialog 7 false None
      (telegram_client.Channel 15 (Some false)) ].

Definition ex_forum_topics : list telegram_client.ForumTopic :=
  [ telegram_client.mkForumTopic 1 (Some "Eng") (Some 5);
    telegram_client.mkForumTopic 2 (Some "Random") None;
    telegram_client.mkForumTopic 3 (Some "Memes") (Some 4) ].

Definition ex_tl_message (id date : Z) (text : string)
  : telegram_client.TlMessage :=
  telegram_client.mkTlMessage id date
    (Some (telegram_client.SenderUser (Some "Alice") None)) (Some text) false
    (Some (Some 1)).

Definition ex_stream : telegram_client.MessageStream unit :=
  telegram_client.mkStream
    [ ex_tl_message 103 100 "newest"; ex_tl_message 102 90 "newer";
      ex_tl_message 101 10 "old"; ex_tl_message 100 95 "late" ]
    None (fun _ => tt).

Definition ex_telegram : telegram_client.TelegramClient unit :=
  telegram_client.mkTelegramClient
    (fun w => (w, Ret ex_dialogs))
    (fun w id =>
       (w, Ret (if id =? 20 then telegram_client.Channel 20 (Some true)
                else telegram_client.Chat id)))
    (fun w entity => (w, Ret ex_forum_topics))
    (fun w entity limit reply_to => ex_stream)
    (fun w since_hours => Ret 50).

(** The same with a forum whose second topic object has no title. *)
Definition ex_telegram_deleted_topic : telegram_client.TelegramClient unit :=
  telegram_client.mkTelegramClient
    (fun w => (w, Ret ex_dialogs))
    (fun w id => (w, Ret (telegram_client.Channel id (Some true))))
    (fun w entity =>
       (w, Ret [ telegram_client.mkForumTopic 1 (Some "Eng") (Some 5);
                 telegram_client.mkForumTopic 2 None None ]))
    (fun w entity limit reply_to => ex_stream)
    (fun w since_hours => Ret 50).

Definition ex_isoformat (date : Z) : string := "2024-01-15T10:00:00+00:00".


(** The same with a stream that yields two recent messages and then
    fails. *)
Definition ex_stream_failing : telegram_client.MessageStream unit :=
  telegram_client.mkStream
    [ ex_tl_message 103 100 "newest"; ex_tl_message 102 90 "newer" ]
    (Some (mkExn "connection reset")) (fun _ => tt).

Definition ex_telegram_failing : telegram_client.TelegramClient unit :=
  telegram_client.mkTelegramClient
    (fun w => (w, Ret ex_dialogs))
    (fun w id => (w, Ret (telegram_client.Chat id)))
    (fun w entity => (w, Ret ex_forum_topics))
    (fun w entity limit reply_to => ex_stream_failing)
    (fun w since_hours => Ret 50).

(** A configuration whose group entries are built by the wizard: "Team"
    with two topics and "chat" with one, and one excluded name.  Every
    list the wizard writes for it has an element. *)
Definition ex_wizard_config : Config :=
  mkConfig
    (Some [ wizard_group "Team"
              [ mkTopicAnswer "Eng" "technical" 3;
                mkTopicAnswer "Random" "skip" 9 ]
              "logistics";
            wizard_group "chat"
              [ mkTopicAnswer "General" "logistics" 5 ]
              "technical" ])
    (Some ["Spam"]) (Some true).

(** Two configurations with two entries of one conversation name.  In the
    first, an entry with only a default style comes before the entry that
    lists the topic "Eng"; in the second, the first entry has neither the
    topic "Eng" nor a default style. *)
Definition ex_config_shadowed : Config :=
  mkConfig
    (Some [ mkGroupConfig "Team" None (Some "logistics") None None;
            mkGroupConfig "Team" (Some [ex_eng_topic]) None None None ])
    None None.

Definition ex_config_split : Config :=
  mkConfig
    (Some [ mkGroupConfig "Team"
              (Some [mkTopicConfig "Ops" (Some "logistics") (Some 1)])
              None None None;
            mkGroupConfig "Team" (Some [ex_eng_topic]) None None None ])
    None None.

(** A configuration with missing keys: a topic without a type, a topic
    without a threshold, and a group with a direct style and no
    threshold. *)
Definition ex_config_sparse : Config :=
  mkConfig
    (Some [ mkGroupConfig "Team"
              (Some [ mkTopicConfig "NoType" None (Some 1);
                      mkTopicConfig "NoThreshold" (Some "technical") None ])
              None None None;
            mkGroupConfig "Chat" None None (Some "logistics") None ])
    None None.

(** A source whose conversation listing raises, and a backend whose every
    call raises. *)
Definition ex_client_down : TelegramDigestClient unit :=
  mkClient
    (fun w => (w, Raise (mkExn "flood wait")))
    (fun w group_id => (w, Ret []))
    (fun w group_id topic_id limit since_hours => (w, Ret []))
    (fun w chat_id limit since_hours => (w, Ret [])).

Definition ex_create_failing (w : unit) (model : string) (max_tokens : Z)
    (prompt : string) : unit * outcome string :=
  (w, Raise (mkExn "overloaded")).
Section Digest.

(** [str.lower]; every result below holds for any lowering function. *)
Variable lower : string -> string.

(** The document loaded from [config.yaml] at import time. *)
Variable CONFIG : Config.

(** [MY_IDENTIFIERS = MY_NAME :: MY_OTHER_IDENTIFIERS]: the split of the
    [MY_IDENTIFIERS] environment variable always has a first element. *)
Variable MY_NAME : string.
Variable MY_OTHER_IDENTIFIERS : list string.

(** The state of everything outside the process. *)
Variable World : Type.

(** [client.messages.create(model=..., max_tokens=..., messages=[{"role":
    "user", "content": prompt}])] followed by [response.content[0].text]. *)
Variable messages_create :
  World -> string -> Z -> string -> World * outcome string.

(** ** The request monad: world, call log, and the two result lists that
    [get_digest] appends to *)

Record St := mkSt {
  world : World;
  calls : list Event;
  st_summaries : list SummaryRec;
  st_errors : list string
}.

Definition M (A : Type) : Type := St -> St * outcome A.

Definition ret {A : Type} (a : A) : M A := fun st => (st, Ret a).

Definition bind {A B : Type} (c : M A) (k : A -> M B) : M B :=
  fun st =>
    match c st with
    | (st', Ret a) => k a st'
    | (st', Raise e) => (st', Raise e)
    end.

Definition raise {A : Type} (e : Exn) : M A := fun st => (st, Raise e).

(** [try: c  except Exception as e: h e] *)
Definition try_except {A : Type} (c : M A) (h : Exn -> M A) : M A :=
  fun st =>
    match c st with
    | (st', Ret a) => (st', Ret a)
    | (st', Raise e) => h e st'
    end.

Notation "x <- c ;; k" := (bind c (fun x => k))
  (at level 61, c at next level, right associativity).
Notation "c ;; k" := (bind c (fun _ => k))
  (at level 61, right associativity).

(** [for x in xs: acc = body acc x] *)
Fixpoint for_each {X B : Type} (body : B -> X -> M B) (xs : list X) (acc : B)
  : M B :=
  match xs with
  | [] => ret acc
  | x :: rest => acc' <- body acc x ;; for_each body rest acc'
  end.

(** An external call: run the oracle on the current world and log it. *)
Definition external {A : Type} (oracle : World -> World * outcome A)
    (ev : outcome A -> Event) : M A :=
  fun st =>
    let (w, r) := oracle (world st) in
    (mkSt w (calls st ++ [ev r]) (st_summaries st) (st_errors st), r).

(** [summaries.append(r)] and [errors.append(e)] *)
Definition append_summary (r : SummaryRec) : M unit :=
  fun st =>
    (mkSt (world st) (calls st) (st_summaries st ++ [r]) (st_errors st),
     Ret tt).

Definition append_error (e : string) : M unit :=
  fun st =>
    (mkSt (world st) (calls st) (st_summaries st) (st_errors st ++ [e]),
     Ret tt).

(** ** Configuration resolver ([main.py], lines 51-92) *)

Definition same_name (a b : string) : bool := String.eqb (lower a) (lower b).

(** [CONFIG.get("groups", [])] *)
Definition config_groups : list GroupConfig := dict_get (cfg_groups CONFIG) [].

(** The inner loop of [get_topic_config] over [group.get("topics", [])]. *)
Definition find_topic (group : GroupConfig) (topic_name : string)
  : option TopicConfig :=
  find (fun topic => same_name (tc_name topic) topic_name)
       (dict_get (gc_topics group) []).

Fixpoint get_topic_config_in (gs : list GroupConfig)
    (group_name topic_name : string) : option TopicConfig :=
  match gs with
  | [] => None
  | group :: rest =>
      if same_name (gc_name group) group_name then
        match find_topic group topic_name with
        | Some topic => Some topic
        | None =>
            match gc_default_type group with
            | Some default_type =>
                Some (mkTopicConfig topic_name (Some default_type) (Some 1))
            | None => get_topic_config_in rest group_name topic_name
            end
        end
      else get_topic_config_in rest group_name topic_name
  end.

Definition get_topic_config (group_name topic_name : string)
  : option TopicConfig :=
  get_topic_config_in config_groups group_name topic_name.

Definition is_configured_group (group_name : string) : bool :=
  existsb (fun group => same_name (gc_name group) group_name) config_groups.

Fixpoint get_group_config_in (gs : list GroupConfig) (group_name : string)
  : option GroupConfig :=
  match gs with
  | [] => None
  | group :: rest =>
      if same_name (gc_name group) group_name then
        match gc_type group with
        | Some _ => Some group
        | None => get_group_config_in rest group_name
        end
      else get_group_config_in rest group_name
  end.

Definition get_group_config (group_name : string) : option GroupConfig :=
  get_group_config_in config_groups group_name.

Definition is_excluded_group (group_name : string) : bool :=
  let excluded := dict_get (cfg_excluded_groups CONFIG) [] in
  existsb (String.eqb (lower group_name)) (map lower excluded).

(** ** Summariser ([summariser.py]) *)

Definition MY_IDENTIFIERS : list string := MY_NAME :: MY_OTHER_IDENTIFIERS.

Definition format_message (msg : Message) : list string :=
  let sender := dict_get (msg_sender msg) "Unknown" in
  let text := dict_get (msg_text msg) EmptyString in
  let date := str_prefix 16 (dict_get (msg_date msg) EmptyString) in
  if str_truthy text then
    let reply_note :=
      match msg_reply_to_id msg with
      | Some z => if z =? 0 then EmptyString
                  else " [replying to earlier message]"
      | None => EmptyString
      end in
    ["[" ++ date ++ "] " ++ sender ++ reply_note ++ ": " ++ text]
  else if dict_get (msg_has_media msg) false then
    ["[" ++ date ++ "] " ++ sender ++ ": [media/image]"]
  else [].

Definition format_messages_for_prompt (messages : list Message) : string :=
  join nl (flat_map format_message messages).

Definition MODEL : string := "claude-sonnet-4-20250514".

Definition create (model : string) (max_tokens : Z) (prompt : string)
  : M string :=
  external (fun w => messages_create w model max_tokens prompt)
           (EvCreate model max_tokens prompt).

Definition technical_prompt (messages_text topic_name : string) : string :=
  join nl
    [ "Summarise this Telegram discussion from the " ++ dq ++ topic_name
        ++ dq ++ " topic.";
      EmptyString;
      "MESSAGES:";
      messages_text;
      EmptyString;
      "Extract and format as follows:";
      EmptyString;
      "## Main Topic(s)";
      "[What was being discussed - 1-2 sentences]";
      EmptyString;
      "## Key Arguments";
      "**Pro/supporting points:**";
      "- [bullet points]";
      EmptyString;
      "**Con/opposing points:**";
      "- [bullet points]";
      EmptyString;
      "## Links & Papers";
      "[List top 1-2 most interesting/relevant links or papers mentioned. If many were shared, prioritise the most discussed ones. If none, write "
        ++ dq ++ "None mentioned." ++ dq ++ "]";
      EmptyString;
      "## Context Notes";
      "[If the conversation references previous discussions or assumes context from earlier, note this briefly. If standalone, write "
        ++ dq ++ "Self-contained discussion." ++ dq ++ "]";
      EmptyString;
      "Be concise but preserve technical nuance. Use bullet points." ].

Definition memes_prompt (messages_text topic_name : string) : string :=
  join nl
    [ "Summarise the memes shared in this Telegram channel " ++ dq
        ++ topic_name ++ dq ++ ".";
      EmptyString;
      "MESSAGES:";
      messages_text;
      EmptyString;
      "Format as follows:";
      EmptyString;
      "## Top 3 Memes";
      "For each meme, provide:";
      "1. **[Brief description]** - [Why it's funny/relevant]";
      "   - AI Safety Context: [If this relates to recent AI safety news/events, explain. If not, write "
        ++ dq ++ "General humour" ++ dq ++ "]";
      EmptyString;
      "2. ...";
      EmptyString;
      "3. ...";
      EmptyString;
      "If fewer than 3 memes were shared, just describe what was shared.";
      "If messages describe images you can't see, do your best to infer from context and reactions." ].

Definition logistics_prompt (messages_text topic_name : string) : string :=
  join nl
    [ "Summarise this Telegram coordination/logistics discussion from " ++ dq
        ++ topic_name ++ dq ++ ".";
      EmptyString;
      "MESSAGES:";
      messages_text;
      EmptyString;
      "Extract and format as follows:";
      EmptyString;
      "## To-Dos & Action Items";
      "[List any tasks or action items mentioned, noting who they're assigned to if specified]";
      "- [ ] [Task] " ++ emdash ++ " assigned to: [person or " ++ dq
        ++ "unassigned" ++ dq ++ "]";
      EmptyString;
      "## Calls for Help";
      "[Any requests for volunteers, assistance, or input]";
      EmptyString;
      "## Specifically for " ++ MY_NAME;
      "[Anything directly addressed to or mentioning any of: "
        ++ join ", " MY_IDENTIFIERS ++ ". If nothing, write " ++ dq
        ++ "Nothing specific." ++ dq ++ "]";
      EmptyString;
      "## Quick Summary";
      "[1-2 sentence overview of what was discussed]";
      EmptyString;
      "Be concise. Focus on actionable items." ].

Definition invites_prompt (messages_text topic_name : string) : string :=
  join nl
    [ "Extract event invites from this Telegram channel " ++ dq ++ topic_name
        ++ dq ++ ".";
      EmptyString;
      "MESSAGES:";
      messages_text;
      EmptyString;
      "For each INVITE (ignore replies/discussion), provide a one-liner:";
      "**[Event name]** " ++ emdash ++ " [Date/time] @ [Location] " ++ emdash
        ++ " invited by [Person]";
      EmptyString;
      "If any detail is missing, write " ++ dq ++ "TBD" ++ dq
        ++ " for that field.";
      "Only list actual invites, not discussion about them.";
      "If no invites found, write " ++ dq ++ "No new invites." ++ dq;
      EmptyString;
      "Keep it concise - one line per invite." ].

Definition summarise_technical (messages : list Message) (topic_name : string)
  : M string :=
  if negb (list_truthy messages) then ret "No messages to summarise."
  else
    let messages_text := format_messages_for_prompt messages in
    create MODEL 1000 (technical_prompt messages_text topic_name).

Definition summarise_memes (messages : list Message) (topic_name : string)
  : M string :=
  if negb (list_truthy messages) then ret "No memes to report."
  else
    let messages_text := format_messages_for_prompt messages in
    create MODEL 800 (memes_prompt messages_text topic_name).

Definition summarise_logistics (messages : list Message) (topic_name : string)
  : M string :=
  if negb (list_truthy messages) then ret "No messages to summarise."
  else
    let messages_text := format_messages_for_prompt messages in
    create MODEL 800 (logistics_prompt messages_text topic_name).

Definition summarise_invites (messages : list Message) (topic_name : string)
  : M string :=
  if negb (list_truthy messages) then ret "No invites to report."
  else
    let messages_text := format_messages_for_prompt messages in
    create MODEL 500 (invites_prompt messages_text topic_name).

(** [summarise] returns [None] for "skip" and a string otherwise. *)
Definition summarise (messages : list Message) (topic_name : string)
    (summary_type : string) : M (option string) :=
  if String.eqb summary_type "skip" then ret None
  else if String.eqb summary_type "technical" then
    s <- summarise_technical messages topic_name ;; ret (Some s)
  else if String.eqb summary_type "memes" then
    s <- summarise_memes messages topic_name ;; ret (Some s)
  else if String.eqb summary_type "logistics" then
    s <- summarise_logistics messages topic_name ;; ret (Some s)
  else if String.eqb summary_type "invites" then
    s <- summarise_invites messages topic_name ;; ret (Some s)
  else
    s <- summarise_logistics messages topic_name ;; ret (Some s).

(** ** Digest assembler ([main.py], [get_digest]) *)

Section Connected.

(** The connected client that [lifespan] stored in [tg_client]. *)
Variable client : TelegramDigestClient World.

Definition call_get_unread_summary : M Unread :=
  external (get_unread_summary client) EvUnreadSummary.

Definition call_get_group_topics (group_id : Z) : M (list Topic) :=
  external (fun w => get_group_topics client w group_id)
           (EvGroupTopics group_id).

Definition call_get_topic_messages (group_id topic_id limit since_hours : Z)
  : M (list Message) :=
  external
    (fun w => get_topic_messages client w group_id topic_id limit since_hours)
    (EvTopicMessages group_id topic_id limit since_hours).

Definition call_get_chat_messages (chat_id limit since_hours : Z)
  : M (list Message) :=
  external (fun w => get_chat_messages client w chat_id limit since_hours)
           (EvChatMessages chat_id limit since_hours).

(** The [try] statement of both loops (lines 174-193 and 222-240): they
    differ in the fetch, in the label passed to [summarise] (which is also
    the record's group or topic), and in the text that names the place in
    the error string. *)
Definition fetch_and_summarise (fetch : M (list Message))
    (label summary_type : string) (group topic where_ : string) : M unit :=
  try_except
    (messages <- fetch ;;
     if list_truthy messages then
       summary_text <- summarise messages label summary_type ;;
       match summary_text with
       | Some text =>
           if str_truthy text then
             append_summary
               (mkSummary group topic summary_type (len messages) text)
           else ret tt
       | None => ret tt
       end
     else ret tt)
    (fun e => append_error (error_message where_ e)).

(** Body of [for topic in topics] (lines 145-193); [forum_topics] is
    [forum_data["topics"]]. *)
Definition topic_body (since_hours : Z) (forum_name : string) (forum_id : Z)
    (forum_topics : list CountEntry) (topic : Topic) : M (list CountEntry) :=
  let topic_name := topic_title topic in
  let unread_count := dict_get (topic_unread_count topic) 0 in
  let topic_data := mkCount topic_name unread_count in
  let forum_topics := (forum_topics ++ [topic_data])%list in
  if negb (is_configured_group forum_name) then ret forum_topics
  else
    match get_topic_config forum_name topic_name with
    | None => ret forum_topics
    | Some topic_config =>
        let summary_type := dict_get (tc_type topic_config) "skip" in
        let threshold := dict_get (tc_threshold topic_config) 1 in
        if String.eqb summary_type "skip" then ret forum_topics
        else if unread_count <? threshold then ret forum_topics
        else
          fetch_and_summarise
            (call_get_topic_messages forum_id (topic_id topic) 100
               since_hours)
            topic_name summary_type forum_name topic_name
            (forum_name ++ "/" ++ topic_name) ;;
          ret forum_topics
    end.

(** Body of [for forum in unread["supergroups"]] (lines 127-195);
    [forums] is [message_counts["forums"]]. *)
Definition forum_body (since_hours : Z) (forums : list ForumData)
    (forum : Item) : M (list ForumData) :=
  let forum_name := item_name forum in
  if is_excluded_group forum_name then ret forums
  else
    let forum_id := item_id forum in
    topics <- call_get_group_topics forum_id ;;
    forum_topics <-
      for_each (topic_body since_hours forum_name forum_id) topics [] ;;
    ret (forums
           ++ [mkForumData forum_name (item_unread_count forum) forum_topics])%list.

(** Body of [for group in unread["groups"]] (lines 198-240). *)
Definition group_body (since_hours : Z) (_ : unit) (group : Item) : M unit :=
  let group_name := item_name group in
  let group_id := item_id group in
  let unread_count := item_unread_count group in
  if is_excluded_group group_name then ret tt
  else
    match get_group_config group_name with
    | None => ret tt
    | Some group_config =>
        let summary_type := dict_get (gc_type group_config) "skip" in
        let threshold := dict_get (gc_threshold group_config) 1 in
        if String.eqb summary_type "skip" then ret tt
        else if unread_count <? threshold then ret tt
        else
          fetch_and_summarise
            (call_get_chat_messages group_id 100 since_hours)
            group_name summary_type group_name "(all)" group_name
    end.

Definition count_entry (d : Item) : CountEntry :=
  mkCount (item_name d) (item_unread_count d).

(** Lines 117-246: everything after the listing has been obtained. *)
Definition assemble (since_hours : Z) (unread : Unread) : M DigestResponse :=
  let show_dms := dict_get (cfg_show_dm_counts CONFIG) true in
  let dm_counts := if show_dms then map count_entry (dms unread) else [] in
  let group_counts :=
    map count_entry
      (filter (fun g => negb (is_excluded_group (item_name g)))
              (groups unread)) in
  forums <- for_each (forum_body since_hours) (supergroups unread) [] ;;
  for_each (group_body since_hours) (groups unread) tt ;;
  fun st =>
    (st,
     Ret (mkDigest (mkMessageCounts dm_counts group_counts forums)
            (st_summaries st) (st_errors st))).

(** Lines 111-115: fresh [errors] and [summaries], then the listing. *)
Definition digest_request (since_hours : Z) : M DigestResponse :=
  fun st =>
    (unread <- call_get_unread_summary ;; assemble since_hours unread)
      (mkSt (world st) (calls st) [] []).

End Connected.

(** [get_digest]: [tg_client] is [None] until [lifespan] has connected. *)
Definition get_digest (tg_client : option (TelegramDigestClient World))
    (since_hours : Z) : M DigestResponse :=
  match tg_client with
  | None => raise (mkExn "500: Telegram client not connected")
  | Some client => digest_request client since_hours
  end.

(** ** Eligibility and the shape of a run

    The gate in front of each attempt, and relations that describe what a
    run appends to the call log, to [summaries] and to [errors]. *)

Definition topic_count (topic : Topic) : CountEntry :=
  mkCount (topic_title topic) (dict_get (topic_unread_count topic) 0).

(** The gate of lines 157-171; [summary_type] is the resolved style. *)
Definition topic_eligible (forum_name : string) (topic : Topic)
    (summary_type : string) : Prop :=
  is_configured_group forum_name = true /\
  exists topic_config,
    get_topic_config forum_name (topic_title topic) = Some topic_config /\
    summary_type = dict_get (tc_type topic_config) "skip" /\
    summary_type <> "skip" /\
    dict_get (tc_threshold topic_config) 1
      <= dict_get (topic_unread_count topic) 0.

(** The gate of lines 204-219. *)
Definition group_eligible (group : Item) (summary_type : string) : Prop :=
  is_excluded_group (item_name group) = false /\
  exists group_config,
    get_group_config (item_name group) = Some group_config /\
    summary_type = dict_get (gc_type group_config) "skip" /\
    summary_type <> "skip" /\
    dict_get (gc_threshold group_config) 1 <= item_unread_count group.

(** The five ways one guarded attempt can go, with the calls it makes and
    what it appends. *)
Inductive attempt_run (fetch_ev : outcome (list Message) -> Event)
    (summary_type group topic where_ : string)
  : list Event -> list SummaryRec -> list string -> Prop :=
| run_fetch_raised (e : Exn) :
    attempt_run fetch_ev summary_type group topic where_
      [fetch_ev (Raise e)] [] [error_message where_ e]
| run_empty_window :
    attempt_run fetch_ev summary_type group topic where_
      [fetch_ev (Ret [])] [] []
| run_generate_raised (messages : list Message) (model : string)
    (max_tokens : Z) (prompt : string) (e : Exn) :
    messages <> [] ->
    attempt_run fetch_ev summary_type group topic where_
      [fetch_ev (Ret messages); EvCreate model max_tokens prompt (Raise e)]
      [] [error_message where_ e]
| run_empty_text (messages : list Message) (model : string)
    (max_tokens : Z) (prompt : string) :
    messages <> [] ->
    attempt_run fetch_ev summary_type group topic where_
      [fetch_ev (Ret messages);
       EvCreate model max_tokens prompt (Ret EmptyString)]
      [] []
| run_summarised (messages : list Message) (model : string)
    (max_tokens : Z) (prompt : string) (text : string) :
    messages <> [] ->
    text <> EmptyString ->
    attempt_run fetch_ev summary_type group topic where_
      [fetch_ev (Ret messages); EvCreate model max_tokens prompt (Ret text)]
      [mkSummary group topic summary_type (len messages) text] [].

(** The attempt made for an eligible topic of a forum. *)
Definition topic_attempt (since_hours : Z) (forum_name : string)
    (forum_id : Z) (topic : Topic) (summary_type : string)
  : list Event -> list SummaryRec -> list string -> Prop :=
  attempt_run (EvTopicMessages forum_id (topic_id topic) 100 since_hours)
    summary_type forum_name (topic_title topic)
    (forum_name ++ "/" ++ topic_title topic).

(** The attempt made for an eligible plain group. *)
Definition group_attempt (since_hours : Z) (group : Item)
    (summary_type : string)
  : list Event -> list SummaryRec -> list string -> Prop :=
  attempt_run (EvChatMessages (item_id group) 100 since_hours)
    summary_type (item_name group) "(all)" (item_name group).

Inductive topics_run (since_hours : Z) (forum_name : string) (forum_id : Z)
  : list Topic -> list Event -> list SummaryRec -> list string -> Prop :=
| topics_done : topics_run since_hours forum_name forum_id [] [] [] []
| topics_skip topic rest evs srs ers :
    (forall ty, ~ topic_eligible forum_name topic ty) ->
    topics_run since_hours forum_name forum_id rest evs srs ers ->
    topics_run since_hours forum_name forum_id (topic :: rest) evs srs ers
| topics_attempt topic ty rest evs1 srs1 ers1 evs srs ers :
    topic_eligible forum_name topic ty ->
    topic_attempt since_hours forum_name forum_id topic ty evs1 srs1 ers1 ->
    topics_run since_hours forum_name forum_id rest evs srs ers ->
    topics_run since_hours forum_name forum_id (topic :: rest)
      (evs1 ++ evs) (srs1 ++ srs) (ers1 ++ ers).

Inductive forums_run (since_hours : Z)
  : list Item -> list ForumData -> list Event -> list SummaryRec ->
    list string -> Prop :=
| forums_done : forums_run since_hours [] [] [] [] []
| forums_excluded forum rest fds evs srs ers :
    is_excluded_group (item_name forum) = true ->
    forums_run since_hours rest fds evs srs ers ->
    forums_run since_hours (forum :: rest) fds evs srs ers
| forums_listed forum topics rest evs1 srs1 ers1 fds evs srs ers :
    is_excluded_group (item_name forum) = false ->
    topics_run since_hours (item_name forum) (item_id forum) topics
      evs1 srs1 ers1 ->
    forums_run since_hours rest fds evs srs ers ->
    forums_run since_hours (forum :: rest)
      (mkForumData (item_name forum) (item_unread_count forum)
         (map topic_count topics) :: fds)
      (EvGroupTopics (item_id forum) (Ret topics) :: evs1 ++ evs)
      (srs1 ++ srs) (ers1 ++ ers).

Inductive groups_run (since_hours : Z)
  : list Item -> list Event -> list SummaryRec -> list string -> Prop :=
| groups_done : groups_run since_hours [] [] [] []
| groups_skip group rest evs srs ers :
    (forall ty, ~ group_eligible group ty) ->
    groups_run since_hours rest evs srs ers ->
    groups_run since_hours (group :: rest) evs srs ers
| groups_attempt group ty rest evs1 srs1 ers1 evs srs ers :
    group_eligible group ty ->
    group_attempt since_hours group ty evs1 srs1 ers1 ->
    groups_run since_hours rest evs srs ers ->
    groups_run since_hours (group :: rest)
      (evs1 ++ evs) (srs1 ++ srs) (ers1 ++ ers).

(** [st] after more calls and appends. *)
Definition extend (st : St) (w : World) (evs : list Event)
    (srs : list SummaryRec) (ers : list string) : St :=
  mkSt w (calls st ++ evs) (st_summaries st ++ srs) (st_errors st ++ ers).

(** The calls a request added to the log it started from. *)
Definition new_calls (st st' : St) : list Event :=
  skipn (length (calls st)) (calls st').

(** What [summarise] returns when its generation call returned [r]. *)
Definition lift_text (r : outcome string) : outcome (option string) :=
  match r with
  | Ret s => Ret (Some s)
  | Raise e => Raise e
  end.

(** A whole request after the listing [unread] has been obtained: the
    digest it returns and the calls it makes. *)
Inductive digest_run (since_hours : Z) (unread : Unread)
  : DigestResponse -> list Event -> Prop :=
| digest_run_intro fds evsF srsF ersF evsG srsG ersG :
    forums_run since_hours (supergroups unread) fds evsF srsF ersF ->
    groups_run since_hours (groups unread) evsG srsG ersG ->
    digest_run since_hours unread
      (mkDigest
         (mkMessageCounts
            (if dict_get (cfg_show_dm_counts CONFIG) true
             then map count_entry (dms unread) else [])
            (map count_entry
               (filter (fun g => negb (is_excluded_group (item_name g)))
                       (groups unread)))
            fds)
         (srsF ++ srsG) (ersF ++ ersG))
      (evsF ++ evsG).

(** ** Attempts inside a run

    [topic_part], [forum_part] and [group_part] say that the calls [evs1],
    records [srs1] and error strings [ers1] are those of one attempt made
    for an eligible topic or group, and that they are contained in the
    call log [evs], the summaries [srs] and the errors [ers] of the run. *)

Definition topic_part (since_hours : Z) (forum_name : string) (forum_id : Z)
    (topics : list Topic) (evs : list Event) (srs : list SummaryRec)
    (ers : list string) (evs1 : list Event) (srs1 : list SummaryRec)
    (ers1 : list string) : Prop :=
  exists topic ty,
    In topic topics /\
    topic_eligible forum_name topic ty /\
    topic_attempt since_hours forum_name forum_id topic ty evs1 srs1 ers1 /\
    incl evs1 evs /\ incl srs1 srs /\ incl ers1 ers.

Definition forum_part (since_hours : Z) (forums_in : list Item)
    (evs : list Event) (srs : list SummaryRec) (ers : list string)
    (evs1 : list Event) (srs1 : list SummaryRec) (ers1 : list string)
  : Prop :=
  exists forum topics,
    In forum forums_in /\
    is_excluded_group (item_name forum) = false /\
    In (EvGroupTopics (item_id forum) (Ret topics)) evs /\
    topic_part since_hours (item_name forum) (item_id forum) topics
      evs srs ers evs1 srs1 ers1.

Definition group_part (since_hours : Z) (groups_in : list Item)
    (evs : list Event) (srs : list SummaryRec) (ers : list string)
    (evs1 : list Event) (srs1 : list SummaryRec) (ers1 : list string)
  : Prop :=
  exists group ty,
    In group groups_in /\
    group_eligible group ty /\
    group_attempt since_hours group ty evs1 srs1 ers1 /\
    incl evs1 evs /\ incl srs1 srs /\ incl ers1 ers.

(** An attempt of the request that obtained the listing [unread], logged
    [evs] after it and returned [d]. *)
Definition digest_part (since_hours : Z) (unread : Unread)
    (d : DigestResponse) (evs : list Event)
    (evs1 : list Event) (srs1 : list SummaryRec) (ers1 : list string)
  : Prop :=
  forum_part since_hours (supergroups unread) evs (summaries d) (errors d)
    evs1 srs1 ers1
  \/ group_part since_hours (groups unread) evs (summaries d) (errors d)
       evs1 srs1 ers1.

(** ** Properties of computations in the request monad *)

(** Every call [c] adds to the log satisfies [P]. *)
Definition logs (P : Event -> Prop) {A : Type} (c : M A) : Prop :=
  forall st,
    exists evs, calls (fst (c st)) = (calls st ++ evs)%list /\ Forall P evs.

(** Two states with the same summaries and errors. *)
Definition agree (st1 st2 : St) : Prop :=
  st_summaries st1 = st_summaries st2 /\ st_errors st1 = st_errors st2.

(** From agreeing states [c] makes the same calls with the same outcomes,
    returns the same result and ends in agreeing states. *)
Definition stable {A : Type} (c : M A) : Prop :=
  forall st1 st2,
    agree st1 st2 ->
    exists evs,
      calls (fst (c st1)) = (calls st1 ++ evs)%list
      /\ calls (fst (c st2)) = (calls st2 ++ evs)%list
      /\ agree (fst (c st1)) (fst (c st2))
      /\ snd (c st1) = snd (c st2).

(** A source and a backend whose answers do not depend on the world. *)
Definition stateless_client (client : TelegramDigestClient World) : Prop :=
  (forall w w',
     snd (get_unread_summary client w) = snd (get_unread_summary client w'))
  /\ (forall w w' id,
        snd (get_group_topics client w id)
        = snd (get_group_topics client w' id))
  /\ (forall w w' g t l s,
        snd (get_topic_messages client w g t l s)
        = snd (get_topic_messages client w' g t l s))
  /\ (forall w w' g l s,
        snd (get_chat_messages client w g l s)
        = snd (get_chat_messages client w' g l s)).

Definition stateless_backend : Prop :=
  forall w w' model max_tokens prompt,
    snd (messages_create w model max_tokens prompt)
    = snd (messages_create w' model max_tokens prompt).

(** Kinds of logged calls. *)
Definition is_fetch (ev : Event) : bool :=
  match ev with
  | EvTopicMessages _ _ _ _ _ => true
  | EvChatMessages _ _ _ _ => true
  | _ => false
  end.

Definition is_create (ev : Event) : bool :=
  match ev with
  | EvCreate _ _ _ _ => true
  | _ => false
  end.

Definition is_topic_listing (ev : Event) : bool :=
  match ev with
  | EvGroupTopics _ _ => true
  | _ => false
  end.

(** A listing call that raised [e]. *)
Definition listing_raised (e : Exn) (ev : Event) : Prop :=
  ev = EvUnreadSummary (Raise e) \/ exists id, ev = EvGroupTopics id (Raise e).

(** The arguments with which a request for [since_hours] calls the source
    and the backend. *)
Definition request_call (since_hours : Z) (ev : Event) : Prop :=
  match ev with
  | EvUnreadSummary _ => True
  | EvGroupTopics _ _ => True
  | EvTopicMessages _ _ limit since _ => limit = 100 /\ since = since_hours
  | EvChatMessages _ limit since _ => limit = 100 /\ since = since_hours
  | EvCreate model max_tokens _ _ =>
      model = MODEL /\ In max_tokens [1000; 800; 500]
  end.

(** A message with something to show in a prompt: a text, or media. *)
Definition has_content (msg : Message) : bool :=
  str_truthy (dict_get (msg_text msg) EmptyString)
  || dict_get (msg_has_media msg) false.


(** ** Descriptions of what the shipped client returns *)

(** A dialog the listing keeps: it has unread messages and is not
    archived. *)
Definition listed_dialog (dialog : telegram_client.Dialog) : bool :=
  negb (telegram_client.dialog_unread_count dialog =? 0)
  && negb (telegram_client.dialog_archived dialog).

Definition is_user (entity : telegram_client.Entity) : bool :=
  match entity with
  | telegram_client.User _ => true
  | _ => false
  end.

Definition is_plain_group (entity : telegram_client.Entity) : bool :=
  match entity with
  | telegram_client.Channel _ _ => negb (telegram_client.entity_forum entity)
  | telegram_client.Chat _ => true
  | _ => false
  end.

Definition dialog_item (dialog : telegram_client.Dialog) : Item :=
  mkItem (telegram_client.entity_id (telegram_client.dialog_entity dialog))
    (telegram_client.or_unknown (telegram_client.dialog_name dialog))
    (telegram_client.dialog_unread_count dialog).

(** The items of the listed dialogs whose entity is of kind [kind], in the
    order of the dialogs. *)
Definition listed_as (kind : telegram_client.Entity -> bool)
    (dialogs : list telegram_client.Dialog) : list Item :=
  map dialog_item
    (filter
       (fun dialog =>
          listed_dialog dialog && kind (telegram_client.dialog_entity dialog))
       dialogs).

(** The messages of a stream before the first one older than [since]. *)
Fixpoint recent_prefix (since : Z) (stream : list telegram_client.TlMessage)
  : list telegram_client.TlMessage :=
  match stream with
  | [] => []
  | message :: rest =>
      if telegram_client.tm_date message <? since then []
      else message :: recent_prefix since rest
  end.

(** Whether a stream holds a message older than [since]. *)
Definition reaches_older (since : Z)
    (stream : list telegram_client.TlMessage) : bool :=
  existsb (fun message => telegram_client.tm_date message <? since) stream.

(** The topic dictionary built from a forum topic that has a title. *)
Definition topic_of (raw : telegram_client.ForumTopic) (topic : Topic)
  : Prop :=
  topic_id topic = telegram_client.ft_id raw
  /\ telegram_client.ft_title raw = Some (topic_title topic)
  /\ topic_unread_count topic
     = Some (dict_get (telegram_client.ft_unread_count raw) 0).

(** A fetch or a topic listing that raised. *)
Definition source_raised (ev : Event) : bool :=
  match ev with
  | EvGroupTopics _ r => is_raise r
  | EvTopicMessages _ _ _ _ r => is_raise r
  | EvChatMessages _ _ _ r => is_raise r
  | _ => false
  end.

(** A fetch that returned more than [limit] messages. *)
Definition within_limit (ev : Event) : Prop :=
  match ev with
  | EvTopicMessages _ _ limit _ (Ret messages) => len messages <= limit
  | EvChatMessages _ limit _ (Ret messages) => len messages <= limit
  | _ => True
  end.

Definition is_chat_fetch (ev : Event) : bool :=
  match ev with
  | EvChatMessages _ _ _ _ => true
  | _ => false
  end.

(** ** The health endpoint ([main.py], lines 249-252)

    [{"status": "ok", "telegram_connected": tg_client is not None}] *)
Definition health (tg_client : option (TelegramDigestClient World))
  : string * bool :=
  ("ok",
   match tg_client with
   | Some _ => true
   | None => false
   end).
(** ** Running the monad *)

#[local] Open Scope list_scope.

Ltac splits := repeat match goal with |- _ /\ _ => split end.

Lemma extend_nil (st : St) : extend st (world st) [] [] [] = st.
Proof.
  destruct st as [w cs ss es]. unfold extend. simpl.
  now rewrite !app_nil_r.
Qed.

Lemma extend_extend (st : St) w1 evs1 srs1 ers1 w2 evs2 srs2 ers2 :
  extend (extend st w1 evs1 srs1 ers1) w2 evs2 srs2 ers2
  = extend st w2 (evs1 ++ evs2) (srs1 ++ srs2) (ers1 ++ ers2).
Proof. unfold extend. simpl. now rewrite !app_assoc. Qed.

Lemma external_run {A : Type} (oracle : World -> World * outcome A)
    (ev : outcome A -> Event) (st : St) :
  external oracle ev st
  = (extend st (fst (oracle (world st))) [ev (snd (oracle (world st)))] [] [],
     snd (oracle (world st))).
Proof.
  unfold external, extend. destruct (oracle (world st)) as [w r]. simpl.
  now rewrite !app_nil_r.
Qed.

Lemma append_summary_run (r : SummaryRec) (st : St) :
  append_summary r st = (extend st (world st) [] [r] [], Ret tt).
Proof. unfold append_summary, extend. now rewrite !app_nil_r. Qed.

Lemma append_error_run (e : string) (st : St) :
  append_error e st = (extend st (world st) [] [] [e], Ret tt).
Proof. unfold append_error, extend. now rewrite !app_nil_r. Qed.

Lemma str_truthy_true (s : string) : str_truthy s = true <-> s <> EmptyString.
Proof. destruct s; simpl; split; congruence. Qed.

(** ** The summariser makes one generation call on a non-empty window *)

Lemma create_run (model : string) (max_tokens : Z) (prompt : string) (st : St) :
  create model max_tokens prompt st
  = (extend st (fst (messages_create (world st) model max_tokens prompt))
       [EvCreate model max_tokens prompt
          (snd (messages_create (world st) model max_tokens prompt))] [] [],
     snd (messages_create (world st) model max_tokens prompt)).
Proof. unfold create. apply external_run. Qed.

Lemma bind_some_run (c : M string) (st st' : St) (r : outcome string) :
  c st = (st', r) ->
  (s <- c ;; ret (Some s)) st = (st', lift_text r).
Proof. intros H. unfold bind. rewrite H. destruct r; reflexivity. Qed.

Lemma summarise_nonempty (messages : list Message)
    (topic_name summary_type : string) :
  summary_type <> "skip" ->
  messages <> [] ->
  exists model max_tokens prompt,
    forall st,
      summarise messages topic_name summary_type st
      = (extend st (fst (messages_create (world st) model max_tokens prompt))
           [EvCreate model max_tokens prompt
              (snd (messages_create (world st) model max_tokens prompt))]
           [] [],
         lift_text (snd (messages_create (world st) model max_tokens prompt))).
Proof.
  intros Hskip Hne. unfold summarise.
  destruct (String.eqb_spec summary_type "skip") as [E | _]; [contradiction |].
  destruct messages as [| m ms]; [contradiction |].
  destruct (String.eqb summary_type "technical");
    [| destruct (String.eqb summary_type "memes");
       [| destruct (String.eqb summary_type "logistics");
          [| destruct (String.eqb summary_type "invites")]]];
    do 3 eexists; intros st; apply bind_some_run;
    unfold summarise_technical, summarise_memes, summarise_logistics,
      summarise_invites; cbn [list_truthy negb]; apply create_run.
Qed.

(** ** Soundness of the run relations *)

Section Runs.

Variable client : TelegramDigestClient World.

Lemma fetch_and_summarise_sound (oracle : World -> World * outcome (list Message))
    (fetch_ev : outcome (list Message) -> Event)
    (label summary_type group topic where_ : string) (st : St) :
  summary_type <> "skip" ->
  exists w evs srs ers,
    fetch_and_summarise (external oracle fetch_ev) label summary_type
      group topic where_ st
    = (extend st w evs srs ers, Ret tt)
    /\ attempt_run fetch_ev summary_type group topic where_ evs srs ers.
Proof.
  intros Hskip. unfold fetch_and_summarise, try_except, bind.
  rewrite external_run.
  destruct (oracle (world st)) as [w1 [messages | e]]; cbn [fst snd].
  - destruct messages as [| m ms]; cbn [list_truthy].
    + do 4 eexists. split; [reflexivity | constructor].
    + destruct (summarise_nonempty (m :: ms) label summary_type Hskip)
        as (model & mt & prompt & Hs); [discriminate |].
      rewrite Hs. cbn [world extend].
      destruct (messages_create w1 model mt prompt) as [w2 [text | e]];
        cbn [fst snd lift_text].
      * destruct text as [| ch text]; cbn [str_truthy].
        -- unfold ret. rewrite extend_extend. do 4 eexists.
           split; [reflexivity |]. cbn [app].
           apply run_empty_text. discriminate.
        -- rewrite append_summary_run, !extend_extend. cbn [app world extend].
           do 4 eexists. split; [reflexivity |].
           apply run_summarised; discriminate.
      * rewrite append_error_run, !extend_extend. cbn [app world extend].
        do 4 eexists. split; [reflexivity |].
        apply run_generate_raised. discriminate.
  - rewrite append_error_run, !extend_extend. cbn [app world extend].
    do 4 eexists. split; [reflexivity |]. apply run_fetch_raised.
Qed.

Lemma skip_not_eligible (forum_name : string) (topic : Topic) :
  is_configured_group forum_name = false
  \/ get_topic_config forum_name (topic_title topic) = None
  \/ (exists topic_config,
        get_topic_config forum_name (topic_title topic) = Some topic_config
        /\ (dict_get (tc_type topic_config) "skip" = "skip"
            \/ dict_get (topic_unread_count topic) 0
                 < dict_get (tc_threshold topic_config) 1)) ->
  forall ty, ~ topic_eligible forum_name topic ty.
Proof.
  intros H ty (Hc & p & Hp & Hty & Hskip & Hthr).
  destruct H as [H | [H | (p' & Hp' & [H | H])]]; try congruence.
  rewrite Hp in Hp'. injection Hp' as Hpp. subst p'. lia.
Qed.

Lemma topic_body_sound (since_hours : Z) (forum_name : string) (forum_id : Z)
    (forum_topics : list CountEntry) (topic : Topic) (st : St) :
  ((forall ty, ~ topic_eligible forum_name topic ty)
   /\ topic_body client since_hours forum_name forum_id forum_topics topic st
      = (st, Ret (forum_topics ++ [topic_count topic])))
  \/ (exists ty w evs srs ers,
        topic_eligible forum_name topic ty
        /\ topic_body client since_hours forum_name forum_id forum_topics
             topic st
           = (extend st w evs srs ers,
              Ret (forum_topics ++ [topic_count topic]))
        /\ topic_attempt since_hours forum_name forum_id topic ty
             evs srs ers).
Proof.
  unfold topic_body.
  destruct (is_configured_group forum_name) eqn:Hc; cbn [negb].
  2:{ left. split; [apply skip_not_eligible; auto | reflexivity]. }
  destruct (get_topic_config forum_name (topic_title topic)) as [p |] eqn:Hp.
  2:{ left. split; [apply skip_not_eligible; auto | reflexivity]. }
  destruct (String.eqb_spec (dict_get (tc_type p) "skip") "skip") as [Hs | Hs].
  { left. split; [apply skip_not_eligible; eauto 6 | reflexivity]. }
  destruct (Z.ltb_spec (dict_get (topic_unread_count topic) 0)
              (dict_get (tc_threshold p) 1)) as [Hlt | Hge].
  { left. split; [apply skip_not_eligible; eauto 6 | reflexivity]. }
  right. exists (dict_get (tc_type p) "skip").
  destruct (fetch_and_summarise_sound
              (fun w => get_topic_messages client w forum_id (topic_id topic)
                          100 since_hours)
              (EvTopicMessages forum_id (topic_id topic) 100 since_hours)
              (topic_title topic) (dict_get (tc_type p) "skip") forum_name
              (topic_title topic) (forum_name ++ "/" ++ topic_title topic)%string
              st Hs) as (w & evs & srs & ers & Hrun & Hatt).
  exists w, evs, srs, ers. split; [| split].
  - split; [assumption |]. exists p. auto.
  - unfold bind, call_get_topic_messages. rewrite Hrun. reflexivity.
  - exact Hatt.
Qed.

Lemma topics_loop_sound (since_hours : Z) (forum_name : string) (forum_id : Z)
    (topics : list Topic) :
  forall (forum_topics : list CountEntry) (st : St),
  exists w evs srs ers,
    for_each (topic_body client since_hours forum_name forum_id) topics
      forum_topics st
    = (extend st w evs srs ers,
       Ret (forum_topics ++ map topic_count topics))
    /\ topics_run since_hours forum_name forum_id topics evs srs ers.
Proof.
  induction topics as [| topic rest IH]; intros acc st; cbn [for_each map].
  - exists (world st), [], [], []. rewrite extend_nil, app_nil_r.
    split; [reflexivity | constructor].
  - unfold bind.
    destruct (topic_body_sound since_hours forum_name forum_id acc topic st)
      as [[Hne Hb] | (ty & w1 & evs1 & srs1 & ers1 & He & Hb & Ha)];
      rewrite Hb.
    + destruct (IH (acc ++ [topic_count topic]) st)
        as (w & evs & srs & ers & Hl & Hr).
      exists w, evs, srs, ers. rewrite Hl, <- app_assoc.
      split; [reflexivity | now apply topics_skip].
    + destruct (IH (acc ++ [topic_count topic]) (extend st w1 evs1 srs1 ers1))
        as (w & evs & srs & ers & Hl & Hr).
      exists w, (evs1 ++ evs), (srs1 ++ srs), (ers1 ++ ers).
      rewrite Hl, extend_extend, <- app_assoc.
      split; [reflexivity | now apply topics_attempt with (ty := ty)].
Qed.

Lemma forums_loop_sound (since_hours : Z) (forums_in : list Item) :
  forall (forums : list ForumData) (st st' : St) (forums' : list ForumData),
  for_each (forum_body client since_hours) forums_in forums st
  = (st', Ret forums') ->
  exists w fds evs srs ers,
    st' = extend st w evs srs ers
    /\ forums' = forums ++ fds
    /\ forums_run since_hours forums_in fds evs srs ers.
Proof.
  induction forums_in as [| forum rest IH]; intros acc st st' forums' H;
    cbn [for_each] in H.
  - injection H as <- <-. exists (world st), [], [], [], [].
    rewrite extend_nil, app_nil_r. repeat split. constructor.
  - unfold bind at 1 in H. unfold forum_body in H.
    destruct (is_excluded_group (item_name forum)) eqn:Hex.
    + cbn [ret] in H. apply IH in H.
      destruct H as (w & fds & evs & srs & ers & -> & -> & Hr).
      exists w, fds, evs, srs, ers. repeat split.
      now apply forums_excluded.
    + unfold bind at 1 in H. unfold call_get_group_topics in H.
      rewrite external_run in H.
      destruct (get_group_topics client (world st) (item_id forum))
        as [w1 [topics | e]]; cbn [fst snd] in H; [| discriminate].
      unfold bind at 1 in H.
      destruct (topics_loop_sound since_hours (item_name forum)
                  (item_id forum) topics []
                  (extend st w1 [EvGroupTopics (item_id forum) (Ret topics)]
                     [] []))
        as (w2 & evs1 & srs1 & ers1 & Hl & Hr1).
      rewrite Hl in H. cbn [ret app] in H. apply IH in H.
      destruct H as (w & fds & evs & srs & ers & -> & -> & Hr).
      rewrite !extend_extend. cbn [app].
      exists w. eexists. eexists. eexists. eexists. split; [reflexivity |].
      split; [now rewrite <- app_assoc |].
      now apply forums_listed.
Qed.

Lemma group_body_sound (since_hours : Z) (group : Item) (st : St) :
  ((forall ty, ~ group_eligible group ty)
   /\ group_body client since_hours tt group st = (st, Ret tt))
  \/ (exists ty w evs srs ers,
        group_eligible group ty
        /\ group_body client since_hours tt group st
           = (extend st w evs srs ers, Ret tt)
        /\ group_attempt since_hours group ty evs srs ers).
Proof.
  unfold group_body.
  destruct (is_excluded_group (item_name group)) eqn:Hex.
  { left. split; [| reflexivity]. intros ty (H & _). congruence. }
  destruct (get_group_config (item_name group)) as [p |] eqn:Hp.
  2:{ left. split; [| reflexivity]. intros ty (_ & p & H & _). congruence. }
  destruct (String.eqb_spec (dict_get (gc_type p) "skip") "skip") as [Hs | Hs].
  { left. split; [| reflexivity].
    intros ty (_ & p' & H & Hty & Hskip & _). congruence. }
  destruct (Z.ltb_spec (item_unread_count group)
              (dict_get (gc_threshold p) 1)) as [Hlt | Hge].
  { left. split; [| reflexivity].
    intros ty (_ & p' & H & _ & _ & Hthr).
    rewrite Hp in H. injection H as H. subst p'. lia. }
  right. exists (dict_get (gc_type p) "skip").
  destruct (fetch_and_summarise_sound
              (fun w => get_chat_messages client w (item_id group) 100
                          since_hours)
              (EvChatMessages (item_id group) 100 since_hours)
              (item_name group) (dict_get (gc_type p) "skip")
              (item_name group) "(all)" (item_name group) st Hs)
    as (w & evs & srs & ers & Hrun & Hatt).
  exists w, evs, srs, ers. split; [| split].
  - split; [assumption |]. exists p. auto.
  - exact Hrun.
  - exact Hatt.
Qed.

Lemma groups_loop_sound (since_hours : Z) (groups_in : list Item) :
  forall (st : St),
  exists w evs srs ers,
    for_each (group_body client since_hours) groups_in tt st
    = (extend st w evs srs ers, Ret tt)
    /\ groups_run since_hours groups_in evs srs ers.
Proof.
  induction groups_in as [| group rest IH]; intros st; cbn [for_each].
  - exists (world st), [], [], []. rewrite extend_nil.
    split; [reflexivity | constructor].
  - unfold bind.
    destruct (group_body_sound since_hours group st)
      as [[Hne Hb] | (ty & w1 & evs1 & srs1 & ers1 & He & Hb & Ha)];
      rewrite Hb.
    + destruct (IH st) as (w & evs & srs & ers & Hl & Hr).
      exists w, evs, srs, ers. rewrite Hl.
      split; [reflexivity | now apply groups_skip].
    + destruct (IH (extend st w1 evs1 srs1 ers1))
        as (w & evs & srs & ers & Hl & Hr).
      exists w, (evs1 ++ evs), (srs1 ++ srs), (ers1 ++ ers).
      rewrite Hl, extend_extend.
      split; [reflexivity | now apply groups_attempt with (ty := ty)].
Qed.

Lemma assemble_sound (since_hours : Z) (unread : Unread) (st st' : St)
    (d : DigestResponse) :
  assemble client since_hours unread st = (st', Ret d) ->
  exists w evs,
    st' = mkSt w (calls st ++ evs) (summaries d) (errors d)
    /\ summaries d = st_summaries st' /\ errors d = st_errors st'
    /\ (st_summaries st = [] -> st_errors st = [] ->
        digest_run since_hours unread d evs).
Proof.
  unfold assemble. intros H. unfold bind at 1 in H.
  destruct (for_each (forum_body client since_hours) (supergroups unread) []
              st) as [st1 [fds' | e]] eqn:HF; [| discriminate].
  apply forums_loop_sound in HF.
  destruct HF as (w1 & fds & evsF & srsF & ersF & -> & -> & HrF).
  unfold bind at 1 in H.
  destruct (groups_loop_sound since_hours (groups unread)
              (extend st w1 evsF srsF ersF))
    as (w2 & evsG & srsG & ersG & HG & HrG).
  rewrite HG, extend_extend in H. injection H as <- <-.
  exists w2, (evsF ++ evsG). cbn [summaries errors extend st_summaries
    st_errors app].
  split; [reflexivity | split; [reflexivity | split; [reflexivity |]]].
  intros Hs He. rewrite Hs, He. cbn [app]. now constructor.
Qed.

Lemma digest_request_sound (since_hours : Z) (st st' : St)
    (d : DigestResponse) :
  digest_request client since_hours st = (st', Ret d) ->
  exists w1 unread evs,
    get_unread_summary client (world st) = (w1, Ret unread)
    /\ calls st' = calls st ++ EvUnreadSummary (Ret unread) :: evs
    /\ summaries d = st_summaries st' /\ errors d = st_errors st'
    /\ digest_run since_hours unread d evs.
Proof.
  unfold digest_request. intros H. unfold bind at 1 in H.
  unfold call_get_unread_summary in H. rewrite external_run in H.
  cbn [world] in H.
  destruct (get_unread_summary client (world st)) as [w1 [unread | e]];
    cbn [fst snd] in H; [| discriminate].
  apply assemble_sound in H.
  destruct H as (w & evs & -> & Hs & He & Hrun).
  exists w1, unread, evs. cbn [calls extend]. rewrite <- app_assoc.
  repeat split; auto.
Qed.

End Runs.

Lemma get_digest_sound (tg_client : option (TelegramDigestClient World))
    (since_hours : Z) (st st' : St) (d : DigestResponse) :
  get_digest tg_client since_hours st = (st', Ret d) ->
  exists client w1 unread evs,
    tg_client = Some client
    /\ get_unread_summary client (world st) = (w1, Ret unread)
    /\ calls st' = calls st ++ EvUnreadSummary (Ret unread) :: evs
    /\ summaries d = st_summaries st' /\ errors d = st_errors st'
    /\ digest_run since_hours unread d evs.
Proof.
  destruct tg_client as [client |]; cbn [get_digest]; [| discriminate].
  intros H. apply digest_request_sound in H.
  destruct H as (w1 & unread & evs & H). exists client, w1, unread, evs.
  tauto.
Qed.

(** ** Every call, record and error of a run belongs to an attempt *)

Lemma topic_eligible_fun (forum_name : string) (topic : Topic) (ty ty' : string) :
  topic_eligible forum_name topic ty ->
  topic_eligible forum_name topic ty' ->
  ty = ty'.
Proof.
  intros (_ & p & Hp & -> & _) (_ & p' & Hp' & -> & _). congruence.
Qed.

Lemma group_eligible_fun (group : Item) (ty ty' : string) :
  group_eligible group ty -> group_eligible group ty' -> ty = ty'.
Proof.
  intros (_ & p & Hp & -> & _) (_ & p' & Hp' & -> & _). congruence.
Qed.

Lemma topic_part_weaken since_hours forum_name forum_id topics evs srs ers
    topic evs0 srs0 ers0 evs1 srs1 ers1 :
  topic_part since_hours forum_name forum_id topics evs srs ers
    evs1 srs1 ers1 ->
  topic_part since_hours forum_name forum_id (topic :: topics)
    (evs0 ++ evs) (srs0 ++ srs) (ers0 ++ ers) evs1 srs1 ers1.
Proof.
  intros (t & ty & Hin & He & Ha & Hi1 & Hi2 & Hi3).
  exists t, ty. splits; auto using in_cons, incl_appr.
Qed.

Lemma topic_part_head since_hours forum_name forum_id topics evs srs ers
    topic ty evs1 srs1 ers1 :
  topic_eligible forum_name topic ty ->
  topic_attempt since_hours forum_name forum_id topic ty evs1 srs1 ers1 ->
  topic_part since_hours forum_name forum_id (topic :: topics)
    (evs1 ++ evs) (srs1 ++ srs) (ers1 ++ ers) evs1 srs1 ers1.
Proof.
  intros He Ha. exists topic, ty.
  splits; auto using in_eq, incl_appl, incl_refl.
Qed.

Lemma topic_part_skip since_hours forum_name forum_id topics evs srs ers
    topic evs1 srs1 ers1 :
  topic_part since_hours forum_name forum_id topics evs srs ers
    evs1 srs1 ers1 ->
  topic_part since_hours forum_name forum_id (topic :: topics) evs srs ers
    evs1 srs1 ers1.
Proof.
  intros (t & ty & Hin & H). exists t, ty. split; [now right | exact H].
Qed.

Lemma topics_run_cover since_hours forum_name forum_id topics evs srs ers :
  topics_run since_hours forum_name forum_id topics evs srs ers ->
  (forall ev, In ev evs ->
     exists evs1 srs1 ers1,
       topic_part since_hours forum_name forum_id topics evs srs ers
         evs1 srs1 ers1 /\ In ev evs1)
  /\ (forall r, In r srs ->
     exists evs1 srs1 ers1,
       topic_part since_hours forum_name forum_id topics evs srs ers
         evs1 srs1 ers1 /\ In r srs1)
  /\ (forall e, In e ers ->
     exists evs1 srs1 ers1,
       topic_part since_hours forum_name forum_id topics evs srs ers
         evs1 srs1 ers1 /\ In e ers1).
Proof.
  induction 1 as [| topic rest evs srs ers Hne Hrun (IH1 & IH2 & IH3)
                  | topic ty rest evs1 srs1 ers1 evs srs ers He Ha Hrun
                      (IH1 & IH2 & IH3)].
  - splits; intros x [].
  - splits; intros x Hx;
      [destruct (IH1 x Hx) as (a & b & c & Hp & Hi)
      | destruct (IH2 x Hx) as (a & b & c & Hp & Hi)
      | destruct (IH3 x Hx) as (a & b & c & Hp & Hi)];
      exists a, b, c; split; auto using topic_part_skip.
  - splits; intros x Hx; apply in_app_or in Hx;
      (destruct Hx as [Hx | Hx];
       [exists evs1, srs1, ers1; split;
          [now apply topic_part_head with (ty := ty) | exact Hx] |]).
    + destruct (IH1 x Hx) as (a & b & c & Hp & Hi).
      exists a, b, c. split; auto using topic_part_weaken.
    + destruct (IH2 x Hx) as (a & b & c & Hp & Hi).
      exists a, b, c. split; auto using topic_part_weaken.
    + destruct (IH3 x Hx) as (a & b & c & Hp & Hi).
      exists a, b, c. split; auto using topic_part_weaken.
Qed.

(** Every eligible topic of the listing has its attempt in the run,
    whatever happened to the others. *)
Lemma topics_run_complete since_hours forum_name forum_id topics evs srs ers :
  topics_run since_hours forum_name forum_id topics evs srs ers ->
  forall topic ty,
    In topic topics ->
    topic_eligible forum_name topic ty ->
    exists evs1 srs1 ers1,
      topic_attempt since_hours forum_name forum_id topic ty evs1 srs1 ers1
      /\ incl evs1 evs /\ incl srs1 srs /\ incl ers1 ers.
Proof.
  induction 1 as [| topic0 rest evs srs ers Hne Hrun IH
                  | topic0 ty0 rest evs1 srs1 ers1 evs srs ers He Ha Hrun IH];
    intros topic ty Hin Hel.
  - destruct Hin.
  - destruct Hin as [-> | Hin]; [now apply Hne in Hel |].
    now apply IH.
  - destruct Hin as [-> | Hin].
    + rewrite (topic_eligible_fun _ _ _ _ Hel He).
      exists evs1, srs1, ers1. auto using incl_appl, incl_refl.
    + destruct (IH topic ty Hin Hel) as (a & b & c & H1 & H2 & H3 & H4).
      exists a, b, c. auto using incl_appr.
Qed.

Lemma topic_part_incl since_hours forum_name forum_id topics topics'
    evs srs ers evs' srs' ers' evs1 srs1 ers1 :
  incl topics topics' -> incl evs evs' -> incl srs srs' -> incl ers ers' ->
  topic_part since_hours forum_name forum_id topics evs srs ers
    evs1 srs1 ers1 ->
  topic_part since_hours forum_name forum_id topics' evs' srs' ers'
    evs1 srs1 ers1.
Proof.
  intros Ht H1 H2 H3 (t & ty & Hin & He & Ha & Hi1 & Hi2 & Hi3).
  exists t, ty. splits; eauto using incl_tran.
Qed.

Lemma forum_part_incl since_hours forums_in forums_in'
    evs srs ers evs' srs' ers' evs1 srs1 ers1 :
  incl forums_in forums_in' ->
  incl evs evs' -> incl srs srs' -> incl ers ers' ->
  forum_part since_hours forums_in evs srs ers evs1 srs1 ers1 ->
  forum_part since_hours forums_in' evs' srs' ers' evs1 srs1 ers1.
Proof.
  intros Hf H1 H2 H3 (forum & topics & Hin & Hex & Hev & Hp).
  exists forum, topics. splits; auto.
  eapply topic_part_incl; eauto using incl_refl.
Qed.

Lemma group_part_incl since_hours groups_in groups_in'
    evs srs ers evs' srs' ers' evs1 srs1 ers1 :
  incl groups_in groups_in' ->
  incl evs evs' -> incl srs srs' -> incl ers ers' ->
  group_part since_hours groups_in evs srs ers evs1 srs1 ers1 ->
  group_part since_hours groups_in' evs' srs' ers' evs1 srs1 ers1.
Proof.
  intros Hg H1 H2 H3 (g & ty & Hin & He & Ha & Hi1 & Hi2 & Hi3).
  exists g, ty. splits; eauto using incl_tran.
Qed.

Lemma forums_run_cover since_hours forums_in fds evs srs ers :
  forums_run since_hours forums_in fds evs srs ers ->
  (forall ev, In ev evs ->
     (exists forum topics,
        In forum forums_in
        /\ is_excluded_group (item_name forum) = false
        /\ ev = EvGroupTopics (item_id forum) (Ret topics))
     \/ (exists evs1 srs1 ers1,
          forum_part since_hours forums_in evs srs ers evs1 srs1 ers1
          /\ In ev evs1))
  /\ (forall r, In r srs ->
     exists evs1 srs1 ers1,
       forum_part since_hours forums_in evs srs ers evs1 srs1 ers1
       /\ In r srs1)
  /\ (forall e, In e ers ->
     exists evs1 srs1 ers1,
       forum_part since_hours forums_in evs srs ers evs1 srs1 ers1
       /\ In e ers1).
Proof.
  induction 1 as [| forum rest fds evs srs ers Hex Hrun (IH1 & IH2 & IH3)
                  | forum topics rest evs1 srs1 ers1 fds evs srs ers Hex Ht
                      Hrun (IH1 & IH2 & IH3)].
  - splits; intros x [].
  - assert (Hw : forall a b c,
               forum_part since_hours rest evs srs ers a b c ->
               forum_part since_hours (forum :: rest) evs srs ers a b c).
    { intros a b c. apply forum_part_incl; auto using incl_refl, incl_tl. }
    splits; intros x Hx.
    + destruct (IH1 x Hx) as [(f & tps & Hin & Hnex & ->)
                              | (a & b & c & Hp & Hi)].
      * left. exists f, tps. auto using in_cons.
      * right. exists a, b, c. auto.
    + destruct (IH2 x Hx) as (a & b & c & Hp & Hi). exists a, b, c. auto.
    + destruct (IH3 x Hx) as (a & b & c & Hp & Hi). exists a, b, c. auto.
  - pose proof (topics_run_cover _ _ _ _ _ _ _ Ht) as (T1 & T2 & T3).
    set (ev0 := EvGroupTopics (item_id forum) (Ret topics)).
    assert (Hw : forall a b c,
               forum_part since_hours rest evs srs ers a b c ->
               forum_part since_hours (forum :: rest)
                 (ev0 :: evs1 ++ evs) (srs1 ++ srs) (ers1 ++ ers) a b c).
    { intros a b c. apply forum_part_incl;
        auto using incl_tl, incl_appr, incl_refl. }
    assert (Hh : forall a b c,
               topic_part since_hours (item_name forum) (item_id forum)
                 topics evs1 srs1 ers1 a b c ->
               forum_part since_hours (forum :: rest)
                 (ev0 :: evs1 ++ evs) (srs1 ++ srs) (ers1 ++ ers) a b c).
    { intros a b c Hp. exists forum, topics. splits; auto using in_eq.
      eapply topic_part_incl; [| | | | exact Hp];
        auto using incl_tl, incl_appl, incl_refl. }
    splits; intros x Hx.
    + destruct Hx as [<- | Hx].
      { left. exists forum, topics. auto using in_eq. }
      apply in_app_or in Hx. destruct Hx as [Hx | Hx].
      * right. destruct (T1 x Hx) as (a & b & c & Hp & Hi).
        exists a, b, c. auto.
      * destruct (IH1 x Hx) as [(f & tps & Hin & Hnex & ->)
                                | (a & b & c & Hp & Hi)].
        -- left. exists f, tps. auto using in_cons.
        -- right. exists a, b, c. auto.
    + apply in_app_or in Hx. destruct Hx as [Hx | Hx].
      * destruct (T2 x Hx) as (a & b & c & Hp & Hi). exists a, b, c. auto.
      * destruct (IH2 x Hx) as (a & b & c & Hp & Hi). exists a, b, c. auto.
    + apply in_app_or in Hx. destruct Hx as [Hx | Hx].
      * destruct (T3 x Hx) as (a & b & c & Hp & Hi). exists a, b, c. auto.
      * destruct (IH3 x Hx) as (a & b & c & Hp & Hi). exists a, b, c. auto.
Qed.

(** Every listed forum that is not excluded has its topic listing, its
    entry in the forum counts, and an attempt for each eligible topic. *)
Lemma forums_run_complete since_hours forums_in fds evs srs ers :
  forums_run since_hours forums_in fds evs srs ers ->
  forall forum,
    In forum forums_in ->
    is_excluded_group (item_name forum) = false ->
    exists topics,
      In (EvGroupTopics (item_id forum) (Ret topics)) evs
      /\ In (mkForumData (item_name forum) (item_unread_count forum)
              (map topic_count topics)) fds
      /\ forall topic ty,
           In topic topics ->
           topic_eligible (item_name forum) topic ty ->
           exists evs1 srs1 ers1,
             topic_attempt since_hours (item_name forum) (item_id forum)
               topic ty evs1 srs1 ers1
             /\ incl evs1 evs /\ incl srs1 srs /\ incl ers1 ers.
Proof.
  induction 1 as [| forum0 rest fds evs srs ers Hex Hrun IH
                  | forum0 topics0 rest evs1 srs1 ers1 fds evs srs ers Hex Ht
                      Hrun IH];
    intros forum Hin Hnex.
  - destruct Hin.
  - destruct Hin as [-> | Hin]; [congruence | now apply IH].
  - destruct Hin as [-> | Hin].
    + exists topics0. splits; auto using in_eq.
      intros topic ty Hi He.
      destruct (topics_run_complete _ _ _ _ _ _ _ Ht topic ty Hi He)
        as (a & b & c & H1 & H2 & H3 & H4).
      exists a, b, c. splits; auto using incl_tl, incl_appl.
    + destruct (IH forum Hin Hnex) as (topics & H1 & H2 & H3).
      exists topics. splits.
      * right. apply in_or_app. now right.
      * now right.
      * intros topic ty Hi He.
        destruct (H3 topic ty Hi He) as (a & b & c & A1 & A2 & A3 & A4).
        exists a, b, c. splits; auto using incl_tl, incl_appr.
Qed.

(** The forum counts: one entry per listed forum that is not excluded, in
    listing order, each with the counts of all the topics returned. *)
Lemma forums_run_counts since_hours forums_in fds evs srs ers :
  forums_run since_hours forums_in fds evs srs ers ->
  Forall2
    (fun forum fd =>
       exists topics,
         In (EvGroupTopics (item_id forum) (Ret topics)) evs
         /\ fd = mkForumData (item_name forum) (item_unread_count forum)
                   (map topic_count topics))
    (filter (fun f => negb (is_excluded_group (item_name f))) forums_in)
    fds.
Proof.
  induction 1 as [| forum rest fds evs srs ers Hex Hrun IH
                  | forum topics rest evs1 srs1 ers1 fds evs srs ers Hex Ht
                      Hrun IH]; cbn [filter].
  - constructor.
  - rewrite Hex. exact IH.
  - rewrite Hex. cbn [negb]. constructor.
    + exists topics. auto using in_eq.
    + eapply Forall2_impl; [| exact IH].
      intros f fd (tps & Hin & ->). exists tps. split; [| reflexivity].
      right. apply in_or_app. now right.
Qed.

Lemma groups_run_cover since_hours groups_in evs srs ers :
  groups_run since_hours groups_in evs srs ers ->
  (forall ev, In ev evs ->
     exists evs1 srs1 ers1,
       group_part since_hours groups_in evs srs ers evs1 srs1 ers1
       /\ In ev evs1)
  /\ (forall r, In r srs ->
     exists evs1 srs1 ers1,
       group_part since_hours groups_in evs srs ers evs1 srs1 ers1
       /\ In r srs1)
  /\ (forall e, In e ers ->
     exists evs1 srs1 ers1,
       group_part since_hours groups_in evs srs ers evs1 srs1 ers1
       /\ In e ers1).
Proof.
  induction 1 as [| group rest evs srs ers Hne Hrun (IH1 & IH2 & IH3)
                  | group ty rest evs1 srs1 ers1 evs srs ers He Ha Hrun
                      (IH1 & IH2 & IH3)].
  - splits; intros x [].
  - assert (Hw : forall a b c,
               group_part since_hours rest evs srs ers a b c ->
               group_part since_hours (group :: rest) evs srs ers a b c).
    { intros a b c. apply group_part_incl; auto using incl_refl, incl_tl. }
    splits; intros x Hx;
      [destruct (IH1 x Hx) as (a & b & c & Hp & Hi)
      | destruct (IH2 x Hx) as (a & b & c & Hp & Hi)
      | destruct (IH3 x Hx) as (a & b & c & Hp & Hi)];
      exists a, b, c; auto.
  - assert (Hw : forall a b c,
               group_part since_hours rest evs srs ers a b c ->
               group_part since_hours (group :: rest)
                 (evs1 ++ evs) (srs1 ++ srs) (ers1 ++ ers) a b c).
    { intros a b c. apply group_part_incl;
        auto using incl_tl, incl_appr, incl_refl. }
    assert (Hh : group_part since_hours (group :: rest)
                   (evs1 ++ evs) (srs1 ++ srs) (ers1 ++ ers) evs1 srs1 ers1).
    { exists group, ty. splits; auto using in_eq, incl_appl, incl_refl. }
    splits; intros x Hx; apply in_app_or in Hx;
      (destruct Hx as [Hx | Hx]; [exists evs1, srs1, ers1; auto |]).
    + destruct (IH1 x Hx) as (a & b & c & Hp & Hi). exists a, b, c. auto.
    + destruct (IH2 x Hx) as (a & b & c & Hp & Hi). exists a, b, c. auto.
    + destruct (IH3 x Hx) as (a & b & c & Hp & Hi). exists a, b, c. auto.
Qed.

Lemma groups_run_complete since_hours groups_in evs srs ers :
  groups_run since_hours groups_in evs srs ers ->
  forall group ty,
    In group groups_in ->
    group_eligible group ty ->
    exists evs1 srs1 ers1,
      group_attempt since_hours group ty evs1 srs1 ers1
      /\ incl evs1 evs /\ incl srs1 srs /\ incl ers1 ers.
Proof.
  induction 1 as [| group0 rest evs srs ers Hne Hrun IH
                  | group0 ty0 rest evs1 srs1 ers1 evs srs ers He Ha Hrun IH];
    intros group ty Hin Hel.
  - destruct Hin.
  - destruct Hin as [-> | Hin]; [now apply Hne in Hel |].
    now apply IH.
  - destruct Hin as [-> | Hin].
    + rewrite (group_eligible_fun _ _ _ Hel He).
      exists evs1, srs1, ers1. auto using incl_appl, incl_refl.
    + destruct (IH group ty Hin Hel) as (a & b & c & H1 & H2 & H3 & H4).
      exists a, b, c. auto using incl_appr.
Qed.

(** ** What one attempt contributes *)

Lemma attempt_run_record fetch_ev summary_type group topic where_
    evs srs ers r :
  attempt_run fetch_ev summary_type group topic where_ evs srs ers ->
  In r srs ->
  exists messages model max_tokens prompt text,
    evs = [fetch_ev (Ret messages); EvCreate model max_tokens prompt (Ret text)]
    /\ srs = [r] /\ ers = []
    /\ r = mkSummary group topic summary_type (len messages) text
    /\ messages <> [] /\ text <> EmptyString.
Proof.
  intros Ha Hin. destruct Ha; try (now destruct Hin).
  destruct Hin as [<- | []]. do 5 eexists. splits; eauto.
Qed.

Lemma attempt_run_error fetch_ev summary_type group topic where_
    evs srs ers e :
  attempt_run fetch_ev summary_type group topic where_ evs srs ers ->
  In e ers ->
  exists exn,
    e = error_message where_ exn /\ srs = [] /\ ers = [e]
    /\ (evs = [fetch_ev (Raise exn)]
        \/ exists messages model max_tokens prompt,
             messages <> []
             /\ evs = [fetch_ev (Ret messages);
                       EvCreate model max_tokens prompt (Raise exn)]).
Proof.
  intros Ha Hin. destruct Ha; try (now destruct Hin);
    destruct Hin as [<- | []]; eexists; splits; eauto.
  right. do 4 eexists. eauto.
Qed.

Lemma attempt_run_error_count fetch_ev summary_type group topic where_
    evs srs ers :
  (forall r, attempt_raised (fetch_ev r) = is_raise r) ->
  attempt_run fetch_ev summary_type group topic where_ evs srs ers ->
  length ers = length (filter attempt_raised evs).
Proof.
  intros Hf Ha. destruct Ha; cbn [filter]; rewrite ?Hf; reflexivity.
Qed.

Lemma attempt_run_calls fetch_ev summary_type group topic where_
    evs srs ers ev :
  attempt_run fetch_ev summary_type group topic where_ evs srs ers ->
  In ev evs ->
  (exists r, ev = fetch_ev r)
  \/ (exists model max_tokens prompt r,
        ev = EvCreate model max_tokens prompt r).
Proof.
  intros Ha Hin.
  destruct Ha; repeat (destruct Hin as [<- | Hin]); try (now destruct Hin);
    eauto 6.
Qed.

Lemma attempt_run_first fetch_ev summary_type group topic where_ evs srs ers :
  attempt_run fetch_ev summary_type group topic where_ evs srs ers ->
  exists r rest, evs = fetch_ev r :: rest.
Proof. intros Ha. destruct Ha; eauto. Qed.

Lemma topics_run_error_count since_hours forum_name forum_id topics
    evs srs ers :
  topics_run since_hours forum_name forum_id topics evs srs ers ->
  length ers = length (filter attempt_raised evs).
Proof.
  induction 1 as [| | topic ty rest evs1 srs1 ers1 evs srs ers He Ha Hrun IH];
    auto.
  rewrite filter_app, !length_app, IH. f_equal.
  eapply attempt_run_error_count; [| exact Ha]. reflexivity.
Qed.

Lemma forums_run_error_count since_hours forums_in fds evs srs ers :
  forums_run since_hours forums_in fds evs srs ers ->
  length ers = length (filter attempt_raised evs).
Proof.
  induction 1 as [| | forum topics rest evs1 srs1 ers1 fds evs srs ers Hex Ht
                        Hrun IH]; auto.
  cbn [filter attempt_raised].
  rewrite filter_app, !length_app, IH. f_equal.
  eapply topics_run_error_count; eauto.
Qed.

Lemma groups_run_error_count since_hours groups_in evs srs ers :
  groups_run since_hours groups_in evs srs ers ->
  length ers = length (filter attempt_raised evs).
Proof.
  induction 1 as [| | group ty rest evs1 srs1 ers1 evs srs ers He Ha Hrun IH];
    auto.
  rewrite filter_app, !length_app, IH. f_equal.
  eapply attempt_run_error_count; [| exact Ha]. reflexivity.
Qed.

(** ** The whole request *)

Lemma digest_run_error_count since_hours unread d evs :
  digest_run since_hours unread d evs ->
  length (errors d) = length (filter attempt_raised evs).
Proof.
  intros [fds evsF srsF ersF evsG srsG ersG HF HG]. cbn [errors].
  rewrite filter_app, !length_app.
  f_equal; eauto using forums_run_error_count, groups_run_error_count.
Qed.

Lemma digest_run_cover since_hours unread d evs :
  digest_run since_hours unread d evs ->
  (forall ev, In ev evs ->
     (exists forum topics,
        In forum (supergroups unread)
        /\ is_excluded_group (item_name forum) = false
        /\ ev = EvGroupTopics (item_id forum) (Ret topics))
     \/ (exists evs1 srs1 ers1,
          digest_part since_hours unread d evs evs1 srs1 ers1
          /\ In ev evs1))
  /\ (forall r, In r (summaries d) ->
     exists evs1 srs1 ers1,
       digest_part since_hours unread d evs evs1 srs1 ers1 /\ In r srs1)
  /\ (forall e, In e (errors d) ->
     exists evs1 srs1 ers1,
       digest_part since_hours unread d evs evs1 srs1 ers1 /\ In e ers1).
Proof.
  intros [fds evsF srsF ersF evsG srsG ersG HF HG].
  pose proof (forums_run_cover _ _ _ _ _ _ HF) as (F1 & F2 & F3).
  pose proof (groups_run_cover _ _ _ _ _ HG) as (G1 & G2 & G3).
  unfold digest_part. cbn [summaries errors].
  assert (HwF : forall a b c,
             forum_part since_hours (supergroups unread) evsF srsF ersF a b c ->
             forum_part since_hours (supergroups unread) (evsF ++ evsG)
               (srsF ++ srsG) (ersF ++ ersG) a b c).
  { intros a b c. apply forum_part_incl; auto using incl_refl, incl_appl. }
  assert (HwG : forall a b c,
             group_part since_hours (groups unread) evsG srsG ersG a b c ->
             group_part since_hours (groups unread) (evsF ++ evsG)
               (srsF ++ srsG) (ersF ++ ersG) a b c).
  { intros a b c. apply group_part_incl; auto using incl_refl, incl_appr. }
  splits; intros x Hx; apply in_app_or in Hx; destruct Hx as [Hx | Hx].
  - destruct (F1 x Hx) as [H | (a & b & c & Hp & Hi)]; [now left |].
    right. exists a, b, c. auto.
  - destruct (G1 x Hx) as (a & b & c & Hp & Hi).
    right. exists a, b, c. auto.
  - destruct (F2 x Hx) as (a & b & c & Hp & Hi). exists a, b, c. auto.
  - destruct (G2 x Hx) as (a & b & c & Hp & Hi). exists a, b, c. auto.
  - destruct (F3 x Hx) as (a & b & c & Hp & Hi). exists a, b, c. auto.
  - destruct (G3 x Hx) as (a & b & c & Hp & Hi). exists a, b, c. auto.
Qed.

Lemma digest_run_complete since_hours unread d evs :
  digest_run since_hours unread d evs ->
  (forall forum,
     In forum (supergroups unread) ->
     is_excluded_group (item_name forum) = false ->
     exists topics,
       In (EvGroupTopics (item_id forum) (Ret topics)) evs
       /\ In (mkForumData (item_name forum) (item_unread_count forum)
               (map topic_count topics)) (mc_forums (message_counts d))
       /\ forall topic ty,
            In topic topics ->
            topic_eligible (item_name forum) topic ty ->
            exists evs1 srs1 ers1,
              topic_attempt since_hours (item_name forum) (item_id forum)
                topic ty evs1 srs1 ers1
              /\ incl evs1 evs /\ incl srs1 (summaries d)
              /\ incl ers1 (errors d))
  /\ (forall group ty,
        In group (groups unread) ->
        group_eligible group ty ->
        exists evs1 srs1 ers1,
          group_attempt since_hours group ty evs1 srs1 ers1
          /\ incl evs1 evs /\ incl srs1 (summaries d)
          /\ incl ers1 (errors d)).
Proof.
  intros [fds evsF srsF ersF evsG srsG ersG HF HG].
  cbn [summaries errors message_counts mc_forums]. split.
  - intros forum Hin Hnex.
    destruct (forums_run_complete _ _ _ _ _ _ HF forum Hin Hnex)
      as (topics & H1 & H2 & H3).
    exists topics. splits; auto using in_or_app.
    intros topic ty Hi He.
    destruct (H3 topic ty Hi He) as (a & b & c & A1 & A2 & A3 & A4).
    exists a, b, c. splits; auto using incl_appl.
  - intros group ty Hin He.
    destruct (groups_run_complete _ _ _ _ _ HG group ty Hin He)
      as (a & b & c & A1 & A2 & A3 & A4).
    exists a, b, c. splits; auto using incl_appr.
Qed.

Lemma digest_run_counts since_hours unread d evs :
  digest_run since_hours unread d evs ->
  mc_dms (message_counts d)
  = (if dict_get (cfg_show_dm_counts CONFIG) true
     then map count_entry (dms unread) else [])
  /\ mc_groups (message_counts d)
     = map count_entry
         (filter (fun g => negb (is_excluded_group (item_name g)))
                 (groups unread))
  /\ Forall2
       (fun forum fd =>
          exists topics,
            In (EvGroupTopics (item_id forum) (Ret topics)) evs
            /\ fd = mkForumData (item_name forum) (item_unread_count forum)
                      (map topic_count topics))
       (filter (fun f => negb (is_excluded_group (item_name f)))
               (supergroups unread))
       (mc_forums (message_counts d)).
Proof.
  intros [fds evsF srsF ersF evsG srsG ersG HF HG].
  cbn [message_counts mc_dms mc_groups mc_forums]. splits; auto.
  eapply Forall2_impl; [| exact (forums_run_counts _ _ _ _ _ _ HF)].
  intros f fd (tps & Hin & ->). exists tps. auto using in_or_app.
Qed.

(** ** Configuration resolver *)

Lemma same_name_true (a b : string) :
  same_name a b = true <-> lower a = lower b.
Proof. unfold same_name. apply String.eqb_eq. Qed.

Lemma same_name_false (a b : string) :
  same_name a b = false <-> lower a <> lower b.
Proof. unfold same_name. apply String.eqb_neq. Qed.

Lemma is_excluded_group_spec (group_name : string) :
  is_excluded_group group_name = true
  <-> exists x,
        In x (dict_get (cfg_excluded_groups CONFIG) [])
        /\ lower x = lower group_name.
Proof.
  unfold is_excluded_group. rewrite existsb_exists. split.
  - intros (y & Hin & Heq). apply in_map_iff in Hin.
    destruct Hin as (x & <- & Hin). apply String.eqb_eq in Heq.
    exists x. split; [assumption | congruence].
  - intros (x & Hin & Heq). exists (lower x).
    split; [now apply in_map | apply String.eqb_eq; congruence].
Qed.

Lemma is_configured_group_spec (group_name : string) :
  is_configured_group group_name = true
  <-> exists group,
        In group config_groups /\ lower (gc_name group) = lower group_name.
Proof.
  unfold is_configured_group. rewrite existsb_exists.
  split; intros (g & Hin & H); exists g; split; auto;
    now apply same_name_true.
Qed.

Lemma find_topic_some (group : GroupConfig) (topic_name : string)
    (topic : TopicConfig) :
  find_topic group topic_name = Some topic
  <-> exists before after,
        dict_get (gc_topics group) [] = before ++ topic :: after
        /\ lower (tc_name topic) = lower topic_name
        /\ forall t, In t before -> lower (tc_name t) <> lower topic_name.
Proof.
  unfold find_topic. generalize (dict_get (gc_topics group) []) as l.
  induction l as [| t l IH]; cbn [find].
  - split; [discriminate |].
    intros (b & a & H & _). now destruct b.
  - destruct (same_name (tc_name t) topic_name) eqn:E.
    + apply same_name_true in E. split.
      * intros [= ->]. exists [], l. splits; auto.
      * intros ([| t0 b] & a & H & Hm & Hb); cbn [app] in H.
        -- congruence.
        -- injection H as <- _. exfalso. apply (Hb t); [now left | exact E].
    + apply same_name_false in E. rewrite IH. split.
      * intros (b & a & -> & Hm & Hb). exists (t :: b), a. splits; auto.
        intros t0 [<- | Hin]; auto.
      * intros ([| t0 b] & a & H & Hm & Hb); cbn [app] in H.
        -- injection H as <- _. contradiction.
        -- injection H as <- ->. exists b, a. splits; auto.
           intros t1 Hin. apply Hb. now right.
Qed.

Lemma find_topic_none (group : GroupConfig) (topic_name : string) :
  find_topic group topic_name = None
  <-> forall t, In t (dict_get (gc_topics group) []) ->
                lower (tc_name t) <> lower topic_name.
Proof.
  unfold find_topic. split.
  - intros H t Hin. apply same_name_false.
    exact (find_none _ _ H t Hin).
  - intros H. generalize dependent (dict_get (gc_topics group) []).
    induction l as [| t l IH]; intros H; cbn [find]; [reflexivity |].
    destruct (same_name (tc_name t) topic_name) eqn:E.
    + apply same_name_true in E. exfalso. apply (H t); [now left | exact E].
    + apply IH. intros t0 Hin. apply H. now right.
Qed.

(** An entry that [get_topic_config] passes over: its name differs, or it
    has neither a matching topic nor a default style. *)
Lemma get_topic_config_in_skip (before : list GroupConfig) (rest : list GroupConfig)
    (group_name topic_name : string) :
  (forall g, In g before ->
     lower (gc_name g) = lower group_name ->
     find_topic g topic_name = None /\ gc_default_type g = None) ->
  get_topic_config_in (before ++ rest) group_name topic_name
  = get_topic_config_in rest group_name topic_name.
Proof.
  induction before as [| g before IH]; intros H; cbn [app get_topic_config_in];
    [reflexivity |].
  destruct (same_name (gc_name g) group_name) eqn:E.
  - apply same_name_true in E.
    destruct (H g (or_introl eq_refl) E) as (-> & ->).
    apply IH. intros g0 Hin. apply H. now right.
  - apply IH. intros g0 Hin. apply H. now right.
Qed.

Lemma get_group_config_in_skip (before : list GroupConfig) (rest : list GroupConfig)
    (group_name : string) :
  (forall g, In g before ->
     lower (gc_name g) = lower group_name -> gc_type g = None) ->
  get_group_config_in (before ++ rest) group_name
  = get_group_config_in rest group_name.
Proof.
  induction before as [| g before IH]; intros H; cbn [app get_group_config_in];
    [reflexivity |].
  destruct (same_name (gc_name g) group_name) eqn:E.
  - apply same_name_true in E. rewrite (H g (or_introl eq_refl) E).
    apply IH. intros g0 Hin. apply H. now right.
  - apply IH. intros g0 Hin. apply H. now right.
Qed.

Lemma get_group_config_in_some (gs : list GroupConfig) (group_name : string)
    (group : GroupConfig) :
  get_group_config_in gs group_name = Some group ->
  exists before after,
    gs = before ++ group :: after
    /\ lower (gc_name group) = lower group_name
    /\ gc_type group <> None
    /\ forall g, In g before ->
         lower (gc_name g) = lower group_name -> gc_type g = None.
Proof.
  induction gs as [| g gs IH]; cbn [get_group_config_in]; [discriminate |].
  destruct (same_name (gc_name g) group_name) eqn:E.
  - apply same_name_true in E. destruct (gc_type g) eqn:T.
    + intros [= <-]. exists [], gs. splits; auto; [congruence |].
      intros ? [].
    + intros H. destruct (IH H) as (b & a & -> & Hm & Hty & Hb).
      exists (g :: b), a. splits; auto.
      intros g0 [<- | Hin] Hg; auto.
  - apply same_name_false in E. intros H.
    destruct (IH H) as (b & a & -> & Hm & Hty & Hb).
    exists (g :: b), a. splits; auto.
    intros g0 [<- | Hin] Hg; [contradiction | auto].
Qed.

Lemma get_group_config_configured (group_name : string) (group : GroupConfig) :
  get_group_config group_name = Some group ->
  is_configured_group group_name = true.
Proof.
  intros H. apply get_group_config_in_some in H.
  destruct H as (b & a & Hgs & Hm & _).
  apply is_configured_group_spec. exists group. split; [| exact Hm].
  fold config_groups in Hgs. rewrite Hgs. apply in_or_app. right. now left.
Qed.

Lemma group_eligible_configured (group : Item) (ty : string) :
  group_eligible group ty -> is_configured_group (item_name group) = true.
Proof.
  intros (_ & p & Hp & _). eapply get_group_config_configured; eauto.
Qed.

(** ** Where a summary record and an error string come from *)

Lemma digest_run_summary since_hours unread d evs :
  digest_run since_hours unread d evs ->
  forall r, In r (summaries d) ->
  exists messages model max_tokens prompt,
    messages <> [] /\ sr_summary r <> EmptyString
    /\ sr_message_count r = len messages
    /\ In (EvCreate model max_tokens prompt (Ret (sr_summary r))) evs
    /\ ((exists forum topics topic,
           In forum (supergroups unread)
           /\ is_excluded_group (item_name forum) = false
           /\ In (EvGroupTopics (item_id forum) (Ret topics)) evs
           /\ In topic topics
           /\ topic_eligible (item_name forum) topic (sr_type r)
           /\ sr_group r = item_name forum
           /\ sr_topic r = topic_title topic
           /\ In (EvTopicMessages (item_id forum) (topic_id topic) 100
                    since_hours (Ret messages)) evs)
        \/ (exists group,
              In group (groups unread)
              /\ group_eligible group (sr_type r)
              /\ sr_group r = item_name group
              /\ sr_topic r = "(all)"
              /\ In (EvChatMessages (item_id group) 100 since_hours
                       (Ret messages)) evs)).
Proof.
  intros Hrun r Hr.
  destruct (digest_run_cover _ _ _ _ Hrun) as (_ & Hcov & _).
  destruct (Hcov r Hr) as (evs1 & srs1 & ers1 & [Hp | Hp] & Hin).
  - destruct Hp as (forum & topics & Hf & Hex & Hev & topic & ty & Ht & He
                    & Ha & Hi1 & Hi2 & Hi3).
    destruct (attempt_run_record _ _ _ _ _ _ _ _ _ Ha Hin)
      as (messages & model & mt & prompt & text & -> & -> & -> & -> & Hm & Htx).
    exists messages, model, mt, prompt. cbn [sr_summary sr_message_count
      sr_type sr_group sr_topic]. splits; auto.
    + apply Hi1. right. now left.
    + left. exists forum, topics, topic. splits; auto.
      apply Hi1. now left.
  - destruct Hp as (group & ty & Hg & He & Ha & Hi1 & Hi2 & Hi3).
    destruct (attempt_run_record _ _ _ _ _ _ _ _ _ Ha Hin)
      as (messages & model & mt & prompt & text & -> & -> & -> & -> & Hm & Htx).
    exists messages, model, mt, prompt. cbn [sr_summary sr_message_count
      sr_type sr_group sr_topic]. splits; auto.
    + apply Hi1. right. now left.
    + right. exists group. splits; auto. apply Hi1. now left.
Qed.

Lemma digest_run_error since_hours unread d evs :
  digest_run since_hours unread d evs ->
  forall e, In e (errors d) ->
  exists exn,
    ((exists forum topics topic ty,
        In forum (supergroups unread)
        /\ is_excluded_group (item_name forum) = false
        /\ In (EvGroupTopics (item_id forum) (Ret topics)) evs
        /\ In topic topics
        /\ topic_eligible (item_name forum) topic ty
        /\ e = error_message (item_name forum ++ "/" ++ topic_title topic) exn
        /\ (In (EvTopicMessages (item_id forum) (topic_id topic) 100
                  since_hours (Raise exn)) evs
            \/ exists messages model max_tokens prompt,
                 In (EvTopicMessages (item_id forum) (topic_id topic) 100
                       since_hours (Ret messages)) evs
                 /\ In (EvCreate model max_tokens prompt (Raise exn)) evs))
     \/ (exists group ty,
           In group (groups unread)
           /\ group_eligible group ty
           /\ e = error_message (item_name group) exn
           /\ (In (EvChatMessages (item_id group) 100 since_hours
                     (Raise exn)) evs
               \/ exists messages model max_tokens prompt,
                    In (EvChatMessages (item_id group) 100 since_hours
                          (Ret messages)) evs
                    /\ In (EvCreate model max_tokens prompt (Raise exn)) evs))).
Proof.
  intros Hrun e He.
  destruct (digest_run_cover _ _ _ _ Hrun) as (_ & _ & Hcov).
  destruct (Hcov e He) as (evs1 & srs1 & ers1 & [Hp | Hp] & Hin).
  - destruct Hp as (forum & topics & Hf & Hex & Hev & topic & ty & Ht & Hel
                    & Ha & Hi1 & Hi2 & Hi3).
    destruct (attempt_run_error _ _ _ _ _ _ _ _ _ Ha Hin)
      as (exn & -> & _ & _ & Hcase).
    exists exn. left. exists forum, topics, topic, ty. splits; auto.
    destruct Hcase as [-> | (messages & model & mt & prompt & _ & ->)].
    + left. apply Hi1. now left.
    + right. exists messages, model, mt, prompt. split; apply Hi1.
      * now left.
      * right. now left.
  - destruct Hp as (group & ty & Hg & Hel & Ha & Hi1 & Hi2 & Hi3).
    destruct (attempt_run_error _ _ _ _ _ _ _ _ _ Ha Hin)
      as (exn & -> & _ & _ & Hcase).
    exists exn. right. exists group, ty. splits; auto.
    destruct Hcase as [-> | (messages & model & mt & prompt & _ & ->)].
    + left. apply Hi1. now left.
    + right. exists messages, model, mt, prompt. split; apply Hi1.
      * now left.
      * right. now left.
Qed.

(** Every message fetch of a request is made for an eligible topic of a
    listed forum that is not excluded, or for an eligible group; every
    generation call follows such a fetch that returned messages. *)
Lemma digest_run_call since_hours unread d evs :
  digest_run since_hours unread d evs ->
  forall ev, In ev evs ->
    (exists forum topics,
       In forum (supergroups unread)
       /\ is_excluded_group (item_name forum) = false
       /\ ev = EvGroupTopics (item_id forum) (Ret topics))
    \/ (exists forum topics topic ty r,
          In forum (supergroups unread)
          /\ is_excluded_group (item_name forum) = false
          /\ In (EvGroupTopics (item_id forum) (Ret topics)) evs
          /\ In topic topics
          /\ topic_eligible (item_name forum) topic ty
          /\ In (EvTopicMessages (item_id forum) (topic_id topic) 100
                   since_hours r) evs
          /\ (ev = EvTopicMessages (item_id forum) (topic_id topic) 100
                     since_hours r
              \/ exists model max_tokens prompt r',
                   ev = EvCreate model max_tokens prompt r'))
    \/ (exists group ty r,
          In group (groups unread)
          /\ group_eligible group ty
          /\ In (EvChatMessages (item_id group) 100 since_hours r) evs
          /\ (ev = EvChatMessages (item_id group) 100 since_hours r
              \/ exists model max_tokens prompt r',
                   ev = EvCreate model max_tokens prompt r')).
Proof.
  intros Hrun ev Hev.
  destruct (digest_run_cover _ _ _ _ Hrun) as (Hcov & _ & _).
  destruct (Hcov ev Hev) as [H | (evs1 & srs1 & ers1 & [Hp | Hp] & Hin)];
    [now left | |].
  - right. left.
    destruct Hp as (forum & topics & Hf & Hex & Hgt & topic & ty & Ht & Hel
                    & Ha & Hi1 & Hi2 & Hi3).
    destruct (attempt_run_first _ _ _ _ _ _ _ _ Ha) as (r & rest & Hfirst).
    exists forum, topics, topic, ty, r. splits; auto.
    + apply Hi1. rewrite Hfirst. now left.
    + rewrite Hfirst in Hin. destruct Hin as [<- | Hin]; [now left |].
      right. rewrite Hfirst in Ha.
      inversion Ha; subst; try (now destruct Hin);
        destruct Hin as [<- | Hin]; try (now destruct Hin); eauto 6.
  - right. right.
    destruct Hp as (group & ty & Hg & Hel & Ha & Hi1 & Hi2 & Hi3).
    destruct (attempt_run_first _ _ _ _ _ _ _ _ Ha) as (r & rest & Hfirst).
    exists group, ty, r. splits; auto.
    + apply Hi1. rewrite Hfirst. now left.
    + rewrite Hfirst in Hin. destruct Hin as [<- | Hin]; [now left |].
      right. rewrite Hfirst in Ha.
      inversion Ha; subst; try (now destruct Hin);
        destruct Hin as [<- | Hin]; try (now destruct Hin); eauto 6.
Qed.

(** Every topic listing the request obtained belongs to a listed forum
    that is not excluded, and all its topics are in that forum's counts. *)
Lemma forums_run_listing since_hours forums_in fds evs srs ers :
  forums_run since_hours forums_in fds evs srs ers ->
  forall fid r,
    In (EvGroupTopics fid r) evs ->
    exists forum topics,
      r = Ret topics
      /\ In forum forums_in /\ item_id forum = fid
      /\ is_excluded_group (item_name forum) = false
      /\ In (mkForumData (item_name forum) (item_unread_count forum)
              (map topic_count topics)) fds.
Proof.
  induction 1 as [| forum rest fds evs srs ers Hex Hrun IH
                  | forum topics rest evs1 srs1 ers1 fds evs srs ers Hex Ht
                      Hrun IH]; intros fid r Hin.
  - destruct Hin.
  - destruct (IH fid r Hin) as (f & tps & H1 & H2 & H3 & H4 & H5).
    exists f, tps. splits; auto using in_cons.
  - destruct Hin as [Hev | Hin].
    + injection Hev as <- <-. exists forum, topics.
      splits; auto using in_eq.
    + apply in_app_or in Hin. destruct Hin as [Hin | Hin].
      * exfalso.
        destruct (topics_run_cover _ _ _ _ _ _ _ Ht) as (Hcov & _ & _).
        destruct (Hcov _ Hin)
          as (a & b & c & (t & ty & _ & _ & Ha & _) & Hi).
        destruct (attempt_run_calls _ _ _ _ _ _ _ _ _ Ha Hi)
          as [(r0 & Hev) | (m & mt & p & r0 & Hev)]; discriminate Hev.
      * destruct (IH fid r Hin) as (f & tps & H1 & H2 & H3 & H4 & H5).
        exists f, tps. splits; auto using in_cons.
Qed.

Lemma digest_run_listing since_hours unread d evs :
  digest_run since_hours unread d evs ->
  forall fid r,
    In (EvGroupTopics fid r) evs ->
    exists forum topics,
      r = Ret topics
      /\ In forum (supergroups unread) /\ item_id forum = fid
      /\ is_excluded_group (item_name forum) = false
      /\ In (mkForumData (item_name forum) (item_unread_count forum)
              (map topic_count topics)) (mc_forums (message_counts d)).
Proof.
  intros [fds evsF srsF ersF evsG srsG ersG HF HG] fid r Hin.
  cbn [message_counts mc_forums].
  apply in_app_or in Hin. destruct Hin as [Hin | Hin].
  - eapply forums_run_listing; eauto.
  - exfalso.
    destruct (groups_run_cover _ _ _ _ _ HG) as (Hcov & _ & _).
    destruct (Hcov _ Hin) as (a & b & c & (g & ty & _ & _ & Ha & _) & Hi).
    destruct (attempt_run_calls _ _ _ _ _ _ _ _ _ Ha Hi)
      as [(r0 & Hev) | (m & mt & p & r0 & Hev)]; discriminate Hev.
Qed.

(** ** Claims about the configuration resolver *)

(** C4 (amended). Topic-policy resolution is decided by the first entry of
    the conversation's name that has a matching topic or a default style,
    not by the first entry of that name.  Let [group] be a configuration
    entry whose name equals [group_name] up to case, such that every earlier
    entry with such a name has neither a topic named [topic_name] up to case
    nor a default style (with one entry per conversation there is no such
    earlier entry).  If [topic] is the first topic of [group] named [topic_name] up
    to case, [get_topic_config] returns [topic].  If [group] has no such
    topic but defines a default style, it returns the synthesized policy
    with the requested topic name, that default style and threshold 1.
    If no entry named [group_name] up to case has a matching topic or a
    default style, it returns none. *)
Theorem get_topic_config_resolution (group_name topic_name : string) :
  (forall before group after tbefore topic tafter,
     config_groups = before ++ group :: after ->
     (forall g, In g before ->
        lower (gc_name g) = lower group_name ->
        (forall t, In t (dict_get (gc_topics g) []) ->
           lower (tc_name t) <> lower topic_name)
        /\ gc_default_type g = None) ->
     lower (gc_name group) = lower group_name ->
     dict_get (gc_topics group) [] = tbefore ++ topic :: tafter ->
     (forall t, In t tbefore -> lower (tc_name t) <> lower topic_name) ->
     lower (tc_name topic) = lower topic_name ->
     get_topic_config group_name topic_name = Some topic)
  /\ (forall before group after default_type,
        config_groups = before ++ group :: after ->
        (forall g, In g before ->
           lower (gc_name g) = lower group_name ->
           (forall t, In t (dict_get (gc_topics g) []) ->
              lower (tc_name t) <> lower topic_name)
           /\ gc_default_type g = None) ->
        lower (gc_name group) = lower group_name ->
        (forall t, In t (dict_get (gc_topics group) []) ->
           lower (tc_name t) <> lower topic_name) ->
        gc_default_type group = Some default_type ->
        get_topic_config group_name topic_name
        = Some (mkTopicConfig topic_name (Some default_type) (Some 1)))
  /\ ((forall g, In g config_groups ->
         lower (gc_name g) = lower group_name ->
         (forall t, In t (dict_get (gc_topics g) []) ->
            lower (tc_name t) <> lower topic_name)
         /\ gc_default_type g = None) ->
      get_topic_config group_name topic_name = None).
Proof.
  assert (Hskip : forall before rest,
             (forall g, In g before ->
                lower (gc_name g) = lower group_name ->
                (forall t, In t (dict_get (gc_topics g) []) ->
                   lower (tc_name t) <> lower topic_name)
                /\ gc_default_type g = None) ->
             get_topic_config_in (before ++ rest) group_name topic_name
             = get_topic_config_in rest group_name topic_name).
  { intros before rest H. apply get_topic_config_in_skip.
    intros g Hin Hg. destruct (H g Hin Hg) as (Ht & Hd).
    split; [now apply find_topic_none | exact Hd]. }
  unfold get_topic_config. splits.
  - intros before group after tbefore topic tafter Hcfg Hb Hg Htop Htb Ht.
    rewrite Hcfg, Hskip by exact Hb. cbn [get_topic_config_in].
    apply same_name_true in Hg. rewrite Hg.
    assert (Hf : find_topic group topic_name = Some topic).
    { apply find_topic_some. exists tbefore, tafter. auto. }
    now rewrite Hf.
  - intros before group after default_type Hcfg Hb Hg Hno Hd.
    rewrite Hcfg, Hskip by exact Hb. cbn [get_topic_config_in].
    apply same_name_true in Hg. rewrite Hg.
    apply find_topic_none in Hno. now rewrite Hno, Hd.
  - intros Hall.
    rewrite <- (app_nil_r config_groups), Hskip by exact Hall. reflexivity.
Qed.

(** C5 (amended). Group-policy resolution returns the first configuration
    entry whose name equals [group_name] up to case and that carries a direct
    style, whether or not that entry also carries a topic list; it returns
    none when no entry named [group_name] up to case carries a direct style,
    in particular when every such entry carries only a topic list. *)
Theorem get_group_config_resolution (group_name : string) :
  (forall before group after,
     config_groups = before ++ group :: after ->
     (forall g, In g before ->
        lower (gc_name g) = lower group_name -> gc_type g = None) ->
     lower (gc_name group) = lower group_name ->
     gc_type group <> None ->
     get_group_config group_name = Some group)
  /\ ((forall g, In g config_groups ->
         lower (gc_name g) = lower group_name -> gc_type g = None) ->
      get_group_config group_name = None)
  /\ (forall group,
        get_group_config group_name = Some group ->
        In group config_groups
        /\ lower (gc_name group) = lower group_name
        /\ gc_type group <> None).
Proof.
  unfold get_group_config. splits.
  - intros before group after Hcfg Hb Hg Hty.
    rewrite Hcfg, get_group_config_in_skip by exact Hb.
    cbn [get_group_config_in]. apply same_name_true in Hg. rewrite Hg.
    destruct (gc_type group); [reflexivity | contradiction].
  - intros Hall.
    rewrite <- (app_nil_r config_groups), get_group_config_in_skip
      by exact Hall.
    reflexivity.
  - intros group H. apply get_group_config_in_some in H.
    destruct H as (b & a & Hgs & Hm & Hty & _). splits; auto.
    rewrite Hgs. apply in_or_app. right. now left.
Qed.

(** ** Claims about the summariser *)

(** C8. With style "skip" the summariser returns [None] (not a string) for
    every message list, and with any other style and an empty message list
    it returns the fixed placeholder of the style's template; in both cases
    the state, and with it the log of generation calls, is unchanged. *)
Theorem summarise_short_circuits (messages : list Message)
    (topic_name summary_type : string) (st : St) :
  summarise messages topic_name "skip" st = (st, Ret None)
  /\ summarise_technical [] topic_name st
     = (st, Ret "No messages to summarise.")
  /\ summarise_memes [] topic_name st = (st, Ret "No memes to report.")
  /\ summarise_logistics [] topic_name st
     = (st, Ret "No messages to summarise.")
  /\ summarise_invites [] topic_name st = (st, Ret "No invites to report.")
  /\ (summary_type <> "skip" ->
      summarise [] topic_name summary_type st
      = (st,
         Ret (Some (if String.eqb summary_type "memes"
                    then "No memes to report."
                    else if String.eqb summary_type "invites"
                    then "No invites to report."
                    else "No messages to summarise.")))).
Proof.
  splits; try reflexivity.
  intros Hskip. unfold summarise.
  destruct (String.eqb_spec summary_type "skip") as [E | _]; [contradiction |].
  destruct (String.eqb_spec summary_type "technical") as [-> | _];
    [reflexivity |].
  destruct (String.eqb_spec summary_type "memes") as [-> | _];
    [reflexivity |].
  destruct (String.eqb_spec summary_type "logistics") as [-> | _];
    [reflexivity |].
  destruct (String.eqb_spec summary_type "invites") as [-> | _];
    reflexivity.
Qed.

(** ** One iteration, case by case *)

Section Iterations.

Variable client : TelegramDigestClient World.

Variable oracle : World -> World * outcome (list Message).
Variable fetch_ev : outcome (list Message) -> Event.
Variables label summary_type group topic where_ : string.

Lemma attempt_fetch_raised (st : St) (w1 : World) (e : Exn) :
  oracle (world st) = (w1, Raise e) ->
  fetch_and_summarise (external oracle fetch_ev) label summary_type
    group topic where_ st
  = (mkSt w1 (calls st ++ [fetch_ev (Raise e)]) (st_summaries st)
       (st_errors st ++ [error_message where_ e]),
     Ret tt).
Proof.
  intros H. unfold fetch_and_summarise, try_except, bind.
  rewrite external_run, H. cbn [fst snd].
  rewrite append_error_run. unfold extend. cbn. now rewrite ?app_nil_r.
Qed.

Lemma attempt_empty_window (st : St) (w1 : World) :
  oracle (world st) = (w1, Ret []) ->
  fetch_and_summarise (external oracle fetch_ev) label summary_type
    group topic where_ st
  = (mkSt w1 (calls st ++ [fetch_ev (Ret [])]) (st_summaries st)
       (st_errors st),
     Ret tt).
Proof.
  intros H. unfold fetch_and_summarise, try_except, bind.
  rewrite external_run, H. cbn. unfold extend. now rewrite ?app_nil_r.
Qed.

Lemma attempt_generation (st : St) (w1 : World) (messages : list Message)
    (model : string) (max_tokens : Z) (prompt : string) :
  messages <> [] ->
  oracle (world st) = (w1, Ret messages) ->
  (forall st1,
     summarise messages label summary_type st1
     = (extend st1 (fst (messages_create (world st1) model max_tokens prompt))
          [EvCreate model max_tokens prompt
             (snd (messages_create (world st1) model max_tokens prompt))]
          [] [],
        lift_text (snd (messages_create (world st1) model max_tokens prompt)))) ->
  (forall w2 text,
     messages_create w1 model max_tokens prompt = (w2, Ret text) ->
     text <> EmptyString ->
     fetch_and_summarise (external oracle fetch_ev) label summary_type
       group topic where_ st
     = (mkSt w2
          (calls st ++ [fetch_ev (Ret messages);
                        EvCreate model max_tokens prompt (Ret text)])
          (st_summaries st
             ++ [mkSummary group topic summary_type (len messages) text])
          (st_errors st),
        Ret tt))
  /\ (forall w2,
        messages_create w1 model max_tokens prompt = (w2, Ret EmptyString) ->
        fetch_and_summarise (external oracle fetch_ev) label summary_type
          group topic where_ st
        = (mkSt w2
             (calls st ++ [fetch_ev (Ret messages);
                           EvCreate model max_tokens prompt (Ret EmptyString)])
             (st_summaries st) (st_errors st),
           Ret tt))
  /\ (forall w2 e,
        messages_create w1 model max_tokens prompt = (w2, Raise e) ->
        fetch_and_summarise (external oracle fetch_ev) label summary_type
          group topic where_ st
        = (mkSt w2
             (calls st ++ [fetch_ev (Ret messages);
                           EvCreate model max_tokens prompt (Raise e)])
             (st_summaries st)
             (st_errors st ++ [error_message where_ e]),
           Ret tt)).
Proof.
  intros Hne Ho Hs.
  assert (Hstep : fetch_and_summarise (external oracle fetch_ev) label
                    summary_type group topic where_ st
                  = match messages_create w1 model max_tokens prompt with
                    | (w2, Ret text) =>
                        if str_truthy text then
                          (mkSt w2
                             (calls st ++ [fetch_ev (Ret messages);
                                EvCreate model max_tokens prompt (Ret text)])
                             (st_summaries st
                                ++ [mkSummary group topic summary_type
                                      (len messages) text])
                             (st_errors st), Ret tt)
                        else
                          (mkSt w2
                             (calls st ++ [fetch_ev (Ret messages);
                                EvCreate model max_tokens prompt (Ret text)])
                             (st_summaries st) (st_errors st), Ret tt)
                    | (w2, Raise e) =>
                        (mkSt w2
                           (calls st ++ [fetch_ev (Ret messages);
                              EvCreate model max_tokens prompt (Raise e)])
                           (st_summaries st)
                           (st_errors st ++ [error_message where_ e]), Ret tt)
                    end).
  { unfold fetch_and_summarise, try_except, bind.
    rewrite external_run, Ho. cbn [fst snd].
    destruct messages as [| m ms]; [contradiction |]. cbn [list_truthy].
    rewrite Hs. cbn [world extend].
    destruct (messages_create w1 model max_tokens prompt) as [w2 [text | e]];
      cbn [fst snd lift_text].
    - destruct (str_truthy text).
      + rewrite append_summary_run. unfold extend. cbn.
        now rewrite ?app_nil_r, <- ?app_assoc.
      + unfold ret, extend. cbn. now rewrite ?app_nil_r, <- ?app_assoc.
    - rewrite append_error_run. unfold extend. cbn.
      now rewrite ?app_nil_r, <- ?app_assoc. }
  splits.
  - intros w2 text Hc Ht. rewrite Hstep, Hc.
    apply str_truthy_true in Ht. now rewrite Ht.
  - intros w2 Hc. rewrite Hstep, Hc. reflexivity.
  - intros w2 e Hc. rewrite Hstep, Hc. reflexivity.
Qed.

End Iterations.

Lemma topic_body_eligible (client : TelegramDigestClient World)
    (since_hours : Z) (forum_name : string) (forum_id : Z)
    (forum_topics : list CountEntry) (topic : Topic) (ty : string) (st : St) :
  topic_eligible forum_name topic ty ->
  topic_body client since_hours forum_name forum_id forum_topics topic st
  = (fst (fetch_and_summarise
            (external
               (fun w => get_topic_messages client w forum_id
                           (topic_id topic) 100 since_hours)
               (EvTopicMessages forum_id (topic_id topic) 100 since_hours))
            (topic_title topic) ty forum_name (topic_title topic)
            (forum_name ++ "/" ++ topic_title topic)%string st),
     Ret (forum_topics ++ [topic_count topic])).
Proof.
  intros (Hc & p & Hp & -> & Hskip & Hthr). unfold topic_body.
  rewrite Hc, Hp. cbn [negb].
  apply String.eqb_neq in Hskip. rewrite Hskip.
  apply Z.ltb_ge in Hthr. rewrite Hthr.
  apply String.eqb_neq in Hskip.
  destruct (fetch_and_summarise_sound
              (fun w => get_topic_messages client w forum_id (topic_id topic)
                          100 since_hours)
              (EvTopicMessages forum_id (topic_id topic) 100 since_hours)
              (topic_title topic)
              (dict_get (tc_type p) "skip") forum_name (topic_title topic)
              (forum_name ++ "/" ++ topic_title topic)%string st Hskip)
    as (w & evs & srs & ers & Hrun & _).
  unfold bind, call_get_topic_messages. rewrite Hrun. reflexivity.
Qed.

Lemma topic_body_not_eligible (client : TelegramDigestClient World)
    (since_hours : Z) (forum_name : string) (forum_id : Z)
    (forum_topics : list CountEntry) (topic : Topic) (st : St) :
  (forall ty, ~ topic_eligible forum_name topic ty) ->
  topic_body client since_hours forum_name forum_id forum_topics topic st
  = (st, Ret (forum_topics ++ [topic_count topic])).
Proof.
  intros Hne.
  destruct (topic_body_sound client since_hours forum_name forum_id
              forum_topics topic st)
    as [[_ H] | (ty & _ & _ & _ & _ & He & _)]; [exact H |].
  now apply Hne in He.
Qed.

Lemma group_body_eligible (client : TelegramDigestClient World)
    (since_hours : Z) (group : Item) (ty : string) (st : St) :
  group_eligible group ty ->
  group_body client since_hours tt group st
  = fetch_and_summarise
      (external
         (fun w => get_chat_messages client w (item_id group) 100 since_hours)
         (EvChatMessages (item_id group) 100 since_hours))
      (item_name group) ty (item_name group) "(all)" (item_name group) st.
Proof.
  intros (Hex & p & Hp & -> & Hskip & Hthr). unfold group_body.
  rewrite Hex, Hp.
  apply String.eqb_neq in Hskip. rewrite Hskip.
  apply Z.ltb_ge in Hthr. rewrite Hthr. reflexivity.
Qed.

Lemma group_body_not_eligible (client : TelegramDigestClient World)
    (since_hours : Z) (group : Item) (st : St) :
  (forall ty, ~ group_eligible group ty) ->
  group_body client since_hours tt group st = (st, Ret tt).
Proof.
  intros Hne.
  destruct (group_body_sound client since_hours group st)
    as [[_ H] | (ty & _ & _ & _ & _ & He & _)]; [exact H |].
  now apply Hne in He.
Qed.

(** An unrecognised style is routed to [summarise_logistics]. *)
Lemma summarise_unknown_style (messages : list Message)
    (topic_name summary_type : string) (st : St) :
  ~ In summary_type ["technical"; "memes"; "logistics"; "invites"; "skip"] ->
  messages <> [] ->
  summarise messages topic_name summary_type st
  = (extend st
       (fst (messages_create (world st) MODEL 800
               (logistics_prompt (format_messages_for_prompt messages)
                  topic_name)))
       [EvCreate MODEL 800
          (logistics_prompt (format_messages_for_prompt messages) topic_name)
          (snd (messages_create (world st) MODEL 800
                  (logistics_prompt (format_messages_for_prompt messages)
                     topic_name)))] [] [],
     lift_text
       (snd (messages_create (world st) MODEL 800
               (logistics_prompt (format_messages_for_prompt messages)
                  topic_name)))).
Proof.
  intros Hty Hne. unfold summarise.
  destruct (String.eqb_spec summary_type "skip") as [-> | _];
    [exfalso; apply Hty; cbn; tauto |].
  destruct (String.eqb_spec summary_type "technical") as [-> | _];
    [exfalso; apply Hty; cbn; tauto |].
  destruct (String.eqb_spec summary_type "memes") as [-> | _];
    [exfalso; apply Hty; cbn; tauto |].
  destruct (String.eqb_spec summary_type "logistics") as [-> | _];
    [exfalso; apply Hty; cbn; tauto |].
  destruct (String.eqb_spec summary_type "invites") as [-> | _];
    [exfalso; apply Hty; cbn; tauto |].
  apply bind_some_run. unfold summarise_logistics.
  destruct messages; [contradiction |]. cbn [list_truthy negb].
  apply create_run.
Qed.

(** ** Claims about the digest assembler *)

Lemma Forall2_In_r {A B : Type} (R : A -> B -> Prop) (l : list A)
    (l' : list B) (y : B) :
  Forall2 R l l' -> In y l' -> exists x, In x l /\ R x y.
Proof.
  induction 1 as [| x y0 l l' HR HF IH]; intros Hin; [destruct Hin |].
  destruct Hin as [<- | Hin].
  - exists x. split; [now left | exact HR].
  - destruct (IH Hin) as (x' & Hx & HRx). exists x'. split; [now right | auto].
Qed.

Lemma get_digest_run (tg_client : option (TelegramDigestClient World))
    (since_hours : Z) (st st' : St) (d : DigestResponse) :
  get_digest tg_client since_hours st = (st', Ret d) ->
  exists client w1 unread evs,
    tg_client = Some client
    /\ get_unread_summary client (world st) = (w1, Ret unread)
    /\ new_calls st st' = EvUnreadSummary (Ret unread) :: evs
    /\ digest_run since_hours unread d evs.
Proof.
  intros H. apply get_digest_sound in H.
  destruct H as (client & w1 & unread & evs & Htg & Hu & Hc & _ & _ & Hrun).
  exists client, w1, unread, evs. splits; auto.
  unfold new_calls. rewrite Hc, skipn_app, skipn_all, Nat.sub_diag.
  reflexivity.
Qed.

(** C1. A conversation whose name equals, up to case, a name of the global
    exclusion list has no entry in the group counts, no entry in the forum
    counts and no summary record, in every digest the assembler returns,
    for every configuration and every conversation source. *)
Theorem excluded_conversation_never_appears
    (tg_client : option (TelegramDigestClient World)) (since_hours : Z)
    (st st' : St) (d : DigestResponse) (excluded_name name : string) :
  get_digest tg_client since_hours st = (st', Ret d) ->
  In excluded_name (dict_get (cfg_excluded_groups CONFIG) []) ->
  lower excluded_name = lower name ->
  (forall e, In e (mc_groups (message_counts d)) -> ce_name e <> name)
  /\ (forall fd, In fd (mc_forums (message_counts d)) -> fd_name fd <> name)
  /\ (forall r, In r (summaries d) -> sr_group r <> name).
Proof.
  intros Hd Hin Hlow.
  assert (Hex : is_excluded_group name = true).
  { apply is_excluded_group_spec. eauto. }
  destruct (get_digest_run _ _ _ _ _ Hd)
    as (client & w1 & unread & evs & _ & _ & _ & Hrun).
  destruct (digest_run_counts _ _ _ _ Hrun) as (_ & Hg & Hf).
  splits.
  - intros e He Hname. rewrite Hg in He. apply in_map_iff in He.
    destruct He as (g & <- & Hgin). apply filter_In in Hgin.
    destruct Hgin as (_ & Hne). cbn [count_entry ce_name] in Hname.
    rewrite Hname, Hex in Hne. discriminate.
  - intros fd Hfd Hname.
    destruct (Forall2_In_r _ _ _ _ Hf Hfd) as (forum & Hfin & topics & _ & ->).
    apply filter_In in Hfin. destruct Hfin as (_ & Hne).
    cbn [fd_name] in Hname. rewrite Hname, Hex in Hne. discriminate.
  - intros r Hr Hname.
    destruct (digest_run_summary _ _ _ _ Hrun r Hr)
      as (_ & _ & _ & _ & _ & _ & _ & _
          & [(forum & topics & topic & _ & Hne & _ & _ & _ & Hgrp & _)
            | (group & _ & (Hne & _) & Hgrp & _)]);
      rewrite <- Hgrp, Hname, Hex in Hne; discriminate.
Qed.

(** C2. Processing one forum topic always adds the topic's name and unread
    count to the forum's topic list and never raises.  It leaves the call
    log, the summaries and the errors untouched unless the forum is
    configured, a policy is resolved, the resolved style is not "skip" and
    the unread count is at least the resolved threshold; in particular a
    topic below its resolved threshold causes no fetch, no generation call
    and no summary record.  In a whole request, every topic-message fetch is
    made for such an eligible topic of a listed forum, every summary record
    of a forum names an eligible topic of that forum's listing, and every
    topic of every topic listing the source returned appears with its name
    and unread count in the topic list of its forum's entry.  Such a listing
    is requested for every listed forum that is not excluded: the digest
    holds an entry for that forum with the name and unread count of every
    topic the source returned for it, eligible or not. *)
Theorem topic_summarised_only_when_eligible :
  (forall (client : TelegramDigestClient World) (since_hours : Z)
          (forum_name : string) (forum_id : Z)
          (forum_topics : list CountEntry) (topic : Topic) (st : St),
     exists st',
       topic_body client since_hours forum_name forum_id forum_topics topic st
       = (st',
          Ret (forum_topics
                 ++ [mkCount (topic_title topic)
                       (dict_get (topic_unread_count topic) 0)]))
       /\ (st' = st
           \/ (is_configured_group forum_name = true
               /\ exists topic_config,
                    get_topic_config forum_name (topic_title topic)
                    = Some topic_config
                    /\ dict_get (tc_type topic_config) "skip" <> "skip"
                    /\ dict_get (tc_threshold topic_config) 1
                       <= dict_get (topic_unread_count topic) 0))
       /\ (forall topic_config,
             get_topic_config forum_name (topic_title topic)
             = Some topic_config ->
             dict_get (topic_unread_count topic) 0
             < dict_get (tc_threshold topic_config) 1 ->
             st' = st))
  /\ (forall (tg_client : option (TelegramDigestClient World))
             (since_hours : Z) (st st' : St) (d : DigestResponse),
        get_digest tg_client since_hours st = (st', Ret d) ->
        exists unread evs,
          new_calls st st' = EvUnreadSummary (Ret unread) :: evs
          /\ (forall fid tid limit since r,
                In (EvTopicMessages fid tid limit since r) evs ->
                exists forum topics topic ty,
                  In forum (supergroups unread)
                  /\ In (EvGroupTopics (item_id forum) (Ret topics)) evs
                  /\ In topic topics
                  /\ fid = item_id forum /\ tid = topic_id topic
                  /\ topic_eligible (item_name forum) topic ty)
          /\ (forall r, In r (summaries d) ->
                (exists forum topics topic,
                   In forum (supergroups unread)
                   /\ In (EvGroupTopics (item_id forum) (Ret topics)) evs
                   /\ In topic topics
                   /\ sr_group r = item_name forum
                   /\ sr_topic r = topic_title topic
                   /\ topic_eligible (item_name forum) topic (sr_type r))
                \/ (exists group,
                      In group (groups unread)
                      /\ sr_group r = item_name group
                      /\ sr_topic r = "(all)"
                      /\ group_eligible group (sr_type r)))
          /\ (forall fid topics,
                In (EvGroupTopics fid (Ret topics)) evs ->
                exists forum,
                  In forum (supergroups unread) /\ item_id forum = fid
                  /\ In (mkForumData (item_name forum)
                          (item_unread_count forum)
                          (map (fun topic =>
                                  mkCount (topic_title topic)
                                    (dict_get (topic_unread_count topic) 0))
                               topics))
                       (mc_forums (message_counts d)))
          /\ (forall forum,
                In forum (supergroups unread) ->
                is_excluded_group (item_name forum) = false ->
                exists topics,
                  In (EvGroupTopics (item_id forum) (Ret topics)) evs
                  /\ In (mkForumData (item_name forum)
                          (item_unread_count forum)
                          (map (fun topic =>
                                  mkCount (topic_title topic)
                                    (dict_get (topic_unread_count topic) 0))
                               topics))
                       (mc_forums (message_counts d)))).
Proof.
  split.
  - intros client since_hours forum_name forum_id forum_topics topic st.
    destruct (topic_body_sound client since_hours forum_name forum_id
                forum_topics topic st)
      as [[Hne Hb] | (ty & w & evs & srs & ers & He & Hb & _)].
    + exists st. splits; auto.
    + eexists. splits; [exact Hb | |].
      * right. destruct He as (Hc & p & Hp & -> & Hs & Ht). eauto 6.
      * intros p Hp Hlt. destruct He as (_ & p' & Hp' & _ & _ & Ht).
        rewrite Hp in Hp'. injection Hp' as <-. lia.
  - intros tg_client since_hours st st' d Hd.
    destruct (get_digest_run _ _ _ _ _ Hd)
      as (client & w1 & unread & evs & _ & _ & Hnew & Hrun).
    exists unread, evs. splits; auto.
    + intros fid tid limit since r Hin.
      destruct (digest_run_call _ _ _ _ Hrun _ Hin)
        as [(forum & topics & _ & _ & Hev)
           | [(forum & topics & topic & ty & r0 & Hf & _ & Hgt & Ht & He & _
               & [Hev | (m & mt & p & r' & Hev)])
             | (group & ty & r0 & _ & _ & _
                & [Hev | (m & mt & p & r' & Hev)])]];
        try discriminate.
      injection Hev as -> -> _ _ _.
      exists forum, topics, topic, ty. splits; auto.
    + intros r Hr.
      destruct (digest_run_summary _ _ _ _ Hrun r Hr)
        as (_ & _ & _ & _ & _ & _ & _ & _
            & [(forum & topics & topic & Hf & _ & Hgt & Ht & He & Hg & Hn & _)
              | (group & Hg & He & Hn & Ha & _)]).
      * left. exists forum, topics, topic. splits; auto.
      * right. exists group. splits; auto.
    + intros fid topics Hin.
      destruct (digest_run_listing _ _ _ _ Hrun _ _ Hin)
        as (forum & tps & Hr & Hf & Hid & _ & Hfd).
      injection Hr as <-. exists forum. splits; auto.
    + intros forum Hin Hnex.
      destruct (digest_run_complete _ _ _ _ Hrun) as (Hforums & _).
      destruct (Hforums forum Hin Hnex) as (topics & Hev & Hfd & _).
      exists topics. split; [exact Hev | exact Hfd].
Qed.

(** C3 (amended). For a listed conversation whose name matches no group
    entry of the configuration and is not in the global exclusion list, the
    digest reports its unread count (a group count entry; for a forum, the
    forum entry with the counts of all its topics).  For every conversation
    whose name matches no group entry, excluded or not: no summary record
    references it, every message fetch of a request is made with the
    identifier of a listed conversation that has a group entry, every
    generation call follows such a fetch, and the loop bodies run on a
    conversation without a group entry make no call and append nothing. *)
Theorem unconfigured_conversation_counts_only :
  (forall (tg_client : option (TelegramDigestClient World))
          (since_hours : Z) (st st' : St) (d : DigestResponse),
     get_digest tg_client since_hours st = (st', Ret d) ->
     exists unread evs,
       new_calls st st' = EvUnreadSummary (Ret unread) :: evs
       /\ (forall group,
             In group (groups unread) ->
             is_configured_group (item_name group) = false ->
             is_excluded_group (item_name group) = false ->
             In (mkCount (item_name group) (item_unread_count group))
                (mc_groups (message_counts d)))
       /\ (forall forum,
             In forum (supergroups unread) ->
             is_configured_group (item_name forum) = false ->
             is_excluded_group (item_name forum) = false ->
             exists topics,
               In (EvGroupTopics (item_id forum) (Ret topics)) evs
               /\ In (mkForumData (item_name forum) (item_unread_count forum)
                       (map topic_count topics))
                    (mc_forums (message_counts d)))
       /\ (forall r, In r (summaries d) ->
             is_configured_group (sr_group r) = true)
       /\ (forall fid tid limit since r,
             In (EvTopicMessages fid tid limit since r) evs ->
             exists forum,
               In forum (supergroups unread) /\ item_id forum = fid
               /\ is_configured_group (item_name forum) = true)
       /\ (forall gid limit since r,
             In (EvChatMessages gid limit since r) evs ->
             exists group,
               In group (groups unread) /\ item_id group = gid
               /\ is_configured_group (item_name group) = true)
       /\ (forall model max_tokens prompt r,
             In (EvCreate model max_tokens prompt r) evs ->
             (exists forum tid r',
                In forum (supergroups unread)
                /\ is_configured_group (item_name forum) = true
                /\ In (EvTopicMessages (item_id forum) tid 100 since_hours r')
                     evs)
             \/ (exists group r',
                   In group (groups unread)
                   /\ is_configured_group (item_name group) = true
                   /\ In (EvChatMessages (item_id group) 100 since_hours r')
                        evs)))
  /\ (forall (client : TelegramDigestClient World) (since_hours : Z)
             (forum_name : string) (forum_id : Z)
             (forum_topics : list CountEntry) (topic : Topic) (st : St),
        is_configured_group forum_name = false ->
        topic_body client since_hours forum_name forum_id forum_topics topic
          st
        = (st, Ret (forum_topics ++ [topic_count topic])))
  /\ (forall (client : TelegramDigestClient World) (since_hours : Z)
             (group : Item) (st : St),
        is_configured_group (item_name group) = false ->
        group_body client since_hours tt group st = (st, Ret tt)).
Proof.
  splits.
  - intros tg_client since_hours st st' d Hd.
    destruct (get_digest_run _ _ _ _ _ Hd)
      as (client & w1 & unread & evs & _ & _ & Hnew & Hrun).
    destruct (digest_run_counts _ _ _ _ Hrun) as (_ & Hg & _).
    destruct (digest_run_complete _ _ _ _ Hrun) as (Hc & _).
    exists unread, evs. splits; auto.
    + intros group Hin _ Hex. rewrite Hg.
      change (mkCount (item_name group) (item_unread_count group))
        with (count_entry group).
      apply in_map, filter_In. split; [exact Hin | now rewrite Hex].
    + intros forum Hin _ Hex.
      destruct (Hc forum Hin Hex) as (topics & H1 & H2 & _). eauto.
    + intros r Hr.
      destruct (digest_run_summary _ _ _ _ Hrun r Hr)
        as (_ & _ & _ & _ & _ & _ & _ & _
            & [(forum & topics & topic & _ & _ & _ & _ & (Hcf & _) & -> & _)
              | (group & _ & He & -> & _)]);
        eauto using group_eligible_configured.
    + intros fid tid limit since r Hin.
      destruct (digest_run_call _ _ _ _ Hrun _ Hin)
        as [(forum & topics & _ & _ & Hev)
           | [(forum & topics & topic & ty & r0 & Hf & _ & _ & _ & (Hcf & _)
               & _ & [Hev | (m & mt & p & r' & Hev)])
             | (group & ty & r0 & _ & _ & _
                & [Hev | (m & mt & p & r' & Hev)])]];
        try discriminate.
      injection Hev as -> _ _ _ _. eauto.
    + intros gid limit since r Hin.
      destruct (digest_run_call _ _ _ _ Hrun _ Hin)
        as [(forum & topics & _ & _ & Hev)
           | [(forum & topics & topic & ty & r0 & _ & _ & _ & _ & _
               & _ & [Hev | (m & mt & p & r' & Hev)])
             | (group & ty & r0 & Hgin & He & _
                & [Hev | (m & mt & p & r' & Hev)])]];
        try discriminate.
      injection Hev as -> _ _ _. eauto using group_eligible_configured.
    + intros model max_tokens prompt r Hin.
      destruct (digest_run_call _ _ _ _ Hrun _ Hin)
        as [(forum & topics & _ & _ & Hev)
           | [(forum & topics & topic & ty & r0 & Hf & _ & _ & _ & (Hcf & _)
               & Hfetch & _)
             | (group & ty & r0 & Hgin & He & Hfetch & _)]];
        try discriminate.
      * left. eauto 6.
      * right. eauto 6 using group_eligible_configured.
  - intros client since_hours forum_name forum_id forum_topics topic st Hc.
    apply topic_body_not_eligible. intros ty (Hc' & _). congruence.
  - intros client since_hours group st Hc.
    apply group_body_not_eligible. intros ty He.
    apply group_eligible_configured in He. congruence.
Qed.

(** C9. With the direct-message visibility flag set to false the digest's
    list of direct-message counts is empty, whatever the source lists.  The
    assembler never attempts a summary for a direct message: replacing the
    direct messages of the listing by any others changes neither the calls
    made, nor the summaries, the errors, the group counts or the forum
    counts. *)
Theorem direct_messages_hidden_and_never_summarised :
  (forall (tg_client : option (TelegramDigestClient World))
          (since_hours : Z) (st st' : St) (d : DigestResponse),
     cfg_show_dm_counts CONFIG = Some false ->
     get_digest tg_client since_hours st = (st', Ret d) ->
     mc_dms (message_counts d) = [])
  /\ (forall (client : TelegramDigestClient World) (since_hours : Z)
             (unread : Unread) (other_dms : list Item) (st : St),
        let run := assemble client since_hours unread st in
        let run' :=
          assemble client since_hours
            (mkUnread other_dms (groups unread) (supergroups unread)) st in
        fst run' = fst run
        /\ match snd run, snd run' with
           | Ret d, Ret d' =>
               summaries d' = summaries d /\ errors d' = errors d
               /\ mc_groups (message_counts d') = mc_groups (message_counts d)
               /\ mc_forums (message_counts d') = mc_forums (message_counts d)
           | Raise e, Raise e' => e' = e
           | _, _ => False
           end).
Proof.
  split.
  - intros tg_client since_hours st st' d Hflag Hd.
    destruct (get_digest_run _ _ _ _ _ Hd)
      as (client & w1 & unread & evs & _ & _ & _ & Hrun).
    destruct (digest_run_counts _ _ _ _ Hrun) as (Hdm & _).
    rewrite Hdm, Hflag. reflexivity.
  - intros client since_hours unread other_dms st.
    unfold assemble, bind. cbn [groups supergroups dms].
    destruct (for_each (forum_body client since_hours) (supergroups unread)
                [] st) as [st1 [fds | e]]; cbn [fst snd]; [| auto].
    destruct (for_each (group_body client since_hours) (groups unread) tt st1)
      as [st2 [[] | e]]; cbn [fst snd]; auto.
Qed.

Lemma len_nonempty {A : Type} (xs : list A) : xs <> [] -> 1 <= len xs.
Proof. destruct xs; [contradiction | intros _; unfold len; cbn; lia]. Qed.

(** C10. An eligible topic or group whose fetched window is empty makes the
    fetch and nothing else: no generation call, no summary record, no error
    entry.  Consequently, in every digest, each summary record's
    [message_count] is the length of a window some fetch of the request
    returned and is at least 1, and its text is what a generation call of
    the request returned (not the placeholder the summariser would produce
    for an empty window). *)
Theorem empty_window_appends_nothing :
  (forall (client : TelegramDigestClient World) (since_hours : Z)
          (forum_name : string) (forum_id : Z)
          (forum_topics : list CountEntry) (topic : Topic) (ty : string)
          (st : St) (w1 : World),
     topic_eligible forum_name topic ty ->
     get_topic_messages client (world st) forum_id (topic_id topic) 100
       since_hours = (w1, Ret []) ->
     topic_body client since_hours forum_name forum_id forum_topics topic st
     = (mkSt w1
          (calls st
             ++ [EvTopicMessages forum_id (topic_id topic) 100 since_hours
                   (Ret [])])
          (st_summaries st) (st_errors st),
        Ret (forum_topics ++ [topic_count topic])))
  /\ (forall (client : TelegramDigestClient World) (since_hours : Z)
             (group : Item) (ty : string) (st : St) (w1 : World),
        group_eligible group ty ->
        get_chat_messages client (world st) (item_id group) 100 since_hours
        = (w1, Ret []) ->
        group_body client since_hours tt group st
        = (mkSt w1
             (calls st
                ++ [EvChatMessages (item_id group) 100 since_hours (Ret [])])
             (st_summaries st) (st_errors st),
           Ret tt))
  /\ (forall (tg_client : option (TelegramDigestClient World))
             (since_hours : Z) (st st' : St) (d : DigestResponse),
        get_digest tg_client since_hours st = (st', Ret d) ->
        exists unread evs,
          new_calls st st' = EvUnreadSummary (Ret unread) :: evs
          /\ forall r, In r (summaries d) ->
               exists messages model max_tokens prompt,
                 ((exists fid tid,
                     In (EvTopicMessages fid tid 100 since_hours
                           (Ret messages)) evs)
                  \/ (exists gid,
                        In (EvChatMessages gid 100 since_hours
                              (Ret messages)) evs))
                 /\ sr_message_count r = len messages
                 /\ 1 <= sr_message_count r
                 /\ In (EvCreate model max_tokens prompt
                          (Ret (sr_summary r))) evs).
Proof.
  splits.
  - intros client since_hours forum_name forum_id forum_topics topic ty st w1
      He Hf.
    rewrite (topic_body_eligible _ _ _ _ _ _ _ _ He).
    rewrite (attempt_empty_window
               (fun w => get_topic_messages client w forum_id
                           (topic_id topic) 100 since_hours)
               _ _ _ _ _ _ st w1 Hf).
    reflexivity.
  - intros client since_hours group ty st w1 He Hf.
    rewrite (group_body_eligible _ _ _ _ _ He).
    apply (attempt_empty_window
             (fun w => get_chat_messages client w (item_id group) 100
                         since_hours)).
    exact Hf.
  - intros tg_client since_hours st st' d Hd.
    destruct (get_digest_run _ _ _ _ _ Hd)
      as (client & w1 & unread & evs & _ & _ & Hnew & Hrun).
    exists unread, evs. split; [exact Hnew |]. intros r Hr.
    destruct (digest_run_summary _ _ _ _ Hrun r Hr)
      as (messages & model & mt & prompt & Hne & _ & Hlen & Hc & Hsrc).
    exists messages, model, mt, prompt. splits; auto.
    + destruct Hsrc as [(forum & topics & topic & H) | (group & H)].
      * left. exists (item_id forum), (topic_id topic). tauto.
      * right. exists (item_id group). tauto.
    + rewrite Hlen. now apply len_nonempty.
Qed.

(** C7. For a style tag outside technical, memes, logistics, invites and
    skip and a non-empty message list, the summariser makes one generation
    call with the logistics prompt (model and token limit of the logistics
    template) and returns its text, exactly as for the tag "logistics".  When
    the assembler processes an eligible topic or group whose resolved style
    is such a tag and the generation returns a non-empty text, the record it
    appends carries the configured tag in its type field.  In every digest
    the type field of each record is the style of the policy resolved for
    the record's conversation (and topic). *)
Theorem unknown_style_falls_back_to_logistics
    (summary_type : string) (messages : list Message) :
  ~ In summary_type ["technical"; "memes"; "logistics"; "invites"; "skip"] ->
  messages <> [] ->
  (forall (topic_name : string) (st : St),
     let prompt :=
       logistics_prompt (format_messages_for_prompt messages) topic_name in
     let reply := messages_create (world st) MODEL 800 prompt in
     summarise messages topic_name summary_type st
     = (mkSt (fst reply) (calls st ++ [EvCreate MODEL 800 prompt (snd reply)])
          (st_summaries st) (st_errors st),
        match snd reply with
        | Ret text => Ret (Some text)
        | Raise e => Raise e
        end)
     /\ summarise messages topic_name summary_type st
        = summarise messages topic_name "logistics" st)
  /\ (forall (client : TelegramDigestClient World) (since_hours : Z)
             (forum_name : string) (forum_id : Z)
             (forum_topics : list CountEntry) (topic : Topic)
             (st : St) (w1 w2 : World) (text : string),
        topic_eligible forum_name topic summary_type ->
        get_topic_messages client (world st) forum_id (topic_id topic) 100
          since_hours = (w1, Ret messages) ->
        messages_create w1 MODEL 800
          (logistics_prompt (format_messages_for_prompt messages)
             (topic_title topic)) = (w2, Ret text) ->
        text <> EmptyString ->
        topic_body client since_hours forum_name forum_id forum_topics topic
          st
        = (mkSt w2
             (calls st
                ++ [EvTopicMessages forum_id (topic_id topic) 100 since_hours
                      (Ret messages);
                    EvCreate MODEL 800
                      (logistics_prompt (format_messages_for_prompt messages)
                         (topic_title topic)) (Ret text)])
             (st_summaries st
                ++ [mkSummary forum_name (topic_title topic) summary_type
                      (len messages) text])
             (st_errors st),
           Ret (forum_topics ++ [topic_count topic])))
  /\ (forall (client : TelegramDigestClient World) (since_hours : Z)
             (group : Item) (st : St) (w1 w2 : World) (text : string),
        group_eligible group summary_type ->
        get_chat_messages client (world st) (item_id group) 100 since_hours
        = (w1, Ret messages) ->
        messages_create w1 MODEL 800
          (logistics_prompt (format_messages_for_prompt messages)
             (item_name group)) = (w2, Ret text) ->
        text <> EmptyString ->
        group_body client since_hours tt group st
        = (mkSt w2
             (calls st
                ++ [EvChatMessages (item_id group) 100 since_hours
                      (Ret messages);
                    EvCreate MODEL 800
                      (logistics_prompt (format_messages_for_prompt messages)
                         (item_name group)) (Ret text)])
             (st_summaries st
                ++ [mkSummary (item_name group) "(all)" summary_type
                      (len messages) text])
             (st_errors st),
           Ret tt))
  /\ (forall (tg_client : option (TelegramDigestClient World))
             (since_hours : Z) (st st' : St) (d : DigestResponse),
        get_digest tg_client since_hours st = (st', Ret d) ->
        forall r, In r (summaries d) ->
          (exists topic_config,
             get_topic_config (sr_group r) (sr_topic r) = Some topic_config
             /\ sr_type r = dict_get (tc_type topic_config) "skip")
          \/ (exists group_config,
                get_group_config (sr_group r) = Some group_config
                /\ sr_topic r = "(all)"
                /\ sr_type r = dict_get (gc_type group_config) "skip")).
Proof.
  intros Hty Hne. splits.
  - intros topic_name st prompt reply. subst prompt reply. split.
    + rewrite summarise_unknown_style by assumption.
      unfold extend, lift_text. now rewrite !app_nil_r.
    + rewrite summarise_unknown_style by assumption.
      unfold summarise. cbn [String.eqb Ascii.eqb Bool.eqb].
      symmetry. apply bind_some_run. unfold summarise_logistics.
      destruct messages; [contradiction |]. cbn [list_truthy negb].
      apply create_run.
  - intros client since_hours forum_name forum_id forum_topics topic st w1 w2
      text He Hf Hc Ht.
    rewrite (topic_body_eligible _ _ _ _ _ _ _ _ He).
    destruct (attempt_generation
                (fun w => get_topic_messages client w forum_id
                            (topic_id topic) 100 since_hours)
                (EvTopicMessages forum_id (topic_id topic) 100 since_hours)
                (topic_title topic) summary_type forum_name
                (topic_title topic)
                (forum_name ++ "/" ++ topic_title topic)%string
                st w1 messages MODEL 800
                (logistics_prompt (format_messages_for_prompt messages)
                   (topic_title topic)) Hne Hf) as (Hok & _ & _).
    { intros st1. now apply summarise_unknown_style. }
    rewrite (Hok w2 text Hc Ht). reflexivity.
  - intros client since_hours group st w1 w2 text He Hf Hc Ht.
    rewrite (group_body_eligible _ _ _ _ _ He).
    destruct (attempt_generation
                (fun w => get_chat_messages client w (item_id group) 100
                            since_hours)
                (EvChatMessages (item_id group) 100 since_hours)
                (item_name group) summary_type (item_name group) "(all)"
                (item_name group)
                st w1 messages MODEL 800
                (logistics_prompt (format_messages_for_prompt messages)
                   (item_name group)) Hne Hf) as (Hok & _ & _).
    { intros st1. now apply summarise_unknown_style. }
    exact (Hok w2 text Hc Ht).
  - intros tg_client since_hours st st' d Hd r Hr.
    destruct (get_digest_run _ _ _ _ _ Hd)
      as (client & w1 & unread & evs & _ & _ & _ & Hrun).
    destruct (digest_run_summary _ _ _ _ Hrun r Hr)
      as (_ & _ & _ & _ & _ & _ & _ & _
          & [(forum & topics & topic & _ & _ & _ & _
              & (_ & p & Hp & Hst & _) & -> & -> & _)
            | (group & _ & (_ & p & Hp & Hst & _) & -> & -> & _)]).
    + left. eauto.
    + right. eauto.
Qed.

(** ** Failure isolation *)

Lemma forums_loop_total (client : TelegramDigestClient World)
    (since_hours : Z) (forums_in : list Item) :
  (forall w id, exists w' topics,
     get_group_topics client w id = (w', Ret topics)) ->
  forall (forums : list ForumData) (st : St),
  exists st' forums',
    for_each (forum_body client since_hours) forums_in forums st
    = (st', Ret forums').
Proof.
  intros Htopics. induction forums_in as [| forum rest IH]; intros acc st;
    cbn [for_each].
  - eexists. eexists. reflexivity.
  - unfold bind at 1. unfold forum_body.
    destruct (is_excluded_group (item_name forum)).
    + cbn [ret]. apply IH.
    + unfold bind at 1. unfold call_get_group_topics.
      rewrite external_run.
      destruct (Htopics (world st) (item_id forum)) as (w1 & topics & Ht).
      rewrite Ht. cbn [fst snd]. unfold bind at 1.
      destruct (topics_loop_sound client since_hours (item_name forum)
                  (item_id forum) topics []
                  (extend st w1 [EvGroupTopics (item_id forum) (Ret topics)]
                     [] []))
        as (w2 & evs1 & srs1 & ers1 & Hl & _).
      rewrite Hl. cbn [ret]. apply IH.
Qed.

Lemma get_digest_total (client : TelegramDigestClient World)
    (since_hours : Z) (st : St) (w1 : World) (unread : Unread) :
  get_unread_summary client (world st) = (w1, Ret unread) ->
  (forall w id, exists w' topics,
     get_group_topics client w id = (w', Ret topics)) ->
  exists st' d, get_digest (Some client) since_hours st = (st', Ret d).
Proof.
  intros Hu Htopics. cbn [get_digest]. unfold digest_request.
  unfold bind at 1. unfold call_get_unread_summary.
  rewrite external_run. cbn [world]. rewrite Hu. cbn [fst snd].
  unfold assemble. unfold bind at 1.
  match goal with
  | |- context [for_each (forum_body _ _) _ [] ?s] =>
      destruct (forums_loop_total client since_hours (supergroups unread)
                  Htopics [] s) as (st1 & fds & HF)
  end.
  rewrite HF. unfold bind at 1.
  destruct (groups_loop_sound client since_hours (groups unread) st1)
    as (w2 & evs & srs & ers & HG & _).
  rewrite HG. eexists. eexists. reflexivity.
Qed.

Section AttemptOutcomes.

Variable oracle : World -> World * outcome (list Message).
Variable fetch_ev : outcome (list Message) -> Event.
Variables label summary_type group topic where_ : string.

Lemma attempt_outcomes (st : St) :
  summary_type <> "skip" ->
  (forall w1 e,
     oracle (world st) = (w1, Raise e) ->
     fetch_and_summarise (external oracle fetch_ev) label summary_type
       group topic where_ st
     = (mkSt w1 (calls st ++ [fetch_ev (Raise e)]) (st_summaries st)
          (st_errors st ++ [error_message where_ e]),
        Ret tt))
  /\ (forall w1 messages,
        oracle (world st) = (w1, Ret messages) ->
        messages <> [] ->
        exists model max_tokens prompt,
          (forall w2 e,
             messages_create w1 model max_tokens prompt = (w2, Raise e) ->
             fetch_and_summarise (external oracle fetch_ev) label
               summary_type group topic where_ st
             = (mkSt w2
                  (calls st ++ [fetch_ev (Ret messages);
                                EvCreate model max_tokens prompt (Raise e)])
                  (st_summaries st)
                  (st_errors st ++ [error_message where_ e]),
                Ret tt))
          /\ (forall w2 text,
                messages_create w1 model max_tokens prompt = (w2, Ret text) ->
                text <> EmptyString ->
                fetch_and_summarise (external oracle fetch_ev) label
                  summary_type group topic where_ st
                = (mkSt w2
                     (calls st ++ [fetch_ev (Ret messages);
                                   EvCreate model max_tokens prompt
                                     (Ret text)])
                     (st_summaries st
                        ++ [mkSummary group topic summary_type
                              (len messages) text])
                     (st_errors st),
                   Ret tt))).
Proof.
  intros Hskip. split.
  - intros w1 e Ho. now apply attempt_fetch_raised.
  - intros w1 messages Ho Hne.
    destruct (summarise_nonempty messages label summary_type Hskip Hne)
      as (model & mt & prompt & Hs).
    exists model, mt, prompt.
    destruct (attempt_generation oracle fetch_ev label summary_type group
                topic where_ st w1 messages model mt prompt Hne Ho Hs)
      as (Hok & _ & Hraise).
    split; [exact Hraise | exact Hok].
Qed.

End AttemptOutcomes.

(** C6 (amended). An exception raised by the message fetch or by the
    generation call of one eligible topic or group is caught inside that
    iteration: the iteration returns normally, appends to [errors] the
    string "Error summarising <forum>/<topic>: <str(e)>" (for a group,
    "Error summarising <group>: <str(e)>") and leaves [summaries] as it
    was; an iteration whose fetch returns a non-empty window and whose
    generation returns a non-empty text appends its summary record and no
    error, whatever [errors] already holds.  A request whose listing call
    and topic-listing calls return always returns a digest; the number of
    its error entries is the number of fetches and generation calls that
    raised, each error entry names the eligible topic or group whose fetch
    or generation raised, and every eligible topic of every listed forum
    that is not excluded and every eligible group has its attempt in the
    run, in one of the five forms of [attempt_run], with its record or
    error string in the digest: a record is produced when the window and
    the generated text are non-empty, and nothing is appended when either
    is empty. *)
Theorem attempt_failure_is_isolated :
  (forall (client : TelegramDigestClient World) (since_hours : Z)
          (forum_name : string) (forum_id : Z)
          (forum_topics : list CountEntry) (topic : Topic) (ty : string)
          (st : St),
     topic_eligible forum_name topic ty ->
     (forall w1 e,
        get_topic_messages client (world st) forum_id (topic_id topic) 100
          since_hours = (w1, Raise e) ->
        topic_body client since_hours forum_name forum_id forum_topics topic
          st
        = (mkSt w1
             (calls st
                ++ [EvTopicMessages forum_id (topic_id topic) 100 since_hours
                      (Raise e)])
             (st_summaries st)
             (st_errors st
                ++ [error_message
                      (forum_name ++ "/" ++ topic_title topic)%string e]),
           Ret (forum_topics ++ [topic_count topic])))
     /\ (forall w1 messages,
           get_topic_messages client (world st) forum_id (topic_id topic) 100
             since_hours = (w1, Ret messages) ->
           messages <> [] ->
           exists model max_tokens prompt,
             (forall w2 e,
                messages_create w1 model max_tokens prompt = (w2, Raise e) ->
                topic_body client since_hours forum_name forum_id
                  forum_topics topic st
                = (mkSt w2
                     (calls st
                        ++ [EvTopicMessages forum_id (topic_id topic) 100
                              since_hours (Ret messages);
                            EvCreate model max_tokens prompt (Raise e)])
                     (st_summaries st)
                     (st_errors st
                        ++ [error_message
                              (forum_name ++ "/" ++ topic_title topic)%string
                              e]),
                   Ret (forum_topics ++ [topic_count topic])))
             /\ (forall w2 text,
                   messages_create w1 model max_tokens prompt
                   = (w2, Ret text) ->
                   text <> EmptyString ->
                   topic_body client since_hours forum_name forum_id
                     forum_topics topic st
                   = (mkSt w2
                        (calls st
                           ++ [EvTopicMessages forum_id (topic_id topic) 100
                                 since_hours (Ret messages);
                               EvCreate model max_tokens prompt (Ret text)])
                        (st_summaries st
                           ++ [mkSummary forum_name (topic_title topic) ty
                                 (len messages) text])
                        (st_errors st),
                      Ret (forum_topics ++ [topic_count topic])))))
  /\ (forall (client : TelegramDigestClient World) (since_hours : Z)
             (group : Item) (ty : string) (st : St),
        group_eligible group ty ->
        (forall w1 e,
           get_chat_messages client (world st) (item_id group) 100
             since_hours = (w1, Raise e) ->
           group_body client since_hours tt group st
           = (mkSt w1
                (calls st
                   ++ [EvChatMessages (item_id group) 100 since_hours
                         (Raise e)])
                (st_summaries st)
                (st_errors st ++ [error_message (item_name group) e]),
              Ret tt))
        /\ (forall w1 messages,
              get_chat_messages client (world st) (item_id group) 100
                since_hours = (w1, Ret messages) ->
              messages <> [] ->
              exists model max_tokens prompt,
                (forall w2 e,
                   messages_create w1 model max_tokens prompt
                   = (w2, Raise e) ->
                   group_body client since_hours tt group st
                   = (mkSt w2
                        (calls st
                           ++ [EvChatMessages (item_id group) 100 since_hours
                                 (Ret messages);
                               EvCreate model max_tokens prompt (Raise e)])
                        (st_summaries st)
                        (st_errors st ++ [error_message (item_name group) e]),
                      Ret tt))
                /\ (forall w2 text,
                      messages_create w1 model max_tokens prompt
                      = (w2, Ret text) ->
                      text <> EmptyString ->
                      group_body client since_hours tt group st
                      = (mkSt w2
                           (calls st
                              ++ [EvChatMessages (item_id group) 100
                                    since_hours (Ret messages);
                                  EvCreate model max_tokens prompt
                                    (Ret text)])
                           (st_summaries st
                              ++ [mkSummary (item_name group) "(all)" ty
                                    (len messages) text])
                           (st_errors st),
                         Ret tt))))
  /\ (forall (client : TelegramDigestClient World) (since_hours : Z)
             (st : St) (w1 : World) (unread : Unread),
        get_unread_summary client (world st) = (w1, Ret unread) ->
        (forall w id, exists w' topics,
           get_group_topics client w id = (w', Ret topics)) ->
        exists st' d evs,
          get_digest (Some client) since_hours st = (st', Ret d)
          /\ new_calls st st' = EvUnreadSummary (Ret unread) :: evs
          /\ length (errors d) = length (filter attempt_raised evs)
          /\ (forall e, In e (errors d) ->
                exists exn,
                  (exists forum topics topic ty,
                     In forum (supergroups unread)
                     /\ is_excluded_group (item_name forum) = false
                     /\ In (EvGroupTopics (item_id forum) (Ret topics)) evs
                     /\ In topic topics
                     /\ topic_eligible (item_name forum) topic ty
                     /\ e = error_message
                              (item_name forum ++ "/" ++ topic_title topic)%string
                              exn
                     /\ (In (EvTopicMessages (item_id forum) (topic_id topic)
                               100 since_hours (Raise exn)) evs
                         \/ exists messages model max_tokens prompt,
                              In (EvTopicMessages (item_id forum)
                                    (topic_id topic) 100 since_hours
                                    (Ret messages)) evs
                              /\ In (EvCreate model max_tokens prompt
                                       (Raise exn)) evs))
                  \/ (exists group ty,
                        In group (groups unread)
                        /\ group_eligible group ty
                        /\ e = error_message (item_name group) exn
                        /\ (In (EvChatMessages (item_id group) 100 since_hours
                                  (Raise exn)) evs
                            \/ exists messages model max_tokens prompt,
                                 In (EvChatMessages (item_id group) 100
                                       since_hours (Ret messages)) evs
                                 /\ In (EvCreate model max_tokens prompt
                                          (Raise exn)) evs)))
          /\ (forall forum,
                In forum (supergroups unread) ->
                is_excluded_group (item_name forum) = false ->
                exists topics,
                  In (EvGroupTopics (item_id forum) (Ret topics)) evs
                  /\ forall topic ty,
                       In topic topics ->
                       topic_eligible (item_name forum) topic ty ->
                       exists evs1 srs1 ers1,
                         topic_attempt since_hours (item_name forum)
                           (item_id forum) topic ty evs1 srs1 ers1
                         /\ incl evs1 evs /\ incl srs1 (summaries d)
                         /\ incl ers1 (errors d))
          /\ (forall group ty,
                In group (groups unread) ->
                group_eligible group ty ->
                exists evs1 srs1 ers1,
                  group_attempt since_hours group ty evs1 srs1 ers1
                  /\ incl evs1 evs /\ incl srs1 (summaries d)
                  /\ incl ers1 (errors d))).
Proof.
  splits.
  - intros client since_hours forum_name forum_id forum_topics topic ty st He.
    assert (Hskip : ty <> "skip") by (destruct He as (_ & p & _ & _ & H & _);
                                      exact H).
    rewrite (topic_body_eligible _ _ _ _ _ _ _ _ He).
    destruct (attempt_outcomes
                (fun w => get_topic_messages client w forum_id
                            (topic_id topic) 100 since_hours)
                (EvTopicMessages forum_id (topic_id topic) 100 since_hours)
                (topic_title topic) ty forum_name (topic_title topic)
                (forum_name ++ "/" ++ topic_title topic)%string st Hskip)
      as (Hraise & Hgen).
    split.
    + intros w1 e Hf. now rewrite (Hraise w1 e Hf).
    + intros w1 messages Hf Hne.
      destruct (Hgen w1 messages Hf Hne) as (model & mt & prompt & H1 & H2).
      exists model, mt, prompt. split.
      * intros w2 e Hc. now rewrite (H1 w2 e Hc).
      * intros w2 text Hc Ht. now rewrite (H2 w2 text Hc Ht).
  - intros client since_hours group ty st He.
    assert (Hskip : ty <> "skip") by (destruct He as (_ & p & _ & _ & H & _);
                                      exact H).
    rewrite (group_body_eligible _ _ _ _ _ He).
    exact (attempt_outcomes
             (fun w => get_chat_messages client w (item_id group) 100
                         since_hours)
             (EvChatMessages (item_id group) 100 since_hours)
             (item_name group) ty (item_name group) "(all)"
             (item_name group) st Hskip).
  - intros client since_hours st w1 unread Hu Htopics.
    destruct (get_digest_total client since_hours st w1 unread Hu Htopics)
      as (st' & d & Hd).
    destruct (get_digest_run _ _ _ _ _ Hd)
      as (client' & w1' & unread' & evs & Hc & Hu' & Hnew & Hrun).
    injection Hc as <-. rewrite Hu in Hu'. injection Hu' as <- <-.
    destruct (digest_run_complete _ _ _ _ Hrun) as (HcF & HcG).
    exists st', d, evs. splits; auto.
    + now apply digest_run_error_count with (since_hours := since_hours)
        (unread := unread).
    + now apply digest_run_error.
    + intros forum Hf Hex.
      destruct (HcF forum Hf Hex) as (topics & H1 & _ & H3). eauto.
Qed.

(** * Further properties

    ** Configuration resolver *)

Lemma get_topic_config_in_origin (gs : list GroupConfig)
    (group_name topic_name : string) (policy : TopicConfig) :
  get_topic_config_in gs group_name topic_name = Some policy ->
  exists group,
    In group gs /\ lower (gc_name group) = lower group_name
    /\ ((In policy (dict_get (gc_topics group) [])
         /\ lower (tc_name policy) = lower topic_name)
        \/ (exists default_type,
              gc_default_type group = Some default_type
              /\ policy = mkTopicConfig topic_name (Some default_type) (Some 1)
              /\ forall t, In t (dict_get (gc_topics group) []) ->
                   lower (tc_name t) <> lower topic_name)).
Proof.
  induction gs as [| g gs IH]; cbn [get_topic_config_in]; [discriminate |].
  destruct (same_name (gc_name g) group_name) eqn:E.
  - apply same_name_true in E.
    destruct (find_topic g topic_name) as [t |] eqn:F.
    + intros [= <-]. exists g. splits; auto using in_eq. left.
      apply find_topic_some in F. destruct F as (b & a & Hl & Hm & _).
      split; [| exact Hm]. rewrite Hl. apply in_or_app. right. now left.
    + destruct (gc_default_type g) as [dt |] eqn:D.
      * intros [= <-]. exists g. splits; auto using in_eq. right.
        exists dt. splits; auto. now apply find_topic_none.
      * intros H. destruct (IH H) as (g' & Hin & Hrest).
        exists g'. split; [now right | exact Hrest].
  - intros H. destruct (IH H) as (g' & Hin & Hrest).
    exists g'. split; [now right | exact Hrest].
Qed.

(** X1. Whatever [get_topic_config] returns comes from an entry whose name
    equals the conversation name up to case: it is a topic entry of that
    entry whose name equals the topic name up to case, or, when that entry
    has no such topic, the policy made of the requested topic name, the
    entry's default style and threshold 1. *)
Theorem resolved_policy_origin (group_name topic_name : string)
    (policy : TopicConfig) :
  get_topic_config group_name topic_name = Some policy ->
  exists group,
    In group config_groups /\ lower (gc_name group) = lower group_name
    /\ ((In policy (dict_get (gc_topics group) [])
         /\ lower (tc_name policy) = lower topic_name)
        \/ (exists default_type,
              gc_default_type group = Some default_type
              /\ policy = mkTopicConfig topic_name (Some default_type) (Some 1)
              /\ forall t, In t (dict_get (gc_topics group) []) ->
                   lower (tc_name t) <> lower topic_name)).
Proof.
  unfold get_topic_config. intros Hresolved.
  destruct (get_topic_config_in_origin _ _ _ _ Hresolved)
    as (group & Hin & Hname & Horigin).
  exists group. splits; assumption.
Qed.

(** X2. The pre-filter [is_configured_group] never hides a policy: for a
    conversation name it rejects, neither [get_topic_config] (for any
    topic) nor [get_group_config] would have returned one. *)
Theorem unconfigured_name_resolves_nothing (group_name : string) :
  is_configured_group group_name = false ->
  (forall topic_name, get_topic_config group_name topic_name = None)
  /\ get_group_config group_name = None.
Proof.
  intros Hc. split.
  - intros topic_name.
    destruct (get_topic_config group_name topic_name) as [p |] eqn:Hp;
      [| reflexivity].
    apply get_topic_config_in_origin in Hp.
    destruct Hp as (g & Hin & Hm & _).
    assert (is_configured_group group_name = true)
      by (apply is_configured_group_spec; eauto).
    congruence.
  - destruct (get_group_config group_name) as [p |] eqn:Hp; [| reflexivity].
    apply get_group_config_configured in Hp. congruence.
Qed.

Lemma get_topic_config_in_name (gs : list GroupConfig)
    (name name' topic_name : string) :
  lower name = lower name' ->
  get_topic_config_in gs name topic_name
  = get_topic_config_in gs name' topic_name.
Proof.
  intros H. induction gs as [| g gs IH]; cbn [get_topic_config_in];
    [reflexivity |].
  unfold same_name. rewrite H, IH. reflexivity.
Qed.

Lemma find_topic_name (group : GroupConfig) (topic_name topic_name' : string) :
  lower topic_name = lower topic_name' ->
  find_topic group topic_name = find_topic group topic_name'.
Proof.
  intros H. unfold find_topic, same_name. now rewrite H.
Qed.

(** X3. The four lookups are insensitive to the case of the conversation
    name: two names with the same lower-case form get the same answers.
    Two topic names with the same lower-case form resolve to policies with
    the same style and the same threshold (a policy made from a default
    style carries the topic name as it was asked). *)
Theorem lookups_ignore_case (name name' : string) :
  lower name = lower name' ->
  is_excluded_group name = is_excluded_group name'
  /\ is_configured_group name = is_configured_group name'
  /\ get_group_config name = get_group_config name'
  /\ (forall topic_name,
        get_topic_config name topic_name = get_topic_config name' topic_name)
  /\ (forall group_name,
        option_map (fun p => (tc_type p, tc_threshold p))
          (get_topic_config group_name name)
        = option_map (fun p => (tc_type p, tc_threshold p))
            (get_topic_config group_name name')).
Proof.
  intros H. splits.
  - unfold is_excluded_group. now rewrite H.
  - unfold is_configured_group, same_name. now rewrite H.
  - unfold get_group_config.
    induction config_groups as [| g gs IH]; cbn [get_group_config_in];
      [reflexivity |].
    unfold same_name. now rewrite H, IH.
  - intros topic_name. now apply get_topic_config_in_name.
  - intros group_name. unfold get_topic_config.
    induction config_groups as [| g gs IH]; cbn [get_topic_config_in];
      [reflexivity |].
    destruct (same_name (gc_name g) group_name); [| exact IH].
    rewrite (find_topic_name g name name' H).
    destruct (find_topic g name'); [reflexivity |].
    destruct (gc_default_type g); [reflexivity | exact IH].
Qed.

Lemma app_cons_neq {A : Type} (l r : list A) (x : A) : l ++ x :: r <> l.
Proof.
  intros H. apply (f_equal (@length A)) in H.
  rewrite length_app in H. cbn in H. lia.
Qed.

(** X4. The gate is exact: processing a forum topic makes a call (the
    message fetch) exactly when the topic is eligible, that is when the
    forum is configured, a policy resolves, its style is not "skip" and the
    unread count reaches its threshold; and processing a plain group makes
    a call exactly when the group is eligible. *)
Theorem fetch_exactly_when_eligible (client : TelegramDigestClient World)
    (since_hours : Z) (st : St) :
  (forall forum_name forum_id forum_topics topic,
     (exists ty, topic_eligible forum_name topic ty)
     <-> calls (fst (topic_body client since_hours forum_name forum_id
                       forum_topics topic st)) <> calls st)
  /\ (forall group,
        (exists ty, group_eligible group ty)
        <-> calls (fst (group_body client since_hours tt group st))
            <> calls st).
Proof.
  split.
  - intros forum_name forum_id forum_topics topic.
    destruct (topic_body_sound client since_hours forum_name forum_id
                forum_topics topic st)
      as [[Hne Hb] | (ty & w & evs & srs & ers & He & Hb & Ha)]; rewrite Hb;
      cbn [fst].
    + split; [intros (ty & He); now apply Hne in He | congruence].
    + split; [intros _ | eauto].
      destruct (attempt_run_first _ _ _ _ _ _ _ _ Ha) as (r & rest & ->).
      cbn [extend calls]. apply app_cons_neq.
  - intros group.
    destruct (group_body_sound client since_hours group st)
      as [[Hne Hb] | (ty & w & evs & srs & ers & He & Hb & Ha)]; rewrite Hb;
      cbn [fst].
    + split; [intros (ty & He); now apply Hne in He | congruence].
    + split; [intros _ | eauto].
      destruct (attempt_run_first _ _ _ _ _ _ _ _ Ha) as (r & rest & ->).
      cbn [extend calls]. apply app_cons_neq.
Qed.

(** X5. Missing keys of a policy, in the loop bodies.  For a topic whose
    resolved entry has no [type], the topic loop only records the count: it
    calls nothing and appends nothing.  For a topic whose entry has a style
    other than "skip" and no [threshold], the loop fetches the topic's
    messages when the topic has at least one unread message, and only
    records the count when it has none.  An entry returned for a plain
    group always has a [type]; when it has no [threshold], the group loop
    fetches the group's messages when the style is not "skip" and the group
    has at least one unread message, and does nothing otherwise. *)
Theorem policy_missing_keys (client : TelegramDigestClient World)
    (since_hours : Z) (st : St) :
  (forall forum_name forum_id forum_topics topic topic_config,
     get_topic_config forum_name (topic_title topic) = Some topic_config ->
     tc_type topic_config = None ->
     topic_body client since_hours forum_name forum_id forum_topics topic st
     = (st,
        Ret (forum_topics
               ++ [mkCount (topic_title topic)
                     (dict_get (topic_unread_count topic) 0)])))
  /\ (forall forum_name forum_id forum_topics topic topic_config ty,
        is_configured_group forum_name = true ->
        get_topic_config forum_name (topic_title topic) = Some topic_config ->
        tc_type topic_config = Some ty ->
        ty <> "skip" ->
        tc_threshold topic_config = None ->
        (1 <= dict_get (topic_unread_count topic) 0 ->
         exists r rest,
           calls (fst (topic_body client since_hours forum_name forum_id
                         forum_topics topic st))
           = calls st
               ++ EvTopicMessages forum_id (topic_id topic) 100 since_hours r
                  :: rest)
        /\ (dict_get (topic_unread_count topic) 0 < 1 ->
            topic_body client since_hours forum_name forum_id forum_topics
              topic st
            = (st,
               Ret (forum_topics
                      ++ [mkCount (topic_title topic)
                            (dict_get (topic_unread_count topic) 0)]))))
  /\ (forall group group_config,
        is_excluded_group (item_name group) = false ->
        get_group_config (item_name group) = Some group_config ->
        gc_threshold group_config = None ->
        exists ty,
          gc_type group_config = Some ty
          /\ (ty <> "skip" ->
              1 <= item_unread_count group ->
              exists r rest,
                calls (fst (group_body client since_hours tt group st))
                = calls st
                    ++ EvChatMessages (item_id group) 100 since_hours r
                       :: rest)
          /\ (ty = "skip" \/ item_unread_count group < 1 ->
              group_body client since_hours tt group st = (st, Ret tt))).
Proof.
  splits.
  - intros forum_name forum_id forum_topics topic p Hp Hty.
    apply topic_body_not_eligible.
    intros ty (_ & p' & Hp' & -> & Hs & _).
    rewrite Hp in Hp'. injection Hp' as <-. rewrite Hty in Hs.
    now apply Hs.
  - intros forum_name forum_id forum_topics topic p ty Hc Hp Hty Hs Hthr.
    split.
    + intros Hunread.
      destruct (topic_body_sound client since_hours forum_name forum_id
                  forum_topics topic st)
        as [[Hne _] | (ty' & w & evs & srs & ers & _ & Hb & Ha)].
      * exfalso. apply (Hne ty). split; [exact Hc |]. exists p.
        rewrite Hty, Hthr. cbn [dict_get]. splits; auto.
      * rewrite Hb. cbn [fst extend calls].
        destruct (attempt_run_first _ _ _ _ _ _ _ _ Ha) as (r & rest & ->).
        exists r, rest. reflexivity.
    + intros Hunread. apply topic_body_not_eligible.
      intros ty' (_ & p' & Hp' & _ & _ & H).
      rewrite Hp in Hp'. injection Hp' as <-. rewrite Hthr in H.
      cbn [dict_get] in H. lia.
  - intros group p Hex Hp Hthr.
    destruct (get_group_config_in_some _ _ _ Hp) as (_ & _ & _ & _ & Hty & _).
    destruct (gc_type p) as [ty |] eqn:T; [| contradiction].
    exists ty. split; [reflexivity |]. split.
    + intros Hs Hunread.
      destruct (group_body_sound client since_hours group st)
        as [[Hne _] | (ty' & w & evs & srs & ers & _ & Hb & Ha)].
      * exfalso. apply (Hne ty). split; [exact Hex |]. exists p.
        rewrite T, Hthr. cbn [dict_get]. splits; auto.
      * rewrite Hb. cbn [fst extend calls].
        destruct (attempt_run_first _ _ _ _ _ _ _ _ Ha) as (r & rest & ->).
        exists r, rest. reflexivity.
    + intros Hor. apply group_body_not_eligible.
      intros ty' (_ & p' & Hp' & -> & Hs & H).
      rewrite Hp in Hp'. injection Hp' as <-. rewrite T in Hs.
      rewrite Hthr in H. cbn [dict_get] in Hs, H.
      destruct Hor as [-> | Hlt]; [now apply Hs | lia].
Qed.

(** ** What a request logs *)

Lemma logs_ret (P : Event -> Prop) {A : Type} (a : A) : logs P (ret a).
Proof. intros st. exists []. cbn. now rewrite app_nil_r. Qed.

Lemma logs_raise (P : Event -> Prop) {A : Type} (e : Exn) :
  logs P (@raise A e).
Proof. intros st. exists []. cbn. now rewrite app_nil_r. Qed.

Lemma logs_bind (P : Event -> Prop) {A B : Type} (c : M A) (k : A -> M B) :
  logs P c -> (forall a, logs P (k a)) -> logs P (bind c k).
Proof.
  intros Hc Hk st. unfold bind.
  destruct (Hc st) as (evs1 & H1 & F1).
  destruct (c st) as [st' [a | e]]; cbn [fst] in H1.
  - destruct (Hk a st') as (evs2 & H2 & F2).
    exists (evs1 ++ evs2). rewrite H2, H1, app_assoc.
    split; [reflexivity | now apply Forall_app].
  - exists evs1. auto.
Qed.

Lemma logs_try_except (P : Event -> Prop) {A : Type} (c : M A)
    (h : Exn -> M A) :
  logs P c -> (forall e, logs P (h e)) -> logs P (try_except c h).
Proof.
  intros Hc Hh st. unfold try_except.
  destruct (Hc st) as (evs1 & H1 & F1).
  destruct (c st) as [st' [a | e]]; cbn [fst] in H1.
  - exists evs1. auto.
  - destruct (Hh e st') as (evs2 & H2 & F2).
    exists (evs1 ++ evs2). rewrite H2, H1, app_assoc.
    split; [reflexivity | now apply Forall_app].
Qed.

Lemma logs_external (P : Event -> Prop) {A : Type}
    (oracle : World -> World * outcome A) (ev : outcome A -> Event) :
  (forall w, P (ev (snd (oracle w)))) -> logs P (external oracle ev).
Proof.
  intros H st. rewrite external_run. cbn [fst extend calls].
  eexists. split; [reflexivity |]. constructor; [apply H | constructor].
Qed.

Lemma logs_append_summary (P : Event -> Prop) (r : SummaryRec) :
  logs P (append_summary r).
Proof. intros st. exists []. cbn. now rewrite app_nil_r. Qed.

Lemma logs_append_error (P : Event -> Prop) (e : string) :
  logs P (append_error e).
Proof. intros st. exists []. cbn. now rewrite app_nil_r. Qed.

Lemma logs_for_each (P : Event -> Prop) {X B : Type} (body : B -> X -> M B)
    (xs : list X) :
  (forall acc x, logs P (body acc x)) ->
  forall acc, logs P (for_each body xs acc).
Proof.
  intros Hb. induction xs as [| x xs IH]; intros acc; cbn [for_each].
  - apply logs_ret.
  - apply logs_bind; auto.
Qed.

Section Logging.

Variable P : Event -> Prop.
Variable client : TelegramDigestClient World.
Variable since_hours : Z.

Hypothesis P_unread :
  forall w, P (EvUnreadSummary (snd (get_unread_summary client w))).
Hypothesis P_topics :
  forall w id, P (EvGroupTopics id (snd (get_group_topics client w id))).
Hypothesis P_topic_messages :
  forall w g t,
    P (EvTopicMessages g t 100 since_hours
         (snd (get_topic_messages client w g t 100 since_hours))).
Hypothesis P_chat_messages :
  forall w g,
    P (EvChatMessages g 100 since_hours
         (snd (get_chat_messages client w g 100 since_hours))).
Hypothesis P_create :
  forall w max_tokens prompt,
    In max_tokens [1000; 800; 500] ->
    P (EvCreate MODEL max_tokens prompt
         (snd (messages_create w MODEL max_tokens prompt))).

Lemma logs_create (max_tokens : Z) (prompt : string) :
  In max_tokens [1000; 800; 500] -> logs P (create MODEL max_tokens prompt).
Proof. intros H. apply logs_external. intros w. now apply P_create. Qed.

Lemma logs_summarise (messages : list Message)
    (topic_name summary_type : string) :
  logs P (summarise messages topic_name summary_type).
Proof.
  assert (Hs : forall (c : M string),
             logs P c -> logs P (bind c (fun s => ret (Some s)))).
  { intros c Hc. apply logs_bind; [exact Hc | intros; apply logs_ret]. }
  unfold summarise, summarise_technical, summarise_memes,
    summarise_logistics, summarise_invites.
  destruct messages as [| m ms]; cbn [list_truthy negb];
    repeat match goal with
           | |- logs P (if ?b then _ else _) => destruct b
           end;
    try apply logs_ret; apply Hs; try apply logs_ret; apply logs_create;
    cbn; auto.
Qed.

Lemma logs_fetch_and_summarise (fetch : M (list Message))
    (label summary_type group topic where_ : string) :
  logs P fetch ->
  logs P (fetch_and_summarise fetch label summary_type group topic where_).
Proof.
  intros Hf. unfold fetch_and_summarise.
  apply logs_try_except; [| intros; apply logs_append_error].
  apply logs_bind; [exact Hf |]. intros messages.
  destruct (list_truthy messages); [| apply logs_ret].
  apply logs_bind; [apply logs_summarise |]. intros [text |];
    [| apply logs_ret].
  destruct (str_truthy text); [apply logs_append_summary | apply logs_ret].
Qed.

Lemma logs_topic_body (forum_name : string) (forum_id : Z)
    (forum_topics : list CountEntry) (topic : Topic) :
  logs P (topic_body client since_hours forum_name forum_id forum_topics
            topic).
Proof.
  unfold topic_body.
  destruct (negb (is_configured_group forum_name)); [apply logs_ret |].
  destruct (get_topic_config forum_name (topic_title topic)) as [p |];
    [| apply logs_ret].
  destruct (String.eqb (dict_get (tc_type p) "skip") "skip");
    [apply logs_ret |].
  destruct (dict_get (topic_unread_count topic) 0
              <? dict_get (tc_threshold p) 1); [apply logs_ret |].
  apply logs_bind; [| intros; apply logs_ret].
  apply logs_fetch_and_summarise. apply logs_external.
  intros w. apply P_topic_messages.
Qed.

Lemma logs_forum_body (forums : list ForumData) (forum : Item) :
  logs P (forum_body client since_hours forums forum).
Proof.
  unfold forum_body.
  destruct (is_excluded_group (item_name forum)); [apply logs_ret |].
  apply logs_bind.
  - apply logs_external. intros w. apply P_topics.
  - intros topics. apply logs_bind; [| intros; apply logs_ret].
    apply logs_for_each. intros acc x. apply logs_topic_body.
Qed.

Lemma logs_group_body (u : unit) (group : Item) :
  logs P (group_body client since_hours u group).
Proof.
  unfold group_body.
  destruct (is_excluded_group (item_name group)); [apply logs_ret |].
  destruct (get_group_config (item_name group)) as [p |]; [| apply logs_ret].
  destruct (String.eqb (dict_get (gc_type p) "skip") "skip");
    [apply logs_ret |].
  destruct (item_unread_count group <? dict_get (gc_threshold p) 1);
    [apply logs_ret |].
  apply logs_fetch_and_summarise. apply logs_external.
  intros w. apply P_chat_messages.
Qed.

Lemma logs_assemble (unread : Unread) :
  logs P (assemble client since_hours unread).
Proof.
  unfold assemble.
  apply logs_bind; [apply logs_for_each; intros; apply logs_forum_body |].
  intros forums. apply logs_bind;
    [apply logs_for_each; intros; apply logs_group_body |].
  intros _ st'. exists []. cbn. now rewrite app_nil_r.
Qed.

Lemma logs_get_digest : logs P (get_digest (Some client) since_hours).
Proof.
  cbn [get_digest]. intros st. unfold digest_request.
  assert (H : logs P (bind (call_get_unread_summary client)
                        (fun unread => assemble client since_hours unread))).
  { apply logs_bind.
    - apply logs_external. exact P_unread.
    - intros unread. apply logs_assemble. }
  exact (H (mkSt (world st) (calls st) [] [])).
Qed.

End Logging.

Lemma logs_new_calls (P : Event -> Prop) {A : Type} (c : M A) (st : St) :
  logs P c -> Forall P (new_calls st (fst (c st))).
Proof.
  intros H. destruct (H st) as (evs & Hc & HF). unfold new_calls.
  rewrite Hc, skipn_app, skipn_all, Nat.sub_diag. exact HF.
Qed.

(** X6. Every message fetch of a request is made with limit 100 and the
    [since_hours] of the request, and every generation call is made with
    the model "claude-sonnet-4-20250514" and a token limit of 1000, 800 or
    500, for every configuration, source and backend. *)
Theorem request_calls_are_bounded (client : TelegramDigestClient World)
    (since_hours : Z) (st : St) :
  Forall (request_call since_hours)
    (new_calls st (fst (get_digest (Some client) since_hours st))).
Proof.
  apply logs_new_calls. apply logs_get_digest; cbn; auto.
Qed.

(** ** Why a request fails *)

Lemma calls_grow {A : Type} (c : M A) (st : St) :
  logs (fun _ => True) c -> exists evs, calls (fst (c st)) = calls st ++ evs.
Proof. intros H. destruct (H st) as (evs & Hc & _). eauto. Qed.

Lemma forums_loop_raise (client : TelegramDigestClient World)
    (since_hours : Z) (forums_in : list Item) :
  forall (forums : list ForumData) (st st' : St) (e : Exn),
  for_each (forum_body client since_hours) forums_in forums st
  = (st', Raise e) ->
  exists evs id, calls st' = calls st ++ evs ++ [EvGroupTopics id (Raise e)].
Proof.
  induction forums_in as [| forum rest IH]; intros acc st st' e H;
    cbn [for_each] in H; [discriminate |].
  unfold bind at 1 in H.
  destruct (calls_grow (forum_body client since_hours acc forum) st)
    as (evs1 & Hg).
  { apply logs_forum_body; auto. }
  destruct (forum_body client since_hours acc forum st)
    as [st1 [fds | e1]] eqn:Hb; cbn [fst] in Hg.
  - destruct (IH _ _ _ _ H) as (evs & id & Hc).
    exists (evs1 ++ evs), id. rewrite Hc, Hg, !app_assoc. reflexivity.
  - injection H as <- <-. unfold forum_body in Hb.
    destruct (is_excluded_group (item_name forum)); [discriminate |].
    unfold bind at 1 in Hb. unfold call_get_group_topics in Hb.
    rewrite external_run in Hb.
    destruct (get_group_topics client (world st) (item_id forum))
      as [w1 [topics | e2]]; cbn [fst snd] in Hb.
    + exfalso. unfold bind at 1 in Hb.
      destruct (topics_loop_sound client since_hours (item_name forum)
                  (item_id forum) topics []
                  (extend st w1 [EvGroupTopics (item_id forum) (Ret topics)]
                     [] []))
        as (w2 & a & b & c & Hl & _).
      rewrite Hl in Hb. discriminate.
    + injection Hb as <- <-. exists [], (item_id forum). reflexivity.
Qed.

(** X7. A request fails only at a listing: when [get_digest] raises [e],
    either no client is connected (and nothing is called), or the last call
    it made is the conversation listing or a topic listing, and that call
    raised [e].  When it returns a digest, no listing call raised.  A
    message fetch or a generation call never makes the request fail. *)
Theorem request_fails_only_at_a_listing
    (tg_client : option (TelegramDigestClient World)) (since_hours : Z)
    (st st' : St) :
  (forall e,
     get_digest tg_client since_hours st = (st', Raise e) ->
     (tg_client = None /\ st' = st)
     \/ (exists evs ev,
           new_calls st st' = evs ++ [ev] /\ listing_raised e ev))
  /\ (forall d,
        get_digest tg_client since_hours st = (st', Ret d) ->
        forall ev e, In ev (new_calls st st') -> ~ listing_raised e ev).
Proof.
  split.
  - intros e H. destruct tg_client as [client |]; cbn [get_digest] in H.
    2:{ left. unfold raise in H. injection H as <- _. auto. }
    right. unfold digest_request in H. unfold bind at 1 in H.
    unfold call_get_unread_summary in H. rewrite external_run in H.
    cbn [world] in H.
    destruct (get_unread_summary client (world st)) as [w1 [unread | e1]];
      cbn [fst snd] in H.
    + unfold assemble in H. unfold bind at 1 in H.
      match type of H with
      | context [for_each (forum_body _ _) _ [] ?s] =>
          destruct (for_each (forum_body client since_hours)
                      (supergroups unread) [] s) as [st1 [fds | e1]] eqn:HF
      end.
      * exfalso. unfold bind at 1 in H.
        destruct (groups_loop_sound client since_hours (groups unread) st1)
          as (w2 & a & b & c & HG & _).
        rewrite HG in H. discriminate.
      * injection H as <- <-.
        destruct (forums_loop_raise _ _ _ _ _ _ _ HF) as (evs & id & Hc).
        exists (EvUnreadSummary (Ret unread) :: evs),
          (EvGroupTopics id (Raise e1)).
        split; [| right; eauto].
        unfold new_calls. rewrite Hc. cbn [extend calls].
        rewrite <- !app_assoc, skipn_app, skipn_all, Nat.sub_diag.
        reflexivity.
    + injection H as <- <-.
      exists [], (EvUnreadSummary (Raise e1)). split; [| now left].
      unfold new_calls. cbn [extend calls].
      rewrite skipn_app, skipn_all, Nat.sub_diag. reflexivity.
  - intros d Hd ev e Hin Hraise.
    destruct (get_digest_run _ _ _ _ _ Hd)
      as (client & w1 & unread & evs & _ & _ & Hnew & Hrun).
    rewrite Hnew in Hin. destruct Hin as [<- | Hin].
    + destruct Hraise as [H | (id & H)]; discriminate H.
    + destruct Hraise as [-> | (id & ->)].
      * destruct (digest_run_call _ _ _ _ Hrun _ Hin)
          as [(f & t & _ & _ & H)
             | [(f & ts & t & ty & r & _ & _ & _ & _ & _ & _
                 & [H | (m & mt & p & r' & H)])
               | (g & ty & r & _ & _ & _ & [H | (m & mt & p & r' & H)])]];
          discriminate H.
      * destruct (digest_run_listing _ _ _ _ Hrun _ _ Hin)
          as (f & tps & H & _). discriminate H.
Qed.

(** ** How much a request does *)

Lemma attempt_run_budget fetch_ev summary_type group topic where_
    evs srs ers :
  (forall r, is_fetch (fetch_ev r) = true) ->
  (forall r, is_create (fetch_ev r) = false) ->
  attempt_run fetch_ev summary_type group topic where_ evs srs ers ->
  length (filter is_fetch evs) = 1%nat
  /\ (length (filter is_create evs) <= 1)%nat
  /\ (length srs + length ers <= 1)%nat
  /\ (length srs <= length (filter is_create evs))%nat
  /\ length (filter is_topic_listing evs) = 0%nat.
Proof.
  intros Hf Hc Ha.
  assert (Hl : forall r, is_topic_listing (fetch_ev r) = false).
  { intros r. specialize (Hf r). destruct (fetch_ev r); cbn in *;
      congruence. }
  destruct Ha; cbn [filter is_fetch is_create is_topic_listing];
    rewrite ?Hf, ?Hc, ?Hl; cbn; splits; lia.
Qed.

Lemma topics_run_budget since_hours forum_name forum_id topics evs srs ers :
  topics_run since_hours forum_name forum_id topics evs srs ers ->
  (length (filter is_create evs) <= length (filter is_fetch evs))%nat
  /\ (length srs + length ers <= length (filter is_fetch evs))%nat
  /\ (length srs <= length (filter is_create evs))%nat
  /\ (length (filter is_fetch evs) <= length topics)%nat
  /\ length (filter is_topic_listing evs) = 0%nat.
Proof.
  induction 1 as [| topic rest evs srs ers Hne Hrun IH
                  | topic ty rest evs1 srs1 ers1 evs srs ers He Ha Hrun IH].
  - cbn. splits; lia.
  - cbn [length]. destruct IH as (? & ? & ? & ? & ?). splits; lia.
  - unfold topic_attempt in Ha.
    apply attempt_run_budget in Ha; [| reflexivity | reflexivity].
    destruct Ha as (? & ? & ? & ? & ?).
    destruct IH as (? & ? & ? & ? & ?).
    rewrite !filter_app, !length_app. cbn [length]. splits; lia.
Qed.

Lemma forums_run_budget since_hours forums_in fds evs srs ers :
  forums_run since_hours forums_in fds evs srs ers ->
  (length (filter is_create evs) <= length (filter is_fetch evs))%nat
  /\ (length srs + length ers <= length (filter is_fetch evs))%nat
  /\ (length srs <= length (filter is_create evs))%nat
  /\ length (filter is_topic_listing evs) = length fds.
Proof.
  induction 1 as [| forum rest fds evs srs ers Hex Hrun IH
                  | forum topics rest evs1 srs1 ers1 fds evs srs ers Hex Ht
                      Hrun IH].
  - cbn. splits; lia.
  - exact IH.
  - destruct (topics_run_budget _ _ _ _ _ _ _ Ht) as (? & ? & ? & ? & ?).
    destruct IH as (? & ? & ? & ?).
    cbn [filter is_fetch is_create is_topic_listing length].
    rewrite !filter_app, !length_app. splits; lia.
Qed.

Lemma groups_run_budget since_hours groups_in evs srs ers :
  groups_run since_hours groups_in evs srs ers ->
  (length (filter is_create evs) <= length (filter is_fetch evs))%nat
  /\ (length srs + length ers <= length (filter is_fetch evs))%nat
  /\ (length srs <= length (filter is_create evs))%nat
  /\ length (filter is_topic_listing evs) = 0%nat.
Proof.
  induction 1 as [| group rest evs srs ers Hne Hrun IH
                  | group ty rest evs1 srs1 ers1 evs srs ers He Ha Hrun IH].
  - cbn. splits; lia.
  - exact IH.
  - unfold group_attempt in Ha.
    apply attempt_run_budget in Ha; [| reflexivity | reflexivity].
    destruct Ha as (? & ? & ? & ? & ?).
    destruct IH as (? & ? & ? & ?).
    rewrite !filter_app, !length_app. splits; lia.
Qed.

(** X8. In a request that returns a digest: one topic listing is requested
    per forum entry of the digest; there is at most one generation call per
    message fetch; the summaries and the errors together are at most as
    many as the message fetches; and the summaries are at most as many as
    the generation calls. *)
Theorem request_budget (tg_client : option (TelegramDigestClient World))
    (since_hours : Z) (st st' : St) (d : DigestResponse) :
  get_digest tg_client since_hours st = (st', Ret d) ->
  let evs := new_calls st st' in
  length (filter is_topic_listing evs)
  = length (mc_forums (message_counts d))
  /\ (length (filter is_create evs) <= length (filter is_fetch evs))%nat
  /\ (length (summaries d) + length (errors d)
      <= length (filter is_fetch evs))%nat
  /\ (length (summaries d) <= length (filter is_create evs))%nat.
Proof.
  intros Hd evs. subst evs.
  destruct (get_digest_run _ _ _ _ _ Hd)
    as (client & w1 & unread & evs & _ & _ & -> & Hrun).
  destruct Hrun as [fds evsF srsF ersF evsG srsG ersG HF HG].
  destruct (forums_run_budget _ _ _ _ _ _ HF) as (? & ? & ? & ?).
  destruct (groups_run_budget _ _ _ _ _ HG) as (? & ? & ? & ?).
  cbn [filter is_fetch is_create is_topic_listing summaries errors
       message_counts mc_forums].
  rewrite !filter_app, !length_app. splits; lia.
Qed.

Lemma Forall2_map_eq {A B C : Type} (R : A -> B -> Prop) (f : A -> C)
    (g : B -> C) (l : list A) (l' : list B) :
  (forall a b, R a b -> f a = g b) ->
  Forall2 R l l' -> map f l = map g l'.
Proof.
  intros H. induction 1 as [| a b l l' HR HF IH]; cbn; [reflexivity |].
  now rewrite (H a b HR), IH.
Qed.

(** X9. The counts of a digest follow the listing.  The direct messages
    are all listed, in listing order and whatever the exclusion list says,
    unless [show_dm_counts] is present and false; the group counts are
    those of the listed groups that are not excluded, in listing order;
    the forum entries are those of the listed forums that are not excluded,
    in listing order, with their names and total counts. *)
Theorem counts_follow_the_listing
    (tg_client : option (TelegramDigestClient World)) (since_hours : Z)
    (st st' : St) (d : DigestResponse) :
  get_digest tg_client since_hours st = (st', Ret d) ->
  exists unread evs,
    new_calls st st' = EvUnreadSummary (Ret unread) :: evs
    /\ (cfg_show_dm_counts CONFIG <> Some false ->
        mc_dms (message_counts d)
        = map (fun i => mkCount (item_name i) (item_unread_count i))
            (dms unread))
    /\ mc_groups (message_counts d)
       = map (fun i => mkCount (item_name i) (item_unread_count i))
           (filter (fun g => negb (is_excluded_group (item_name g)))
                   (groups unread))
    /\ map (fun fd => (fd_name fd, fd_total_count fd))
         (mc_forums (message_counts d))
       = map (fun i => (item_name i, item_unread_count i))
           (filter (fun f => negb (is_excluded_group (item_name f)))
                   (supergroups unread)).
Proof.
  intros Hd.
  destruct (get_digest_run _ _ _ _ _ Hd)
    as (client & w1 & unread & evs & _ & _ & Hnew & Hrun).
  destruct (digest_run_counts _ _ _ _ Hrun) as (Hdm & Hg & Hf).
  exists unread, evs. splits; auto.
  - intros Hflag. rewrite Hdm.
    destruct (cfg_show_dm_counts CONFIG) as [[|] |]; cbn [dict_get];
      try reflexivity.
    now contradiction Hflag.
  - symmetry. eapply Forall2_map_eq; [| exact Hf].
    intros f fd (tps & _ & ->). reflexivity.
Qed.

(** ** Idempotence over a stateless source and backend *)

Lemma agree_refl (st : St) : agree st st.
Proof. split; reflexivity. Qed.

Lemma stable_ret {A : Type} (a : A) : stable (ret a).
Proof.
  intros st1 st2 H. exists []. cbn. rewrite !app_nil_r. auto.
Qed.

Lemma stable_bind {A B : Type} (c : M A) (k : A -> M B) :
  stable c -> (forall a, stable (k a)) -> stable (bind c k).
Proof.
  intros Hc Hk st1 st2 H. unfold bind.
  destruct (Hc st1 st2 H) as (evs1 & H1 & H2 & Ha & Hr).
  destruct (c st1) as [st1' r1]. destruct (c st2) as [st2' r2].
  cbn [fst snd] in *. subst r2. destruct r1 as [a | e].
  - destruct (Hk a st1' st2' Ha) as (evs2 & K1 & K2 & Ka & Kr).
    exists (evs1 ++ evs2). rewrite K1, K2, H1, H2, !app_assoc. auto.
  - exists evs1. auto.
Qed.

Lemma stable_try_except {A : Type} (c : M A) (h : Exn -> M A) :
  stable c -> (forall e, stable (h e)) -> stable (try_except c h).
Proof.
  intros Hc Hh st1 st2 H. unfold try_except.
  destruct (Hc st1 st2 H) as (evs1 & H1 & H2 & Ha & Hr).
  destruct (c st1) as [st1' r1]. destruct (c st2) as [st2' r2].
  cbn [fst snd] in *. subst r2. destruct r1 as [a | e].
  - exists evs1. auto.
  - destruct (Hh e st1' st2' Ha) as (evs2 & K1 & K2 & Ka & Kr).
    exists (evs1 ++ evs2). rewrite K1, K2, H1, H2, !app_assoc. auto.
Qed.

Lemma stable_external {A : Type} (oracle : World -> World * outcome A)
    (ev : outcome A -> Event) :
  (forall w w', snd (oracle w) = snd (oracle w')) ->
  stable (external oracle ev).
Proof.
  intros Ho st1 st2 H. rewrite !external_run. cbn [fst snd extend calls].
  exists [ev (snd (oracle (world st1)))].
  rewrite (Ho (world st2) (world st1)). splits; auto.
  destruct H as (Hs & He). split; cbn; now rewrite ?Hs, ?He.
Qed.

Lemma stable_append_summary (r : SummaryRec) : stable (append_summary r).
Proof.
  intros st1 st2 (Hs & He). exists []. cbn. rewrite !app_nil_r.
  splits; auto. split; cbn; now rewrite ?Hs, ?He.
Qed.

Lemma stable_append_error (e : string) : stable (append_error e).
Proof.
  intros st1 st2 (Hs & He). exists []. cbn. rewrite !app_nil_r.
  splits; auto. split; cbn; now rewrite ?Hs, ?He.
Qed.

Lemma stable_for_each {X B : Type} (body : B -> X -> M B) (xs : list X) :
  (forall acc x, stable (body acc x)) ->
  forall acc, stable (for_each body xs acc).
Proof.
  intros Hb. induction xs as [| x xs IH]; intros acc; cbn [for_each].
  - apply stable_ret.
  - apply stable_bind; auto.
Qed.

Section Stateless.

Variable client : TelegramDigestClient World.
Variable since_hours : Z.

Hypothesis client_stateless : stateless_client client.
Hypothesis backend_stateless : stateless_backend.

Lemma stable_summarise (messages : list Message)
    (topic_name summary_type : string) :
  stable (summarise messages topic_name summary_type).
Proof.
  assert (Hc : forall max_tokens prompt,
             stable (bind (create MODEL max_tokens prompt)
                       (fun s => ret (Some s)))).
  { intros mt p. apply stable_bind; [| intros; apply stable_ret].
    apply stable_external. intros w w'. apply backend_stateless. }
  assert (Hr : forall s : string,
             stable (bind (ret s) (fun s => ret (Some s)))).
  { intros s. apply stable_bind; intros; apply stable_ret. }
  unfold summarise, summarise_technical, summarise_memes,
    summarise_logistics, summarise_invites.
  destruct messages as [| m ms]; cbn [list_truthy negb];
    repeat match goal with
           | |- stable (if ?b then _ else _) => destruct b
           end;
    first [apply stable_ret | apply Hr | apply Hc].
Qed.

Lemma stable_fetch_and_summarise (fetch : M (list Message))
    (label summary_type group topic where_ : string) :
  stable fetch ->
  stable (fetch_and_summarise fetch label summary_type group topic where_).
Proof.
  intros Hf. unfold fetch_and_summarise.
  apply stable_try_except; [| intros; apply stable_append_error].
  apply stable_bind; [exact Hf |]. intros messages.
  destruct (list_truthy messages); [| apply stable_ret].
  apply stable_bind; [apply stable_summarise |]. intros [text |];
    [| apply stable_ret].
  destruct (str_truthy text); [apply stable_append_summary | apply stable_ret].
Qed.

Lemma stable_topic_body (forum_name : string) (forum_id : Z)
    (forum_topics : list CountEntry) (topic : Topic) :
  stable (topic_body client since_hours forum_name forum_id forum_topics
            topic).
Proof.
  destruct client_stateless as (_ & _ & Htm & _).
  unfold topic_body.
  destruct (negb (is_configured_group forum_name)); [apply stable_ret |].
  destruct (get_topic_config forum_name (topic_title topic)) as [p |];
    [| apply stable_ret].
  destruct (String.eqb (dict_get (tc_type p) "skip") "skip");
    [apply stable_ret |].
  destruct (dict_get (topic_unread_count topic) 0
              <? dict_get (tc_threshold p) 1); [apply stable_ret |].
  apply stable_bind; [| intros; apply stable_ret].
  apply stable_fetch_and_summarise. apply stable_external.
  intros w w'. apply Htm.
Qed.

Lemma stable_forum_body (forums : list ForumData) (forum : Item) :
  stable (forum_body client since_hours forums forum).
Proof.
  destruct client_stateless as (_ & Hgt & _).
  unfold forum_body.
  destruct (is_excluded_group (item_name forum)); [apply stable_ret |].
  apply stable_bind.
  - apply stable_external. intros w w'. apply Hgt.
  - intros topics. apply stable_bind; [| intros; apply stable_ret].
    apply stable_for_each. intros acc x. apply stable_topic_body.
Qed.

Lemma stable_group_body (u : unit) (group : Item) :
  stable (group_body client since_hours u group).
Proof.
  destruct client_stateless as (_ & _ & _ & Hcm).
  unfold group_body.
  destruct (is_excluded_group (item_name group)); [apply stable_ret |].
  destruct (get_group_config (item_name group)) as [p |]; [| apply stable_ret].
  destruct (String.eqb (dict_get (gc_type p) "skip") "skip");
    [apply stable_ret |].
  destruct (item_unread_count group <? dict_get (gc_threshold p) 1);
    [apply stable_ret |].
  apply stable_fetch_and_summarise. apply stable_external.
  intros w w'. apply Hcm.
Qed.

Lemma stable_request :
  stable (bind (call_get_unread_summary client)
            (fun unread => assemble client since_hours unread)).
Proof.
  destruct client_stateless as (Hu & _).
  apply stable_bind.
  - apply stable_external. exact Hu.
  - intros unread. unfold assemble.
    apply stable_bind;
      [apply stable_for_each; intros; apply stable_forum_body |].
    intros forums. apply stable_bind;
      [apply stable_for_each; intros; apply stable_group_body |].
    intros _ st1 st2 (Hs & He). exists []. cbn. rewrite !app_nil_r.
    splits; auto; [split; assumption | now rewrite Hs, He].
Qed.

End Stateless.

(** X10. Idempotence.  When the answers of the conversation source and of
    the generation backend do not depend on the state of the world, two
    requests with the same [since_hours], whatever happened before them,
    make the same calls with the same outcomes and return the same result
    (the same digest, or the same exception). *)
Theorem digest_is_idempotent (client : TelegramDigestClient World)
    (since_hours : Z) (st1 st2 : St) :
  stateless_client client ->
  stateless_backend ->
  snd (get_digest (Some client) since_hours st1)
  = snd (get_digest (Some client) since_hours st2)
  /\ new_calls st1 (fst (get_digest (Some client) since_hours st1))
     = new_calls st2 (fst (get_digest (Some client) since_hours st2)).
Proof.
  intros Hc Hb. cbn [get_digest]. unfold digest_request.
  destruct (stable_request client since_hours Hc Hb
              (mkSt (world st1) (calls st1) [] [])
              (mkSt (world st2) (calls st2) [] []))
    as (evs & H1 & H2 & _ & Hr).
  { split; reflexivity. }
  split; [exact Hr |].
  unfold new_calls. cbn [calls] in H1, H2.
  rewrite H1, H2, !skipn_app, !skipn_all, !Nat.sub_diag. reflexivity.
Qed.

(** ** What the summariser reads of a window *)

Lemma format_message_contentless (msg : Message) :
  has_content msg = false -> format_message msg = [].
Proof.
  unfold has_content, format_message. intros H.
  apply orb_false_iff in H. destruct H as (Ht & Hm). now rewrite Ht, Hm.
Qed.

Lemma format_message_content (msg : Message) :
  has_content msg = true ->
  exists line, format_message msg = [String "[" line].
Proof.
  unfold has_content, format_message. intros H.
  destruct (str_truthy (dict_get (msg_text msg) EmptyString)).
  - eexists. cbn [String.append]. reflexivity.
  - cbn [orb] in H. rewrite H. eexists. cbn [String.append]. reflexivity.
Qed.

Lemma join_cons_nonempty (sep line : string) (c : ascii) (xs : list string) :
  join sep (String c line :: xs) <> EmptyString.
Proof.
  unfold join. destruct xs; cbn [String.concat String.append]; discriminate.
Qed.

(** X11. A message with neither text nor media contributes nothing to a
    prompt: the formatted text of a window is the formatted text of its
    messages that have content. *)
Theorem prompt_text_ignores_contentless (messages : list Message) :
  format_messages_for_prompt (filter has_content messages)
  = format_messages_for_prompt messages.
Proof.
  unfold format_messages_for_prompt. f_equal.
  induction messages as [| m ms IH]; [reflexivity |].
  cbn [filter flat_map]. destruct (has_content m) eqn:Hm.
  - cbn [flat_map]. now rewrite IH.
  - now rewrite (format_message_contentless m Hm), IH.
Qed.

(** X12. The formatted text of a window is empty exactly when no message
    of the window has text or media; so a window that is not empty can
    still reach the prompt as an empty text. *)
Theorem prompt_text_empty_iff (messages : list Message) :
  format_messages_for_prompt messages = EmptyString
  <-> forallb (fun msg => negb (has_content msg)) messages = true.
Proof.
  unfold format_messages_for_prompt.
  induction messages as [| m ms IH]; [split; reflexivity |].
  cbn [flat_map forallb]. destruct (has_content m) eqn:Hm; cbn [negb andb].
  - destruct (format_message_content m Hm) as (line & ->).
    cbn [app]. split; [| discriminate].
    intros H. now apply join_cons_nonempty in H.
  - now rewrite (format_message_contentless m Hm).
Qed.

(** X13. For every style but "skip" and every window that is not empty,
    also one whose messages have neither text nor media, [summarise] makes
    exactly one generation call, with the fixed model and one of three token
    limits, and passes on what the call returned or raised.  The prompt
    depends on the window only through its formatted text. *)
Theorem nonempty_window_makes_one_generation_call
    (messages : list Message) (topic_name summary_type : string) :
  summary_type <> "skip" ->
  messages <> [] ->
  exists (max_tokens : Z) (prompt_of : string -> string),
    In max_tokens [1000; 800; 500]
    /\ forall (messages' : list Message) (st : St),
         messages' <> [] ->
         let prompt := prompt_of (format_messages_for_prompt messages') in
         let reply := messages_create (world st) MODEL max_tokens prompt in
         summarise messages' topic_name summary_type st
         = (mkSt (fst reply)
              (calls st ++ [EvCreate MODEL max_tokens prompt (snd reply)])
              (st_summaries st) (st_errors st),
            match snd reply with
            | Ret text => Ret (Some text)
            | Raise e => Raise e
            end).
Proof.
  intros Hskip _.
  assert (Hrun : forall mt prompt st,
             (s <- create MODEL mt prompt ;; ret (Some s)) st
             = (mkSt (fst (messages_create (world st) MODEL mt prompt))
                  (calls st
                     ++ [EvCreate MODEL mt prompt
                           (snd (messages_create (world st) MODEL mt prompt))])
                  (st_summaries st) (st_errors st),
                match snd (messages_create (world st) MODEL mt prompt) with
                | Ret text => Ret (Some text)
                | Raise e => Raise e
                end)).
  { intros mt prompt st. unfold bind, create. rewrite external_run.
    cbn [fst snd]. unfold extend. rewrite !app_nil_r.
    destruct (snd (messages_create (world st) MODEL mt prompt)); reflexivity. }
  unfold summarise.
  destruct (String.eqb_spec summary_type "skip") as [E | _]; [contradiction |].
  destruct (String.eqb summary_type "technical");
    [exists 1000, (fun text => technical_prompt text topic_name)
    | destruct (String.eqb summary_type "memes");
      [exists 800, (fun text => memes_prompt text topic_name)
      | destruct (String.eqb summary_type "logistics");
        [exists 800, (fun text => logistics_prompt text topic_name)
        | destruct (String.eqb summary_type "invites");
          [exists 500, (fun text => invites_prompt text topic_name)
          | exists 800, (fun text => logistics_prompt text topic_name)]]]];
    (split; [cbn; auto |]);
    intros [| m ms] st Hne; [contradiction | | contradiction | | contradiction
                            | | contradiction | | contradiction |];
    cbv zeta;
    unfold summarise_technical, summarise_memes, summarise_logistics,
      summarise_invites; cbn [list_truthy negb]; apply Hrun.
Qed.

(** ** The identifiers of the user *)

Lemma split_on_cons (sep : ascii) (s : string) :
  exists x xs, split_on sep s = x :: xs.
Proof.
  induction s as [| c rest (x & xs & IH)]; cbn [split_on]; [eauto |].
  destruct (Ascii.eqb c sep); [eauto |]. rewrite IH. eauto.
Qed.

Lemma split_on_length (sep : ascii) (s : string) :
  length (split_on sep s)
  = S (count_occ ascii_dec (list_ascii_of_string s) sep).
Proof.
  induction s as [| c rest IH]; [reflexivity |].
  cbn [split_on list_ascii_of_string count_occ].
  destruct (Ascii.eqb_spec c sep) as [-> | Hne].
  - destruct (ascii_dec sep sep) as [_ | N]; [| contradiction].
    cbn [length]. now rewrite IH.
  - destruct (ascii_dec c sep) as [E | _]; [contradiction |].
    destruct (split_on_cons sep rest) as (x & xs & E). rewrite E in *.
    exact IH.
Qed.

Lemma split_on_no_sep (sep : ascii) (s : string) :
  ~ In sep (list_ascii_of_string s) -> split_on sep s = [s].
Proof.
  induction s as [| c rest IH]; [reflexivity |].
  cbn [list_ascii_of_string In split_on]. intros H.
  destruct (Ascii.eqb_spec c sep) as [-> | _]; [exfalso; auto |].
  rewrite IH; auto.
Qed.

Lemma split_on_app (sep : ascii) (a b : string) :
  ~ In sep (list_ascii_of_string a) ->
  split_on sep (a ++ String sep b)%string = a :: split_on sep b.
Proof.
  induction a as [| c rest IH]; cbn [String.append split_on].
  - intros _. now rewrite Ascii.eqb_refl.
  - cbn [list_ascii_of_string In]. intros H.
    destruct (Ascii.eqb_spec c sep) as [-> | _]; [exfalso; auto |].
    rewrite IH; auto.
Qed.

(** X14. The list of identifiers is never empty, so taking its first
    element as the display name cannot fail: the environment value, or
    "Marta" when the variable is not set, gives one identifier more than it
    has commas. *)
Theorem identifiers_never_empty (strip : string -> string)
    (env : option string) :
  length (identifiers_of_env strip env)
  = S (count_occ ascii_dec (list_ascii_of_string (dict_get env "Marta"))
         comma)
  /\ exists name others,
       identifiers_of_env strip env = name :: others
       /\ first_identifier strip env = Some name.
Proof.
  unfold first_identifier, identifiers_of_env. split.
  - rewrite length_map. apply split_on_length.
  - destruct (split_on_cons comma (dict_get env "Marta")) as (x & xs & ->).
    cbn [map]. eauto.
Qed.

(** X15. What the setup wizard writes for a name and a handle is read back
    by the summariser as that name and that handle: the display name is the
    name, and the handle is listed when one was given.  The name and the
    handle must hold no comma and no surrounding blanks. *)
Theorem setup_identifiers_round_trip (strip : string -> string)
    (name handle : string) :
  ~ In comma (list_ascii_of_string name) ->
  ~ In comma (list_ascii_of_string handle) ->
  strip name = name ->
  strip handle = handle ->
  identifiers_of_env strip (Some (setup_identifiers name handle))
  = (if str_truthy handle then [name; handle] else [name])
  /\ first_identifier strip (Some (setup_identifiers name handle))
     = Some name.
Proof.
  intros Hn Hh Sn Sh.
  assert (E : identifiers_of_env strip (Some (setup_identifiers name handle))
              = if str_truthy handle then [name; handle] else [name]).
  { unfold identifiers_of_env, setup_identifiers. cbn [dict_get].
    destruct (str_truthy handle).
    - change (name ++ "," ++ handle)%string
        with (name ++ String comma handle)%string.
      rewrite split_on_app, split_on_no_sep by assumption.
      cbn [map]. now rewrite Sn, Sh.
    - rewrite split_on_no_sep by assumption. cbn [map]. now rewrite Sn. }
  split; [exact E |].
  unfold first_identifier. rewrite E. now destruct (str_truthy handle).
Qed.

(** ** The shipped client: the conversation listing *)

Lemma add_dialog_spec (summary : Unread) (dialog : telegram_client.Dialog) :
  telegram_client.add_dialog summary dialog
  = mkUnread (dms summary ++ listed_as is_user [dialog])
      (groups summary ++ listed_as is_plain_group [dialog])
      (supergroups summary
         ++ listed_as telegram_client.entity_forum [dialog]).
Proof.
  destruct summary as [ds gs ss].
  destruct dialog as [unread archived name entity].
  unfold telegram_client.add_dialog, listed_as, listed_dialog, dialog_item.
  cbn [telegram_client.dialog_unread_count telegram_client.dialog_archived
         telegram_client.dialog_name telegram_client.dialog_entity
         dms groups supergroups filter].
  destruct (unread =? 0); cbn [negb andb map]; rewrite ?app_nil_r;
    [reflexivity |].
  destruct archived; cbn [negb andb map]; rewrite ?app_nil_r;
    [reflexivity |].
  destruct entity as [id | id [[|] |] | id | id];
    cbn [is_user is_plain_group telegram_client.entity_forum negb andb map
           dms groups supergroups];
    rewrite ?app_nil_r; reflexivity.
Qed.

Lemma listed_as_cons (kind : telegram_client.Entity -> bool)
    (dialog : telegram_client.Dialog) (rest : list telegram_client.Dialog) :
  listed_as kind (dialog :: rest)
  = listed_as kind [dialog] ++ listed_as kind rest.
Proof.
  unfold listed_as. rewrite <- map_app. f_equal. cbn [filter].
  now destruct (listed_dialog dialog
                && kind (telegram_client.dialog_entity dialog)).
Qed.

Lemma unread_summary_fold (dialogs : list telegram_client.Dialog) :
  forall summary : Unread,
    fold_left telegram_client.add_dialog dialogs summary
    = mkUnread (dms summary ++ listed_as is_user dialogs)
        (groups summary ++ listed_as is_plain_group dialogs)
        (supergroups summary
           ++ listed_as telegram_client.entity_forum dialogs).
Proof.
  induction dialogs as [| dialog rest IH]; intros summary.
  - cbn. rewrite !app_nil_r. now destruct summary.
  - cbn [fold_left]. rewrite IH, add_dialog_spec.
    cbn [dms groups supergroups].
    rewrite <- !app_assoc, <- !listed_as_cons. reflexivity.
Qed.

Lemma unread_summary_of_spec
    (dialogs : list telegram_client.Dialog) :
  telegram_client.unread_summary_of dialogs
  = mkUnread (listed_as is_user dialogs) (listed_as is_plain_group dialogs)
      (listed_as telegram_client.entity_forum dialogs).
Proof.
  unfold telegram_client.unread_summary_of. now rewrite unread_summary_fold.
Qed.

(** X16. The conversation listing of the shipped client keeps exactly the
    dialogs that have unread messages and are not archived, and sorts them
    by the class of their entity: users are direct messages, chats and
    channels that are not forums are groups, forum channels are
    supergroups; dialogs of any other class are dropped.  Each list keeps
    the order of the dialogs. *)
Theorem unread_summary_sorts_dialogs
    (dialogs : list telegram_client.Dialog) :
  telegram_client.unread_summary_of dialogs
  = mkUnread (listed_as is_user dialogs) (listed_as is_plain_group dialogs)
      (listed_as telegram_client.entity_forum dialogs).
Proof.
  unfold telegram_client.unread_summary_of.
  rewrite unread_summary_fold. cbn [dms groups supergroups app].
  reflexivity.
Qed.

Lemma or_unknown_nonempty (x : option string) :
  telegram_client.or_unknown x <> EmptyString.
Proof.
  unfold telegram_client.or_unknown. destruct x as [[| c s] |]; discriminate.
Qed.

Lemma listed_as_item (kind : telegram_client.Entity -> bool)
    (dialogs : list telegram_client.Dialog) (item : Item) :
  In item (listed_as kind dialogs) ->
  exists dialog,
    In dialog dialogs /\ item = dialog_item dialog
    /\ listed_dialog dialog = true
    /\ kind (telegram_client.dialog_entity dialog) = true.
Proof.
  unfold listed_as. intros H. apply in_map_iff in H.
  destruct H as (dialog & <- & H). apply filter_In in H.
  destruct H as (Hin & H). apply andb_true_iff in H. destruct H as (Hl & Hk). exists dialog. auto.
Qed.

Lemma listed_as_length (dialogs : list telegram_client.Dialog) :
  (length (listed_as is_user dialogs)
   + length (listed_as is_plain_group dialogs)
   + length (listed_as telegram_client.entity_forum dialogs)
   <= length dialogs)%nat.
Proof.
  unfold listed_as. rewrite !length_map.
  induction dialogs as [| dialog rest IH]; [reflexivity |].
  cbn [filter length].
  destruct (listed_dialog dialog); cbn [andb]; [| lia].
  destruct (telegram_client.dialog_entity dialog) as [id | id [[|] |] | id | id];
    cbn [is_user is_plain_group telegram_client.entity_forum negb length];
    lia.
Qed.

Lemma unread_summary_item (dialogs : list telegram_client.Dialog)
    (item : Item) :
  let unread := telegram_client.unread_summary_of dialogs in
  In item (dms unread ++ groups unread ++ supergroups unread) ->
  item_unread_count item <> 0
  /\ item_name item <> EmptyString
  /\ exists dialog,
       In dialog dialogs
       /\ telegram_client.dialog_archived dialog = false
       /\ item_id item
          = telegram_client.entity_id (telegram_client.dialog_entity dialog).
Proof.
  cbv zeta. rewrite unread_summary_of_spec.
  cbn [dms groups supergroups]. intros Hin.
  assert (H : exists kind, In item (listed_as kind dialogs)).
  { apply in_app_or in Hin. destruct Hin as [H | Hin]; [eauto |].
    apply in_app_or in Hin. destruct Hin as [H | H]; eauto. }
  destruct H as (kind & H).
  destruct (listed_as_item _ _ _ H) as (dialog & Hd & -> & Hl & _).
  unfold listed_dialog in Hl. apply andb_true_iff in Hl.
  destruct Hl as (Hu & Ha). apply negb_true_iff in Hu, Ha.
  cbn [dialog_item item_unread_count item_name item_id]. splits.
  - now apply Z.eqb_neq.
  - apply or_unknown_nonempty.
  - exists dialog. auto.
Qed.

(** X17. Every conversation of the listing has a count of unread messages
    different from zero and a name that is not empty, and comes from a
    dialog that is not archived; no dialog is listed twice. *)
Theorem listed_conversations_are_unread
    (dialogs : list telegram_client.Dialog) :
  let unread := telegram_client.unread_summary_of dialogs in
  (forall item,
     In item (dms unread ++ groups unread ++ supergroups unread) ->
     item_unread_count item <> 0
     /\ item_name item <> EmptyString
     /\ exists dialog,
          In dialog dialogs
          /\ telegram_client.dialog_archived dialog = false
          /\ item_id item
             = telegram_client.entity_id
                 (telegram_client.dialog_entity dialog))
  /\ (length (dms unread) + length (groups unread)
      + length (supergroups unread) <= length dialogs)%nat.
Proof.
  cbv zeta. split.
  - intros item. apply unread_summary_item.
  - rewrite unread_summary_of_spec. cbn [dms groups supergroups].
    apply listed_as_length.
Qed.

(** ** The shipped client: message windows and topic listings *)

Lemma collect_spec (data : telegram_client.TlMessage -> Message) (since : Z)
    (stream : list telegram_client.TlMessage) (failure : option Exn) :
  forall (messages : list Message) (taken : nat),
    snd (telegram_client.collect data since stream failure messages taken)
    = match (if reaches_older since stream then None else failure) with
      | Some e => Raise e
      | None => Ret (messages ++ map data (recent_prefix since stream))
      end.
Proof.
  induction stream as [| message rest IH]; intros messages taken;
    cbn [telegram_client.collect reaches_older existsb recent_prefix].
  - destruct failure; cbn [snd map]; now rewrite ?app_nil_r.
  - destruct (telegram_client.tm_date message <? since); cbn [orb snd map].
    + now rewrite app_nil_r.
    + rewrite IH. unfold reaches_older.
      destruct (if existsb _ rest then None else failure);
        [reflexivity |]. now rewrite <- app_assoc.
Qed.

Lemma recent_prefix_is_prefix (since : Z)
    (stream : list telegram_client.TlMessage) :
  exists rest, stream = recent_prefix since stream ++ rest.
Proof.
  induction stream as [| message stream (rest & IH)];
    cbn [recent_prefix]; [exists []; reflexivity |].
  destruct (telegram_client.tm_date message <? since).
  - eexists. reflexivity.
  - exists rest. cbn [app]. now rewrite <- IH.
Qed.

Lemma Forall2_In_l {A B : Type} (R : A -> B -> Prop) (l : list A)
    (l' : list B) (x : A) :
  Forall2 R l l' -> In x l -> exists y, In y l' /\ R x y.
Proof.
  induction 1 as [| x0 y l l' HR HF IH]; intros Hin; [destruct Hin |].
  destruct Hin as [<- | Hin].
  - exists y. split; [now left | exact HR].
  - destruct (IH Hin) as (y' & Hy & HRy). exists y'. split; [now right | auto].
Qed.

Section Shipped.

Variable isoformat : Z -> string.
Variable tl : telegram_client.TelegramClient World.

Lemma fetch_window_spec (data : telegram_client.TlMessage -> Message)
    (reply_to : option Z) (w : World) (group_id limit since_hours : Z) :
  exists kept,
    snd (telegram_client.or_empty World
           (telegram_client.fetch_window World tl data reply_to w group_id
              limit since_hours))
    = Ret (map data kept)
    /\ (kept = []
        \/ exists w1 entity rest,
             telegram_client.get_entity tl w group_id = (w1, Ret entity)
             /\ telegram_client.yielded
                  (telegram_client.iter_messages tl w1 entity limit reply_to)
                = kept ++ rest).
Proof.
  unfold telegram_client.fetch_window.
  destruct (telegram_client.get_entity tl w group_id)
    as [w1 [entity | e]] eqn:He; [| exists []; auto].
  destruct (telegram_client.since_cutoff tl w1 since_hours) as [since | e];
    [| exists []; auto].
  cbv zeta.
  pose proof (collect_spec data since
                (telegram_client.yielded
                   (telegram_client.iter_messages tl w1 entity limit
                      reply_to))
                (telegram_client.failure
                   (telegram_client.iter_messages tl w1 entity limit
                      reply_to)) [] 0) as Hc.
  destruct (telegram_client.collect _ _ _ _ _ _) as [taken r].
  cbn [snd] in Hc. subst r.
  destruct (if reaches_older since _ then None else _) as [e |].
  - exists []. auto.
  - eexists. cbn [telegram_client.or_empty snd app]. split; [reflexivity |].
    right.
    destruct (recent_prefix_is_prefix since
                (telegram_client.yielded
                   (telegram_client.iter_messages tl w1 entity limit
                      reply_to))) as (rest & Hr).
    exists w1, entity, rest. auto.
Qed.

(** X18. A fetch that reaches Telegram returns the messages of the stream
    before the first one older than the cutoff, converted in order.  When
    the iteration fails before it meets a message older than the cutoff,
    what was collected is dropped and the window is empty. *)
Theorem window_is_recent_prefix (w w1 : World)
    (group_id limit since_hours since : Z)
    (entity : telegram_client.Entity) :
  telegram_client.get_entity tl w group_id = (w1, Ret entity) ->
  telegram_client.since_cutoff tl w1 since_hours = Ret since ->
  let window data reply_to :=
    let stream :=
      telegram_client.iter_messages tl w1 entity limit reply_to in
    match (if reaches_older since (telegram_client.yielded stream)
           then None else telegram_client.failure stream) with
    | Some _ => []
    | None =>
        map data (recent_prefix since (telegram_client.yielded stream))
    end in
  (forall topic_id,
     snd (telegram_client.get_topic_messages World isoformat tl w group_id
            topic_id limit since_hours)
     = Ret (window (telegram_client.topic_message_data isoformat)
              (Some topic_id)))
  /\ snd (telegram_client.get_chat_messages World isoformat tl w group_id
            limit since_hours)
     = Ret (window (telegram_client.chat_message_data isoformat) None).
Proof.
  intros He Hs.
  assert (H : forall data reply_to,
             snd (telegram_client.or_empty World
                    (telegram_client.fetch_window World tl data reply_to w
                       group_id limit since_hours))
             = Ret
                 match
                   (if reaches_older since
                         (telegram_client.yielded
                            (telegram_client.iter_messages tl w1 entity limit
                               reply_to))
                    then None
                    else telegram_client.failure
                           (telegram_client.iter_messages tl w1 entity limit
                              reply_to))
                 with
                 | Some _ => []
                 | None =>
                     map data
                       (recent_prefix since
                          (telegram_client.yielded
                             (telegram_client.iter_messages tl w1 entity
                                limit reply_to)))
                 end).
  { intros data reply_to. unfold telegram_client.fetch_window.
    rewrite He, Hs. cbv zeta.
    pose proof (collect_spec data since
                  (telegram_client.yielded
                     (telegram_client.iter_messages tl w1 entity limit
                        reply_to))
                  (telegram_client.failure
                     (telegram_client.iter_messages tl w1 entity limit
                        reply_to)) [] 0) as Hc.
    destruct (telegram_client.collect _ _ _ _ _ _) as [taken r].
    cbn [snd] in Hc. subst r.
    destruct (if reaches_older since _ then None else _); reflexivity. }
  cbv zeta. split; [intros topic_id |]; apply H.
Qed.

(** X19. A fetch of the shipped client never raises, whatever Telegram
    does: it returns converted messages of a prefix of the stream, so never
    more than the stream yields, or the empty list. *)
Theorem fetch_never_raises (w : World) (group_id limit since_hours : Z) :
  (forall topic_id,
     exists kept,
       snd (telegram_client.get_topic_messages World isoformat tl w group_id
              topic_id limit since_hours)
       = Ret (map (telegram_client.topic_message_data isoformat) kept)
       /\ (kept = []
           \/ exists w1 entity rest,
                telegram_client.get_entity tl w group_id = (w1, Ret entity)
                /\ telegram_client.yielded
                     (telegram_client.iter_messages tl w1 entity limit
                        (Some topic_id))
                   = kept ++ rest))
  /\ exists kept,
       snd (telegram_client.get_chat_messages World isoformat tl w group_id
              limit since_hours)
       = Ret (map (telegram_client.chat_message_data isoformat) kept)
       /\ (kept = []
           \/ exists w1 entity rest,
                telegram_client.get_entity tl w group_id = (w1, Ret entity)
                /\ telegram_client.yielded
                     (telegram_client.iter_messages tl w1 entity limit None)
                   = kept ++ rest).
Proof.
  split; [intros topic_id |]; apply fetch_window_spec.
Qed.

(** X20. Every message the shipped client returns carries an id, a date, a
    sender, a text and a media flag, so the defaults of the prompt
    formatter are never used for it; a message of a plain chat never
    carries a reply marker. *)
Theorem fetched_messages_are_complete (w : World)
    (group_id limit since_hours : Z) :
  let complete msg :=
    msg_id msg <> None /\ msg_date msg <> None /\ msg_sender msg <> None
    /\ msg_text msg <> None /\ msg_has_media msg <> None in
  (forall topic_id,
     exists messages,
       snd (telegram_client.get_topic_messages World isoformat tl w group_id
              topic_id limit since_hours)
       = Ret messages
       /\ Forall complete messages)
  /\ exists messages,
       snd (telegram_client.get_chat_messages World isoformat tl w group_id
              limit since_hours)
       = Ret messages
       /\ Forall (fun msg => complete msg /\ msg_reply_to_id msg = None)
            messages.
Proof.
  cbv zeta. split.
  - intros topic_id.
    destruct (fetch_window_spec
                (telegram_client.topic_message_data isoformat)
                (Some topic_id) w group_id limit since_hours)
      as (kept & H & _).
    eexists. split; [exact H |].
    apply Forall_forall. intros msg Hin. apply in_map_iff in Hin.
    destruct Hin as (message & <- & _).
    cbn; splits; discriminate.
  - destruct (fetch_window_spec
                (telegram_client.chat_message_data isoformat)
                None w group_id limit since_hours)
      as (kept & H & _).
    eexists. split; [exact H |].
    apply Forall_forall. intros msg Hin. apply in_map_iff in Hin.
    destruct Hin as (message & <- & _).
    cbn; splits; try discriminate; reflexivity.
Qed.

Lemma topics_loop_spec (group_id : Z) (w : World)
    (raw : list telegram_client.ForumTopic) :
  forall acc : list Topic,
    exists r,
      telegram_client.topics_loop World isoformat tl group_id false w raw acc
      = (w, r)
      /\ match r with
         | Ret topics =>
             exists added, topics = acc ++ added /\ Forall2 topic_of raw added
         | Raise _ =>
             exists topic,
               In topic raw /\ telegram_client.ft_title topic = None
         end.
Proof.
  induction raw as [| topic rest IH]; intros acc;
    cbn [telegram_client.topics_loop].
  - eexists. split; [reflexivity |]. exists []. rewrite app_nil_r. auto.
  - destruct (telegram_client.ft_title topic) as [title |] eqn:Ht.
    + destruct (IH (acc
                      ++ [mkTopic (telegram_client.ft_id topic) title
                            (Some
                               (dict_get
                                  (telegram_client.ft_unread_count topic)
                                  0))]))
        as (r & Hr & Hspec).
      exists r. split; [exact Hr |]. destruct r as [topics | e].
      * destruct Hspec as (added & -> & HF). eexists. split.
        -- rewrite <- app_assoc. reflexivity.
        -- constructor; [| exact HF]. unfold topic_of. cbn. auto.
      * destruct Hspec as (t & Hin & Hn). exists t. auto using in_cons.
    + eexists. split; [reflexivity |]. exists topic. auto using in_eq.
Qed.

(** X21. The topic listing of the shipped client never raises and is all
    or nothing: it holds one topic for every forum topic Telegram lists,
    in order, with its id, its title and its unread count (0 when the
    topic has none), or it is empty.  It is empty as soon as one listed
    topic has no title. *)
Theorem topic_listing_is_all_or_nothing (w : World) (group_id : Z) :
  exists topics,
    snd (telegram_client.get_group_topics World isoformat tl w group_id false)
    = Ret topics
    /\ (topics = []
        \/ exists w1 entity w2 raw,
             telegram_client.get_entity tl w group_id = (w1, Ret entity)
             /\ telegram_client.entity_forum entity = true
             /\ telegram_client.get_forum_topics tl w1 entity = (w2, Ret raw)
             /\ Forall2 topic_of raw topics)
    /\ forall w1 entity w2 raw topic,
         telegram_client.get_entity tl w group_id = (w1, Ret entity) ->
         telegram_client.get_forum_topics tl w1 entity = (w2, Ret raw) ->
         In topic raw ->
         telegram_client.ft_title topic = None ->
         topics = [].
Proof.
  unfold telegram_client.get_group_topics.
  destruct (telegram_client.get_entity tl w group_id)
    as [w1 [entity | e]] eqn:He.
  2:{ exists []. splits; auto. }
  destruct (telegram_client.entity_forum entity) eqn:Hf; cbn [negb].
  2:{ exists []. splits; auto. }
  destruct (telegram_client.get_forum_topics tl w1 entity)
    as [w2 [raw | e]] eqn:Hr.
  2:{ exists []. splits; auto. }
  destruct (topics_loop_spec group_id w2 raw []) as (r & Hl & Hspec).
  rewrite Hl. destruct r as [topics | e].
  - destruct Hspec as (added & -> & HF). cbn [app].
    exists added. cbn [telegram_client.or_empty snd]. splits; auto.
    + right. exists w1, entity, w2, raw. auto.
    + intros w1' entity' w2' raw' topic E1 E2 Hin Hn.
      injection E1 as <- <-. rewrite Hr in E2. injection E2 as <- <-.
      destruct (Forall2_In_l topic_of raw added topic HF Hin)
        as (t & _ & _ & Ht & _).
      rewrite Hn in Ht. discriminate.
  - exists []. cbn [telegram_client.or_empty snd]. splits; auto.
Qed.

End Shipped.

(** ** A request served by the (telegram_client.digest_client World isoformat tl) client *)

Lemma or_empty_is_ret {A : Type} (r : World * outcome (list A)) :
  is_raise (snd (telegram_client.or_empty World r)) = false.
Proof. destruct r as [w [xs | e]]; reflexivity. Qed.

Lemma or_empty_returns {A : Type} (r : World * outcome (list A)) :
  exists w xs, telegram_client.or_empty World r = (w, Ret xs).
Proof. destruct r as [w [xs | e]]; cbn; eauto. Qed.

Section ShippedRequest.

Variable isoformat : Z -> string.
Variable tl : telegram_client.TelegramClient World.

Lemma shipped_topics_return (w : World) (id : Z) :
  exists w' topics, get_group_topics (telegram_client.digest_client World isoformat tl) w id = (w', Ret topics).
Proof. apply or_empty_returns. Qed.

Lemma shipped_listing (w w1 : World) (unread : Unread) :
  get_unread_summary (telegram_client.digest_client World isoformat tl) w = (w1, Ret unread) ->
  exists dialogs,
    telegram_client.get_dialogs tl w = (w1, Ret dialogs)
    /\ unread = telegram_client.unread_summary_of dialogs.
Proof.
  cbn [get_unread_summary telegram_client.digest_client].
  unfold telegram_client.get_unread_summary.
  destruct (telegram_client.get_dialogs tl w) as [w2 [dialogs | e]];
    intros H; [| discriminate].
  injection H as <- <-. eauto.
Qed.

Lemma shipped_source_never_raises (since_hours : Z) :
  logs (fun ev => source_raised ev = false)
    (get_digest (Some (telegram_client.digest_client World isoformat tl)) since_hours).
Proof.
  apply logs_get_digest; intros; cbn [source_raised]; auto;
    apply or_empty_is_ret.
Qed.

Lemma shipped_within_limit (since_hours : Z) :
  (forall w entity reply_to,
     len (telegram_client.yielded
            (telegram_client.iter_messages tl w entity 100 reply_to))
     <= 100) ->
  logs within_limit (get_digest (Some (telegram_client.digest_client World isoformat tl)) since_hours).
Proof.
  intros Hlimit.
  assert (H : forall data reply_to w g,
             match
               snd (telegram_client.or_empty World
                      (telegram_client.fetch_window World tl data reply_to w
                         g 100 since_hours))
             with
             | Ret messages => len messages <= 100
             | Raise _ => True
             end).
  { intros data reply_to w g.
    destruct (fetch_window_spec tl data reply_to w g 100 since_hours)
      as (kept & -> & [-> | (w1 & entity & rest & _ & Hy)]).
    - cbn. lia.
    - specialize (Hlimit w1 entity reply_to). rewrite Hy in Hlimit.
      unfold len in *. rewrite length_map. rewrite length_app in Hlimit.
      lia. }
  apply logs_get_digest; intros; cbn [within_limit]; auto.
  - apply (H (telegram_client.topic_message_data isoformat) (Some t) w g).
  - apply (H (telegram_client.chat_message_data isoformat) None w g).
Qed.

(** X22. Served by the (telegram_client.digest_client World isoformat tl) client, a request fails only when the dialog
    listing of Telegram fails, with the exception of that listing and after
    that call alone; whenever the dialog listing returns, the request
    returns a digest. *)
Theorem shipped_request_fails_only_at_dialogs (since_hours : Z) (st : St) :
  let result := get_digest (Some (telegram_client.digest_client World isoformat tl)) since_hours st in
  match snd (telegram_client.get_dialogs tl (world st)) with
  | Raise e =>
      snd result = Raise e
      /\ new_calls st (fst result) = [EvUnreadSummary (Raise e)]
  | Ret dialogs =>
      exists d evs,
        snd result = Ret d
        /\ new_calls st (fst result)
           = EvUnreadSummary (Ret (telegram_client.unread_summary_of dialogs))
             :: evs
  end.
Proof.
  cbv zeta.
  destruct (telegram_client.get_dialogs tl (world st))
    as [w1 [dialogs | e]] eqn:Hd; cbn [snd].
  - assert (Hu : get_unread_summary (telegram_client.digest_client World isoformat tl) (world st)
                 = (w1, Ret (telegram_client.unread_summary_of dialogs))).
    { cbn [get_unread_summary telegram_client.digest_client].
      unfold telegram_client.get_unread_summary. now rewrite Hd. }
    destruct (get_digest_total (telegram_client.digest_client World isoformat tl) since_hours st w1 _ Hu
                shipped_topics_return) as (st' & d & H).
    destruct (get_digest_run _ _ _ _ _ H)
      as (client & w2 & unread & evs & Hc & Hu' & Hnew & _).
    injection Hc as <-. rewrite Hu in Hu'. injection Hu' as <- <-.
    exists d, evs. rewrite H. auto.
  - assert (H : get_digest
                   (Some (telegram_client.digest_client World isoformat tl))
                   since_hours st
                 = (mkSt w1 (calls st ++ [EvUnreadSummary (Raise e)]) [] [],
                    Raise e)).
    { cbn [get_digest]. unfold digest_request, call_get_unread_summary.
      unfold bind at 1. rewrite external_run.
      cbn [get_unread_summary telegram_client.digest_client world].
      unfold telegram_client.get_unread_summary. rewrite Hd.
      reflexivity. }
    rewrite H. cbn [fst snd]. split; [reflexivity |].
    unfold new_calls. cbn [calls].
    now rewrite skipn_app, skipn_all, Nat.sub_diag.
Qed.

(** X23. Served by the (telegram_client.digest_client World isoformat tl) client, no topic listing and no message
    fetch of a request raises, so every error string of a digest reports
    an exception of a generation call of that request. *)
Theorem shipped_errors_come_from_generation (since_hours : Z)
    (st st' : St) (d : DigestResponse) :
  get_digest (Some (telegram_client.digest_client World isoformat tl)) since_hours st = (st', Ret d) ->
  Forall (fun ev => source_raised ev = false) (new_calls st st')
  /\ forall e,
       In e (errors d) ->
       exists where_ model max_tokens prompt exn,
         e = error_message where_ exn
         /\ In (EvCreate model max_tokens prompt (Raise exn))
              (new_calls st st').
Proof.
  intros H.
  assert (HF : Forall (fun ev => source_raised ev = false)
                 (new_calls st st')).
  { pose proof (logs_new_calls _ _ st
                  (shipped_source_never_raises since_hours)) as HF.
    now rewrite H in HF. }
  split; [exact HF |]. intros e He.
  destruct (get_digest_run _ _ _ _ _ H)
    as (client & w1 & unread & evs & _ & _ & Hnew & Hrun).
  rewrite Hnew in *. rewrite Forall_forall in HF.
  destruct (digest_run_error _ _ _ _ Hrun e He)
    as (exn & [(f & ts & t & ty & _ & _ & _ & _ & _ & -> & Hc)
              | (g & ty & _ & _ & -> & Hc)]);
    (destruct Hc as [Hin | (ms & model & mt & prompt & _ & Hin)];
     [apply in_cons with (a := EvUnreadSummary (Ret unread)) in Hin;
      apply HF in Hin; discriminate Hin
     | eexists; exists model, mt, prompt, exn;
       split; [reflexivity | now right]]).
Qed.

(** X24. When Telegram yields at most 100 messages for a limit of 100,
    every summary record of a digest served by the (telegram_client.digest_client World isoformat tl) client counts
    between 1 and 100 messages. *)
Theorem shipped_message_counts_within_limit (since_hours : Z)
    (st st' : St) (d : DigestResponse) :
  (forall w entity reply_to,
     len (telegram_client.yielded
            (telegram_client.iter_messages tl w entity 100 reply_to))
     <= 100) ->
  get_digest (Some (telegram_client.digest_client World isoformat tl)) since_hours st = (st', Ret d) ->
  forall r, In r (summaries d) -> 1 <= sr_message_count r <= 100.
Proof.
  intros Hlimit H r Hr.
  pose proof (logs_new_calls _ _ st (shipped_within_limit since_hours Hlimit))
    as HF.
  rewrite H in HF. cbn [fst] in HF.
  destruct (get_digest_run _ _ _ _ _ H)
    as (client & w1 & unread & evs & _ & _ & Hnew & Hrun).
  rewrite Hnew in HF. rewrite Forall_forall in HF.
  destruct (digest_run_summary _ _ _ _ Hrun r Hr)
    as (messages & model & mt & prompt & Hne & _ & -> & _ & Hfrom).
  split; [now apply len_nonempty |].
  destruct Hfrom as [(f & ts & t & _ & _ & _ & _ & _ & _ & _ & Hin)
                    | (g & _ & _ & _ & _ & Hin)];
    apply in_cons with (a := EvUnreadSummary (Ret unread)) in Hin;
    apply HF in Hin; exact Hin.
Qed.

(** X25. Served by the (telegram_client.digest_client World isoformat tl) client, a digest lists no conversation with
    a count of zero or an empty name: every direct-message, group and forum
    entry has a count different from zero and a name that is not empty.  (A
    topic inside a forum can have a count of zero.) *)
Theorem shipped_counts_are_nonzero (since_hours : Z) (st st' : St)
    (d : DigestResponse) :
  get_digest (Some (telegram_client.digest_client World isoformat tl)) since_hours st = (st', Ret d) ->
  Forall (fun entry => ce_count entry <> 0 /\ ce_name entry <> EmptyString)
    (mc_dms (message_counts d) ++ mc_groups (message_counts d))
  /\ Forall
       (fun forum =>
          fd_total_count forum <> 0 /\ fd_name forum <> EmptyString)
       (mc_forums (message_counts d)).
Proof.
  intros H.
  destruct (get_digest_run _ _ _ _ _ H)
    as (client & w1 & unread & evs & Hc & Hu & _ & Hrun).
  injection Hc as <-.
  destruct (shipped_listing _ _ _ Hu) as (dialogs & _ & ->).
  destruct (digest_run_counts _ _ _ _ Hrun) as (Hd & Hg & Hf).
  pose proof (unread_summary_item dialogs) as Hitem. cbv zeta in Hitem.
  set (unread := telegram_client.unread_summary_of dialogs) in *.
  split.
  - rewrite Hd, Hg. apply Forall_forall. intros entry Hin.
    assert (Hi : exists item,
               In item (dms unread ++ groups unread ++ supergroups unread)
               /\ entry = count_entry item).
    { apply in_app_or in Hin. destruct Hin as [Hin | Hin].
      - destruct (dict_get (cfg_show_dm_counts CONFIG) true);
          [| destruct Hin].
        apply in_map_iff in Hin. destruct Hin as (item & <- & Hin).
        exists item. split; [| reflexivity]. apply in_or_app. now left.
      - apply in_map_iff in Hin. destruct Hin as (item & <- & Hin).
        apply filter_In in Hin. destruct Hin as (Hin & _).
        exists item. split; [| reflexivity].
        apply in_or_app. right. apply in_or_app. now left. }
    destruct Hi as (item & Hi & ->).
    destruct (Hitem item Hi) as (H1 & H2 & _). cbn. auto.
  - apply Forall_forall. intros forum Hin.
    destruct (Forall2_In_r _ _ _ _ Hf Hin) as (item & Hi & ts & _ & ->).
    apply filter_In in Hi. destruct Hi as (Hi & _).
    destruct (Hitem item) as (H1 & H2 & _); [| cbn; auto].
    apply in_or_app. right. apply in_or_app. now right.
Qed.

End ShippedRequest.

(** ** A configuration written by the setup wizard *)

Lemma get_group_config_in_no_type (gs : list GroupConfig)
    (group_name : string) :
  Forall (fun group => gc_type group = None) gs ->
  get_group_config_in gs group_name = None.
Proof.
  induction 1 as [| group rest Hg _ IH]; [reflexivity |].
  cbn [get_group_config_in]. rewrite Hg, IH.
  now destruct (same_name (gc_name group) group_name).
Qed.

(** X26. The group entries the setup wizard builds never carry a direct
    style.  With a configuration made of such entries [get_group_config]
    finds nothing for any name, no plain group is eligible, and no request
    fetches the messages of a plain group, whatever the source lists. *)
Theorem wizard_groups_are_never_summarised :
  Forall
    (fun group =>
       exists group_name topics default_type,
         group = wizard_group group_name topics default_type)
    config_groups ->
  (forall group_name, get_group_config group_name = None)
  /\ (forall group summary_type, ~ group_eligible group summary_type)
  /\ forall (client : TelegramDigestClient World) (since_hours : Z)
            (st : St),
       Forall (fun ev => is_chat_fetch ev = false)
         (new_calls st (fst (get_digest (Some client) since_hours st))).
Proof.
  intros Hw.
  assert (Hnone : forall group_name, get_group_config group_name = None).
  { intros group_name. apply get_group_config_in_no_type.
    eapply Forall_impl; [| exact Hw].
    intros group (n & ts & dt & ->). reflexivity. }
  splits; [exact Hnone | |].
  - intros group ty (_ & p & Hp & _). rewrite Hnone in Hp. discriminate.
  - intros client since_hours st. apply logs_new_calls.
    cbn [get_digest]. intros st0. unfold digest_request.
    assert (H : logs (fun ev => is_chat_fetch ev = false)
                  (bind (call_get_unread_summary client)
                     (fun unread => assemble client since_hours unread))).
    { apply logs_bind; [apply logs_external; reflexivity |].
      intros unread. unfold assemble.
      apply logs_bind;
        [apply logs_for_each; intros; apply logs_forum_body;
         intros; reflexivity |].
      intros forums. apply logs_bind.
      - apply logs_for_each. intros u group st1. unfold group_body.
        rewrite Hnone.
        destruct (is_excluded_group (item_name group));
          (exists []; cbn; now rewrite app_nil_r).
      - intros _ st1. exists []. cbn. now rewrite app_nil_r. }
    exact (H (mkSt (world st0) (calls st0) [] [])).
Qed.

(** ** The health endpoint *)

Lemma request_starts_with_listing (client : TelegramDigestClient World)
    (since_hours : Z) (st : St) :
  exists r evs,
    calls (fst (get_digest (Some client) since_hours st))
    = calls st ++ EvUnreadSummary r :: evs.
Proof.
  cbn [get_digest]. unfold digest_request, call_get_unread_summary.
  unfold bind at 1. rewrite external_run. cbn [world].
  destruct (get_unread_summary client (world st)) as [w1 [unread | e]];
    cbn [fst snd].
  - match goal with
    | |- context [assemble _ _ _ ?s] =>
        destruct (calls_grow (assemble client since_hours unread) s)
          as (evs & Hg)
    end.
    { apply logs_assemble; auto. }
    rewrite Hg. cbn [extend calls]. rewrite <- app_assoc.
    exists (Ret unread), evs. reflexivity.
  - exists (Raise e), []. reflexivity.
Qed.

(** X27. The health endpoint reports that Telegram is not connected
    exactly when a digest request fails at once with the error "Telegram
    client not connected" and calls nothing; when it reports a connection,
    every request starts with the conversation listing. *)
Theorem health_agrees_with_digest
    (tg_client : option (TelegramDigestClient World)) (since_hours : Z)
    (st : St) :
  fst (health tg_client) = "ok"
  /\ (snd (health tg_client) = false
      <-> get_digest tg_client since_hours st
          = (st, Raise (mkExn "500: Telegram client not connected")))
  /\ (snd (health tg_client) = true
      <-> exists r evs,
            new_calls st (fst (get_digest tg_client since_hours st))
            = EvUnreadSummary r :: evs).
Proof.
  splits; [reflexivity | |]; destruct tg_client as [client |]; cbn [health snd].
  - split; [discriminate |]. intros H. exfalso.
    destruct (request_starts_with_listing client since_hours st)
      as (r & evs & Hc).
    rewrite H in Hc. cbn [fst] in Hc. symmetry in Hc.
    now apply app_cons_neq in Hc.
  - split; reflexivity.
  - split; [intros _ | reflexivity].
    destruct (request_starts_with_listing client since_hours st)
      as (r & evs & Hc).
    exists r, evs. unfold new_calls.
    now rewrite Hc, skipn_app, skipn_all, Nat.sub_diag.
  - split; [discriminate |]. intros (r & evs & H). exfalso.
    cbn [get_digest] in H. unfold raise, new_calls in H. cbn [fst] in H.
    rewrite skipn_all in H. discriminate.
Qed.

Lemma wizard_topic_resolves (gs : list GroupConfig)
    (group_name topic_name : string) :
  Forall
    (fun group =>
       exists name topics default_type,
         group = wizard_group name topics default_type)
    gs ->
  existsb (fun group => same_name (gc_name group) group_name) gs = true ->
  exists group_name' topics default_type before after policy,
    gs = before ++ wizard_group group_name' topics default_type :: after
    /\ same_name group_name' group_name = true
    /\ (forall group, In group before ->
                      same_name (gc_name group) group_name = false)
    /\ get_topic_config_in gs group_name topic_name = Some policy
    /\ (In policy (map wizard_topic topics)
        \/ policy = mkTopicConfig topic_name (Some default_type) (Some 1)).
Proof.
  induction 1 as [| group rest (n & ts & dt & ->) _ IH];
    cbn [existsb]; [discriminate |].
  assert (Hstep : get_topic_config_in (wizard_group n ts dt :: rest)
                    group_name topic_name
                  = if same_name n group_name then
                      match find_topic (wizard_group n ts dt) topic_name with
                      | Some topic => Some topic
                      | None =>
                          Some (mkTopicConfig topic_name (Some dt) (Some 1))
                      end
                    else get_topic_config_in rest group_name topic_name)
    by reflexivity.
  cbn [gc_name wizard_group]. fold (wizard_group n ts dt).
  destruct (same_name n group_name) eqn:En; cbn [orb].
  - intros _.
    destruct (find_topic (wizard_group n ts dt) topic_name)
      as [topic |] eqn:Hf.
    + exists n, ts, dt, [], rest, topic. splits.
      * reflexivity.
      * exact En.
      * intros g [].
      * exact Hstep.
      * left. unfold find_topic in Hf. apply find_some in Hf.
        exact (proj1 Hf).
    + exists n, ts, dt, [], rest. eexists. splits.
      * reflexivity.
      * exact En.
      * intros g [].
      * exact Hstep.
      * now right.
  - intros Hex.
    destruct (IH Hex) as (n' & ts' & dt' & before & after & policy & -> & Hn
                          & Hb & Hp & Hor).
    exists n', ts', dt', (wizard_group n ts dt :: before), after, policy.
    splits.
    + reflexivity.
    + exact Hn.
    + intros g [<- | Hin]; auto.
    + rewrite <- Hp. exact Hstep.
    + exact Hor.
Qed.

(** X28. With a configuration made of entries of the setup wizard that
    each list at least one topic, every topic of a configured forum resolves
    to a policy, decided by the first entry whose name matches: a topic the
    wizard listed there, or the entry's type for the other topics with
    threshold 1.  The policy always carries a style and a threshold; the
    threshold of a listed topic of style "skip" is 1.  (For a group without
    topics the wizard writes the [topics] key with no value; the file then
    holds a null there, which is no topic list, and such an entry is outside
    this statement.) *)
Theorem wizard_topics_always_resolve (group_name topic_name : string) :
  Forall
    (fun group =>
       exists name topics default_type,
         topics <> []
         /\ group = wizard_group name topics default_type)
    config_groups ->
  is_configured_group group_name = true ->
  exists group_name' topics default_type before after policy style threshold,
    config_groups
    = before ++ wizard_group group_name' topics default_type :: after
    /\ same_name group_name' group_name = true
    /\ (forall group, In group before ->
                      same_name (gc_name group) group_name = false)
    /\ get_topic_config group_name topic_name = Some policy
    /\ tc_type policy = Some style
    /\ tc_threshold policy = Some threshold
    /\ ((exists answer,
           In answer topics /\ policy = wizard_topic answer
           /\ (style = "skip" -> threshold = 1))
        \/ (policy = mkTopicConfig topic_name (Some default_type) (Some 1)
            /\ forall answer, In answer topics ->
                 same_name (ta_name answer) topic_name = false)).
Proof.
  intros Hw Hc. unfold get_topic_config.
  assert (Hw' : Forall
                  (fun group =>
                     exists name topics default_type,
                       group = wizard_group name topics default_type)
                  config_groups).
  { eapply Forall_impl; [| exact Hw].
    intros group (name & topics & default_type & _ & ->). eauto. }
  clear Hw. rename Hw' into Hw.
  destruct (wizard_topic_resolves _ group_name topic_name Hw Hc)
    as (n & ts & dt & before & after & policy & Hgs & Hn & Hb & Hp & Hor).
  assert (Hdec : get_topic_config_in config_groups group_name topic_name
                 = match find_topic (wizard_group n ts dt) topic_name with
                   | Some topic => Some topic
                   | None => Some (mkTopicConfig topic_name (Some dt) (Some 1))
                   end).
  { rewrite Hgs. clear Hgs Hp Hw Hc.
    induction before as [| g before IH]; cbn [app get_topic_config_in].
    - cbn [gc_name wizard_group gc_default_type]. rewrite Hn. reflexivity.
    - rewrite (Hb g (in_eq _ _)). apply IH.
      intros g' Hin. apply Hb. now right. }
  rewrite Hp in Hdec.
  destruct (find_topic (wizard_group n ts dt) topic_name) as [topic |] eqn:Hf.
  - injection Hdec as ->.
    unfold find_topic in Hf. apply find_some in Hf. destruct Hf as (Hin & _).
    cbn [wizard_group gc_topics dict_get] in Hin. apply in_map_iff in Hin.
    destruct Hin as (answer & <- & Hin).
    exists n, ts, dt, before, after, (wizard_topic answer), (ta_type answer),
      (if negb (String.eqb (ta_type answer) "skip") then ta_threshold answer
       else 1).
    splits; try reflexivity; try assumption.
    left. exists answer. splits; auto.
    intros ->. reflexivity.
  - injection Hdec as ->.
    exists n, ts, dt, before, after,
      (mkTopicConfig topic_name (Some dt) (Some 1)), dt, 1.
    splits; try reflexivity; try assumption.
    right. split; [reflexivity |]. intros answer Hin.
    unfold find_topic in Hf.
    apply (find_none _ _ Hf (wizard_topic answer)).
    cbn [wizard_group gc_topics dict_get]. now apply in_map.
Qed.
End Digest.

(** * Concrete runs

    The theorems above applied to the sample configuration and source, with
    [ascii_lower] as the lowering function and a stateless world. *)

Ltac in_cases H :=
  vm_compute in H; repeat (destruct H as [<- | H]); try contradiction.

Ltac differ := let E := fresh in intro E; vm_compute in E; discriminate E.

Lemma get_topic_config_resolution_witness :
  get_topic_config ascii_lower ex_config "team" "ENG" = Some ex_eng_topic
  /\ get_topic_config ascii_lower ex_config "TEAM" "Random"
     = Some (mkTopicConfig "Random" (Some "skip") (Some 1))
  /\ get_topic_config ascii_lower ex_config "Guild" "General" = None.
Proof.
  split; [| split].
  - apply (proj1 (get_topic_config_resolution ascii_lower ex_config
                    "team" "ENG")
             [] ex_team_entry [ex_chat_entry] [] ex_eng_topic
             (tl ex_team_topics)); try reflexivity; intros x Hx; in_cases Hx.
  - apply (proj1 (proj2 (get_topic_config_resolution ascii_lower ex_config
                           "TEAM" "Random"))
             [] ex_team_entry [ex_chat_entry] "skip"); try reflexivity;
      intros x Hx; in_cases Hx; differ.
  - apply (proj2 (proj2 (get_topic_config_resolution ascii_lower ex_config
                           "Guild" "General"))).
    intros g Hg. in_cases Hg; differ.
Defined.

(** C4, as stated, fails when two entries carry the same conversation name.
    In the first configuration an entry "Team" with only a default style
    comes before the entry "Team" that lists the topic "Eng": a matching
    entry has a matching topic, and the lookup returns no configured topic
    entry but the synthesized policy.  In the second the first entry "Team"
    has neither a topic "Eng" nor a default style, and the lookup does not
    return none: it goes on to the next entry of that name. *)
Lemma get_topic_config_passes_over_same_name_entries :
  ~ (forall CONFIG group_name topic_name group topic,
       In group (config_groups CONFIG) ->
       ascii_lower (gc_name group) = ascii_lower group_name ->
       In topic (dict_get (gc_topics group) []) ->
       ascii_lower (tc_name topic) = ascii_lower topic_name ->
       exists group' topic',
         In group' (config_groups CONFIG)
         /\ In topic' (dict_get (gc_topics group') [])
         /\ get_topic_config ascii_lower CONFIG group_name topic_name
            = Some topic')
  /\ ~ (forall CONFIG group_name topic_name before group after,
          config_groups CONFIG = (before ++ group :: after)%list ->
          (forall g, In g before ->
             ascii_lower (gc_name g) <> ascii_lower group_name) ->
          ascii_lower (gc_name group) = ascii_lower group_name ->
          (forall t, In t (dict_get (gc_topics group) []) ->
             ascii_lower (tc_name t) <> ascii_lower topic_name) ->
          gc_default_type group = None ->
          get_topic_config ascii_lower CONFIG group_name topic_name = None).
Proof.
  split.
  - intros H.
    destruct (H ex_config_shadowed "Team" "Eng"
                (mkGroupConfig "Team" (Some [ex_eng_topic]) None None None)
                ex_eng_topic)
      as (group' & topic' & Hg & Ht & Hr).
    + right. left. reflexivity.
    + reflexivity.
    + left. reflexivity.
    + reflexivity.
    + vm_compute in Hr. injection Hr as <-.
      vm_compute in Hg. destruct Hg as [<- | [<- | []]].
      * destruct Ht.
      * vm_compute in Ht. destruct Ht as [Ht | []]. discriminate Ht.
  - intros H.
    specialize (H ex_config_split "Team" "Eng" []
                  (mkGroupConfig "Team"
                     (Some [mkTopicConfig "Ops" (Some "logistics") (Some 1)])
                     None None None)
                  [mkGroupConfig "Team" (Some [ex_eng_topic]) None None None]
                  eq_refl).
    assert (Hr : get_topic_config ascii_lower ex_config_split "Team" "Eng"
                 = None).
    { apply H.
      - intros g [].
      - reflexivity.
      - intros t [<- | []]. vm_compute. discriminate.
      - reflexivity. }
    vm_compute in Hr. discriminate Hr.
Qed.

Lemma get_group_config_resolution_witness :
  get_group_config ascii_lower ex_config "CHAT" = Some ex_chat_entry
  /\ get_group_config ascii_lower ex_config "team" = None.
Proof.
  split.
  - apply (proj1 (get_group_config_resolution ascii_lower ex_config "CHAT")
             [ex_team_entry] ex_chat_entry []); try reflexivity.
    + intros g Hg _. in_cases Hg. reflexivity.
    + discriminate.
  - apply (proj1 (proj2 (get_group_config_resolution ascii_lower ex_config
                           "team"))).
    intros g Hg. in_cases Hg; [reflexivity | differ].
Defined.

(** C5, as stated, fails: the entry returned for "Team" carries a topic
    list, and "Team" is a name whose only entry carries a topic list. *)
Lemma get_group_config_returns_entry_with_topics :
  ~ (forall group_name group,
       get_group_config ascii_lower ex_config_both group_name = Some group ->
       gc_topics group = None).
Proof.
  intros H. specialize (H "Team" ex_both_entry eq_refl). discriminate H.
Qed.

Lemma summarise_short_circuits_witness :
  summarise "Marta" [] unit ex_create [] "Memes" "memes" (mkSt unit tt [] [] [])
  = (mkSt unit tt [] [] [], Ret (Some "No memes to report.")).
Proof.
  apply (proj2 (proj2 (proj2 (proj2 (proj2
           (summarise_short_circuits "Marta" [] unit ex_create []
              "Memes" "memes" (mkSt unit tt [] [] []))))))).
  discriminate.
Defined.

Lemma excluded_conversation_never_appears_witness :
  exists st' d,
    get_digest ascii_lower ex_config "Marta" [] unit ex_create
      (Some ex_client) 24 (mkSt unit tt [] [] []) = (st', Ret d)
    /\ (forall e, In e (mc_groups (message_counts d)) -> ce_name e <> "Hidden")
    /\ (forall fd, In fd (mc_forums (message_counts d)) ->
          fd_name fd <> "Hidden")
    /\ (forall r, In r (summaries d) -> sr_group r <> "Hidden").
Proof.
  eexists. eexists. split.
  - vm_compute. reflexivity.
  - eapply (excluded_conversation_never_appears ascii_lower ex_config
             "Marta" [] unit ex_create (Some ex_client) 24
             (mkSt unit tt [] [] []) _ _ "hidden" "Hidden").
    + vm_compute. reflexivity.
    + left. reflexivity.
    + reflexivity.
Defined.

Lemma topic_summarised_only_when_eligible_witness :
  topic_body ascii_lower ex_config "Marta" [] unit ex_create ex_client 24
    "Team" 20 [] (mkTopic 6 "Low" (Some 3)) (mkSt unit tt [] [] [])
  = (mkSt unit tt [] [] [], Ret [mkCount "Low" 3])
  /\ exists st' d topics,
       get_digest ascii_lower ex_config "Marta" [] unit ex_create
         (Some ex_client) 24 (mkSt unit tt [] [] []) = (st', Ret d)
       /\ In (EvGroupTopics 20 (Ret topics))
            (new_calls unit (mkSt unit tt [] [] []) st')
       /\ In (mkForumData "Team" 25
               (map (fun topic =>
                       mkCount (topic_title topic)
                         (dict_get (topic_unread_count topic) 0))
                    topics))
            (mc_forums (message_counts d))
       /\ In (mkTopic 6 "Low" (Some 3)) topics.
Proof.
  split.
  - destruct (proj1 (topic_summarised_only_when_eligible ascii_lower
                       ex_config "Marta" [] unit ex_create)
                ex_client 24 "Team" 20 [] (mkTopic 6 "Low" (Some 3))
                (mkSt unit tt [] [] [])) as (st' & Hb & _ & Hlow).
    rewrite (Hlow (mkTopicConfig "Low" (Some "technical") (Some 50))
               eq_refl eq_refl) in Hb.
    exact Hb.
  - destruct (get_digest ascii_lower ex_config "Marta" [] unit ex_create
                (Some ex_client) 24 (mkSt unit tt [] [] []))
      as [st' [d | e]] eqn:H; [| vm_compute in H; discriminate H].
    destruct (proj2 (topic_summarised_only_when_eligible ascii_lower
                       ex_config "Marta" [] unit ex_create)
                (Some ex_client) 24 (mkSt unit tt [] [] []) st' d H)
      as (unread & evs & Hnew & _ & _ & _ & Hlisted).
    vm_compute in H. injection H as Hst Hd. subst st' d.
    vm_compute in Hnew. injection Hnew as Hunread Hevs. subst unread evs.
    destruct (Hlisted (mkItem 20 "Team" 25)) as (topics & Hev & Hfd).
    + vm_compute. tauto.
    + reflexivity.
    + eexists. eexists. exists topics.
      split; [reflexivity |]. split; [| split].
      * right. exact Hev.
      * exact Hfd.
      * vm_compute in Hev.
        repeat (destruct Hev as [Hev | Hev];
                [try discriminate Hev;
                 injection Hev as <-; vm_compute; tauto |]).
        contradiction.
Defined.

Lemma unconfigured_conversation_counts_only_witness :
  topic_body ascii_lower ex_config "Marta" [] unit ex_create ex_client 24
    "Guild" 21 [] (mkTopic 1 "General" (Some 6)) (mkSt unit tt [] [] [])
  = (mkSt unit tt [] [] [], Ret [mkCount "General" 6]).
Proof.
  apply (proj1 (proj2 (unconfigured_conversation_counts_only ascii_lower
                         ex_config "Marta" [] unit ex_create))
           ex_client 24 "Guild" 21 [] (mkTopic 1 "General" (Some 6))
           (mkSt unit tt [] [] [])).
  reflexivity.
Defined.

(** C3, as stated, fails: the group "Hidden" and the forum "HIDDEN" are
    listed with unread messages and match no group entry, but they are in
    the exclusion list and the digest reports no count for them. *)
Lemma excluded_unconfigured_conversation_has_no_count :
  exists st' d,
    get_digest ascii_lower ex_config "Marta" [] unit ex_create
      (Some ex_client) 24 (mkSt unit tt [] [] []) = (st', Ret d)
    /\ In (mkItem 11 "Hidden" 7) (groups ex_unread)
    /\ is_configured_group ascii_lower ex_config "Hidden" = false
    /\ ~ (exists e,
            In e (mc_groups (message_counts d)) /\ ce_name e = "Hidden")
    /\ In (mkItem 22 "HIDDEN" 9) (supergroups ex_unread)
    /\ is_configured_group ascii_lower ex_config "HIDDEN" = false
    /\ ~ (exists fd,
            In fd (mc_forums (message_counts d)) /\ fd_name fd = "HIDDEN").
Proof.
  eexists. eexists. split; [vm_compute; reflexivity |].
  split; [vm_compute; tauto |]. split; [reflexivity |].
  split; [intros (e & Hin & He); in_cases Hin; discriminate He |].
  split; [vm_compute; tauto |]. split; [reflexivity |].
  intros (fd & Hin & Hfd). in_cases Hin; discriminate Hfd.
Qed.

Lemma direct_messages_hidden_and_never_summarised_witness :
  exists st' d,
    get_digest ascii_lower ex_config "Marta" [] unit ex_create
      (Some ex_client) 24 (mkSt unit tt [] [] []) = (st', Ret d)
    /\ dms ex_unread = [mkItem 1 "Alice" 2; mkItem 2 "Bob" 1]
    /\ mc_dms (message_counts d) = [].
Proof.
  eexists. eexists. split; [vm_compute; reflexivity |].
  split; [reflexivity |].
  eapply (proj1 (direct_messages_hidden_and_never_summarised ascii_lower
                   ex_config "Marta" [] unit ex_create)
            (Some ex_client) 24 (mkSt unit tt [] [] [])).
  - reflexivity.
  - vm_compute. reflexivity.
Defined.

Lemma empty_window_appends_nothing_witness :
  topic_body ascii_lower ex_config "Marta" [] unit ex_create ex_client 24
    "Team" 20 [] (mkTopic 5 "Quiet" (Some 1)) (mkSt unit tt [] [] [])
  = (mkSt unit tt [EvTopicMessages 20 5 100 24 (Ret [])] [] [],
     Ret [mkCount "Quiet" 1]).
Proof.
  apply (proj1 (empty_window_appends_nothing ascii_lower ex_config
                  "Marta" [] unit ex_create)
           ex_client 24 "Team" 20 [] (mkTopic 5 "Quiet" (Some 1)) "logistics"
           (mkSt unit tt [] [] []) tt).
  - split; [reflexivity |].
    exists (mkTopicConfig "Quiet" (Some "logistics") (Some 1)).
    split; [reflexivity |]. split; [reflexivity |].
    split; [discriminate | vm_compute; discriminate].
  - reflexivity.
Defined.

Lemma unknown_style_falls_back_to_logistics_witness :
  topic_body ascii_lower ex_config "Marta" [] unit ex_create ex_client 24
    "Team" 20 [] (mkTopic 3 "Memes" (Some 4)) (mkSt unit tt [] [] [])
  = (mkSt unit tt
       [EvTopicMessages 20 3 100 24 (Ret [ex_message "only"]);
        EvCreate MODEL 800
          (logistics_prompt "Marta" []
             (format_messages_for_prompt [ex_message "only"]) "Memes")
          (Ret "generated text")]
       [mkSummary "Team" "Memes" "bogus-style" 1 "generated text"] [],
     Ret [mkCount "Memes" 4]).
Proof.
  assert (Hty : ~ In "bogus-style"
                    ["technical"; "memes"; "logistics"; "invites"; "skip"]).
  { intros H. cbn in H.
    repeat (destruct H as [H | H]; [discriminate H |]). exact H. }
  assert (Hne : [ex_message "only"] <> []) by discriminate.
  apply (proj1 (proj2 (unknown_style_falls_back_to_logistics ascii_lower
                         ex_config "Marta" [] unit ex_create
                         "bogus-style" [ex_message "only"] Hty Hne))
           ex_client 24 "Team" 20 [] (mkTopic 3 "Memes" (Some 4))
           (mkSt unit tt [] [] []) tt tt "generated text").
  - split; [reflexivity |].
    exists (mkTopicConfig "Memes" (Some "bogus-style") (Some 1)).
    split; [reflexivity |]. split; [reflexivity |].
    split; [discriminate | vm_compute; discriminate].
  - reflexivity.
  - reflexivity.
  - discriminate.
Defined.

Lemma attempt_failure_is_isolated_witness :
  exists st' d evs,
    get_digest ascii_lower ex_config "Marta" [] unit ex_create
      (Some ex_client) 24 (mkSt unit tt [] [] []) = (st', Ret d)
    /\ new_calls unit (mkSt unit tt [] [] []) st'
       = EvUnreadSummary (Ret ex_unread) :: evs
    /\ length (errors d) = length (filter attempt_raised evs).
Proof.
  destruct (proj2 (proj2 (attempt_failure_is_isolated ascii_lower ex_config
                            "Marta" [] unit ex_create))
              ex_client 24 (mkSt unit tt [] [] []) tt ex_unread eq_refl)
    as (st' & d & evs & Hd & Hnew & Hlen & _).
  - intros w id. eexists. eexists. reflexivity.
  - exists st', d, evs. auto.
Defined.

(** C6, as stated, fails: in this run exactly one attempt raises (the fetch
    for Team/Ops), topic "Quiet" of the same forum is eligible, and no
    summary record for it is produced, because its window is empty. *)
Lemma eligible_sibling_with_empty_window_has_no_record :
  exists st' d,
    get_digest ascii_lower ex_config "Marta" [] unit ex_create
      (Some ex_client) 24 (mkSt unit tt [] [] []) = (st', Ret d)
    /\ length (filter attempt_raised (calls unit st')) = 1%nat
    /\ errors d = ["Error summarising Team/Ops: timeout"]
    /\ In (mkTopic 5 "Quiet" (Some 1)) (ex_topics 20)
    /\ topic_eligible ascii_lower ex_config "Team"
         (mkTopic 5 "Quiet" (Some 1)) "logistics"
    /\ ~ (exists r,
            In r (summaries d) /\ sr_group r = "Team"
            /\ sr_topic r = "Quiet").
Proof.
  eexists. eexists. split; [vm_compute; reflexivity |].
  split; [vm_compute; reflexivity |].
  split; [reflexivity |].
  split; [vm_compute; tauto |].
  split.
  - split; [reflexivity |].
    exists (mkTopicConfig "Quiet" (Some "logistics") (Some 1)).
    split; [reflexivity |]. split; [reflexivity |].
    split; [discriminate | vm_compute; discriminate].
  - intros (r & Hin & _ & Ht). in_cases Hin; discriminate Ht.
Qed.

(** * Concrete runs of the further properties

    The resolver, the request, the summariser, the identifiers and the
    shipped client on the samples. *)

Lemma resolved_policy_origin_witness :
  exists group,
    In group (config_groups ex_config)
    /\ ascii_lower (gc_name group) = ascii_lower "team"
    /\ ((In ex_eng_topic (dict_get (gc_topics group) [])
         /\ ascii_lower (tc_name ex_eng_topic) = ascii_lower "ENG")
        \/ (exists default_type,
              gc_default_type group = Some default_type
              /\ ex_eng_topic
                 = mkTopicConfig "ENG" (Some default_type) (Some 1)
              /\ forall t, In t (dict_get (gc_topics group) []) ->
                   ascii_lower (tc_name t) <> ascii_lower "ENG")).
Proof.
  apply (resolved_policy_origin ascii_lower ex_config "team" "ENG"
           ex_eng_topic).
  reflexivity.
Defined.

Lemma unconfigured_name_resolves_nothing_witness :
  (forall topic_name,
     get_topic_config ascii_lower ex_config "Guild" topic_name = None)
  /\ get_group_config ascii_lower ex_config "Guild" = None.
Proof.
  apply (unconfigured_name_resolves_nothing ascii_lower ex_config "Guild").
  reflexivity.
Defined.

Lemma lookups_ignore_case_witness :
  get_topic_config ascii_lower ex_config "TEAM" "Eng"
  = get_topic_config ascii_lower ex_config "team" "Eng"
  /\ is_excluded_group ascii_lower ex_config "HIDDEN"
     = is_excluded_group ascii_lower ex_config "Hidden".
Proof.
  split.
  - apply (proj1 (proj2 (proj2 (proj2
             (lookups_ignore_case ascii_lower ex_config "TEAM" "team"
                eq_refl))))).
  - apply (proj1 (lookups_ignore_case ascii_lower ex_config "HIDDEN"
                    "Hidden" eq_refl)).
Defined.

Lemma fetch_exactly_when_eligible_witness :
  calls unit
    (fst (topic_body ascii_lower ex_config "Marta" [] unit ex_create
            ex_client 24 "Team" 20 [] (mkTopic 1 "Eng" (Some 5))
            (mkSt unit tt [] [] [])))
  <> calls unit (mkSt unit tt [] [] [])
  /\ ~ (exists ty,
          group_eligible ascii_lower ex_config (mkItem 12 "Other" 3) ty).
Proof.
  split.
  - apply (proj1 (proj1 (fetch_exactly_when_eligible ascii_lower ex_config
                           "Marta" [] unit ex_create ex_client 24
                           (mkSt unit tt [] [] []))
                    "Team" 20 [] (mkTopic 1 "Eng" (Some 5)))).
    exists "technical". split; [reflexivity |].
    exists ex_eng_topic. split; [reflexivity |]. split; [reflexivity |].
    split; [discriminate | vm_compute; discriminate].
  - intros H.
    apply (proj1 (proj2 (fetch_exactly_when_eligible ascii_lower ex_config
                           "Marta" [] unit ex_create ex_client 24
                           (mkSt unit tt [] [] []))
                    (mkItem 12 "Other" 3))) in H.
    apply H. reflexivity.
Defined.

Lemma policy_missing_keys_witness :
  topic_body ascii_lower ex_config_sparse "Marta" [] unit ex_create ex_client
    24 "Team" 20 [] (mkTopic 1 "NoType" (Some 9)) (mkSt unit tt [] [] [])
  = (mkSt unit tt [] [] [], Ret [mkCount "NoType" 9])
  /\ (exists r rest,
        calls unit
          (fst (topic_body ascii_lower ex_config_sparse "Marta" [] unit
                  ex_create ex_client 24 "Team" 20 []
                  (mkTopic 2 "NoThreshold" (Some 1))
                  (mkSt unit tt [] [] [])))
        = (calls unit (mkSt unit tt [] [] [])
             ++ EvTopicMessages 20 2 100 24 r :: rest)%list)
  /\ topic_body ascii_lower ex_config_sparse "Marta" [] unit ex_create
       ex_client 24 "Team" 20 [] (mkTopic 2 "NoThreshold" (Some 0))
       (mkSt unit tt [] [] [])
     = (mkSt unit tt [] [] [], Ret [mkCount "NoThreshold" 0])
  /\ exists ty,
       Some "logistics" = Some ty
       /\ (ty <> "skip" ->
           1 <= 1 ->
           exists r rest,
             calls unit
               (fst (group_body ascii_lower ex_config_sparse "Marta" [] unit
                       ex_create ex_client 24 tt (mkItem 10 "chat" 1)
                       (mkSt unit tt [] [] [])))
             = (calls unit (mkSt unit tt [] [] [])
                  ++ EvChatMessages 10 100 24 r :: rest)%list)
       /\ (ty = "skip" \/ 1 < 1 ->
           group_body ascii_lower ex_config_sparse "Marta" [] unit ex_create
             ex_client 24 tt (mkItem 10 "chat" 1) (mkSt unit tt [] [] [])
           = (mkSt unit tt [] [] [], Ret tt)).
Proof.
  split; [| split; [| split]].
  - apply (proj1 (policy_missing_keys ascii_lower ex_config_sparse "Marta"
                    [] unit ex_create ex_client 24 (mkSt unit tt [] [] []))
             "Team" 20 [] (mkTopic 1 "NoType" (Some 9))
             (mkTopicConfig "NoType" None (Some 1))); reflexivity.
  - apply (proj1 (proj1 (proj2
             (policy_missing_keys ascii_lower ex_config_sparse "Marta" []
                unit ex_create ex_client 24 (mkSt unit tt [] [] [])))
             "Team" 20 [] (mkTopic 2 "NoThreshold" (Some 1))
             (mkTopicConfig "NoThreshold" (Some "technical") None)
             "technical" eq_refl eq_refl eq_refl
             ltac:(discriminate) eq_refl)).
    vm_compute. discriminate.
  - apply (proj2 (proj1 (proj2
             (policy_missing_keys ascii_lower ex_config_sparse "Marta" []
                unit ex_create ex_client 24 (mkSt unit tt [] [] [])))
             "Team" 20 [] (mkTopic 2 "NoThreshold" (Some 0))
             (mkTopicConfig "NoThreshold" (Some "technical") None)
             "technical" eq_refl eq_refl eq_refl
             ltac:(discriminate) eq_refl)).
    reflexivity.
  - apply (proj2 (proj2
             (policy_missing_keys ascii_lower ex_config_sparse "Marta" []
                unit ex_create ex_client 24 (mkSt unit tt [] [] [])))
             (mkItem 10 "chat" 1)
             (mkGroupConfig "Chat" None None (Some "logistics") None));
      reflexivity.
Defined.

Lemma request_fails_only_at_a_listing_witness :
  exists evs ev,
    new_calls unit (mkSt unit tt [] [] [])
      (mkSt unit tt [EvUnreadSummary (Raise (mkExn "flood wait"))] [] [])
    = (evs ++ [ev])%list
    /\ listing_raised (mkExn "flood wait") ev.
Proof.
  destruct (proj1 (request_fails_only_at_a_listing ascii_lower ex_config
                     "Marta" [] unit ex_create (Some ex_client_down) 24
                     (mkSt unit tt [] [] [])
                     (mkSt unit tt
                        [EvUnreadSummary (Raise (mkExn "flood wait"))]
                        [] []))
              (mkExn "flood wait") eq_refl) as [[H _] | H].
  - discriminate H.
  - exact H.
Defined.

Lemma request_budget_witness :
  exists st' d,
    get_digest ascii_lower ex_config "Marta" [] unit ex_create
      (Some ex_client) 24 (mkSt unit tt [] [] []) = (st', Ret d)
    /\ (let evs := new_calls unit (mkSt unit tt [] [] []) st' in
        length (filter is_topic_listing evs)
        = length (mc_forums (message_counts d))
        /\ (length (filter is_create evs) <= length (filter is_fetch evs))%nat
        /\ (length (summaries d) + length (errors d)
            <= length (filter is_fetch evs))%nat
        /\ (length (summaries d) <= length (filter is_create evs))%nat).
Proof.
  eexists. eexists. split; [vm_compute; reflexivity |].
  eapply (request_budget ascii_lower ex_config "Marta" [] unit ex_create
            (Some ex_client) 24 (mkSt unit tt [] [] [])).
  vm_compute. reflexivity.
Defined.

Lemma counts_follow_the_listing_witness :
  exists st' d unread,
    get_digest ascii_lower ex_config_both "Marta" [] unit ex_create
      (Some ex_client) 24 (mkSt unit tt [] [] []) = (st', Ret d)
    /\ mc_dms (message_counts d)
       = map (fun i => mkCount (item_name i) (item_unread_count i))
           (dms unread)
    /\ mc_groups (message_counts d)
       = map (fun i => mkCount (item_name i) (item_unread_count i))
           (filter
              (fun g =>
                 negb (is_excluded_group ascii_lower ex_config_both
                         (item_name g)))
              (groups unread)).
Proof.
  destruct (get_digest ascii_lower ex_config_both "Marta" [] unit ex_create
              (Some ex_client) 24 (mkSt unit tt [] [] []))
    as [st' [d | e]] eqn:H; [| vm_compute in H; discriminate H].
  destruct (counts_follow_the_listing ascii_lower ex_config_both "Marta" []
              unit ex_create (Some ex_client) 24 (mkSt unit tt [] [] [])
              st' d H) as (unread & evs & _ & Hdm & Hg & _).
  exists st', d, unread. split; [reflexivity |].
  split; [apply Hdm; discriminate | exact Hg].
Defined.

Lemma digest_is_idempotent_witness :
  snd (get_digest ascii_lower ex_config "Marta" [] unit ex_create
         (Some ex_client) 24 (mkSt unit tt [] [] []))
  = snd (get_digest ascii_lower ex_config "Marta" [] unit ex_create
           (Some ex_client) 24
           (mkSt unit tt [EvUnreadSummary (Raise (mkExn "earlier"))] []
              ["Error summarising chat: earlier"]))
  /\ new_calls unit (mkSt unit tt [] [] [])
       (fst (get_digest ascii_lower ex_config "Marta" [] unit ex_create
               (Some ex_client) 24 (mkSt unit tt [] [] [])))
     = new_calls unit
         (mkSt unit tt [EvUnreadSummary (Raise (mkExn "earlier"))] []
            ["Error summarising chat: earlier"])
         (fst (get_digest ascii_lower ex_config "Marta" [] unit ex_create
                 (Some ex_client) 24
                 (mkSt unit tt [EvUnreadSummary (Raise (mkExn "earlier"))] []
                    ["Error summarising chat: earlier"]))).
Proof.
  apply (digest_is_idempotent ascii_lower ex_config "Marta" [] unit
           ex_create ex_client 24).
  - split; [| split; [| split]]; intros [] []; intros; reflexivity.
  - intros [] []; intros; reflexivity.
Defined.

Lemma prompt_text_empty_iff_witness :
  format_messages_for_prompt
    [mkMessage (Some 1) None (Some "Bob") (Some EmptyString) (Some false)
       None;
     mkMessage (Some 2) None None None None (Some 1)]
  = EmptyString.
Proof.
  apply (proj2 (prompt_text_empty_iff _)). reflexivity.
Defined.

Lemma nonempty_window_makes_one_generation_call_witness :
  exists (max_tokens : Z) (prompt_of : string -> string),
    In max_tokens [1000; 800; 500]
    /\ forall (messages' : list Message) (st : St unit),
         messages' <> [] ->
         let prompt := prompt_of (format_messages_for_prompt messages') in
         let reply := ex_create (world unit st) MODEL max_tokens prompt in
         summarise "Marta" [] unit ex_create messages' "Memes" "memes" st
         = (mkSt unit (fst reply)
              (calls unit st
                 ++ [EvCreate MODEL max_tokens prompt (snd reply)])%list
              (st_summaries unit st) (st_errors unit st),
            match snd reply with
            | Ret text => Ret (Some text)
            | Raise e => Raise e
            end).
Proof.
  apply (nonempty_window_makes_one_generation_call "Marta" [] unit ex_create
           [ex_message "hi"] "Memes" "memes"); discriminate.
Defined.

Lemma setup_identifiers_round_trip_witness :
  identifiers_of_env (fun s => s)
    (Some (setup_identifiers "Marta" "marta_t"))
  = ["Marta"; "marta_t"]
  /\ first_identifier (fun s => s)
       (Some (setup_identifiers "Marta" "marta_t"))
     = Some "Marta".
Proof.
  apply (setup_identifiers_round_trip (fun s => s) "Marta" "marta_t");
    try reflexivity;
    intros H; cbn in H;
    repeat (destruct H as [H | H]; [discriminate H |]); exact H.
Defined.

Lemma listed_conversations_are_unread_witness :
  item_unread_count (mkItem 20 "Team" 25) <> 0
  /\ item_name (mkItem 20 "Team" 25) <> EmptyString
  /\ exists dialog,
       In dialog ex_dialogs
       /\ telegram_client.dialog_archived dialog = false
       /\ item_id (mkItem 20 "Team" 25)
          = telegram_client.entity_id (telegram_client.dialog_entity dialog).
Proof.
  apply (proj1 (listed_conversations_are_unread ex_dialogs)
           (mkItem 20 "Team" 25)).
  vm_compute. tauto.
Defined.

Lemma window_is_recent_prefix_witness :
  snd (telegram_client.get_chat_messages unit ex_isoformat ex_telegram tt
         10 100 24)
  = Ret (map (telegram_client.chat_message_data ex_isoformat)
           [ex_tl_message 103 100 "newest"; ex_tl_message 102 90 "newer"])
  /\ snd (telegram_client.get_topic_messages unit ex_isoformat
            ex_telegram_failing tt 20 1 100 24)
     = Ret [].
Proof.
  split.
  - apply (proj2 (window_is_recent_prefix unit ex_isoformat ex_telegram tt tt
                    10 100 24 50 (telegram_client.Chat 10) eq_refl eq_refl)).
  - apply (proj1 (window_is_recent_prefix unit ex_isoformat
                    ex_telegram_failing tt tt 20 100 24 50
                    (telegram_client.Chat 20) eq_refl eq_refl) 1).
Defined.

Lemma topic_listing_is_all_or_nothing_witness :
  exists topics,
    snd (telegram_client.get_group_topics unit ex_isoformat
           ex_telegram_deleted_topic tt 20 false)
    = Ret topics
    /\ topics = [].
Proof.
  destruct (topic_listing_is_all_or_nothing unit ex_isoformat
              ex_telegram_deleted_topic tt 20) as (topics & H & _ & Hnone).
  exists topics. split; [exact H |].
  apply (Hnone tt (telegram_client.Channel 20 (Some true)) tt
           [ telegram_client.mkForumTopic 1 (Some "Eng") (Some 5);
             telegram_client.mkForumTopic 2 None None ]
           (telegram_client.mkForumTopic 2 None None) eq_refl eq_refl).
  - right. left. reflexivity.
  - reflexivity.
Defined.

Lemma shipped_errors_come_from_generation_witness :
  exists st' d,
    get_digest ascii_lower ex_config "Marta" [] unit ex_create_failing
      (Some (telegram_client.digest_client unit ex_isoformat ex_telegram))
      24 (mkSt unit tt [] [] []) = (st', Ret d)
    /\ length (errors d) = 3%nat
    /\ Forall (fun ev => source_raised ev = false)
         (new_calls unit (mkSt unit tt [] [] []) st')
    /\ forall e,
         In e (errors d) ->
         exists where_ model max_tokens prompt exn,
           e = error_message where_ exn
           /\ In (EvCreate model max_tokens prompt (Raise exn))
                (new_calls unit (mkSt unit tt [] [] []) st').
Proof.
  eexists. eexists. split; [vm_compute; reflexivity |].
  split; [reflexivity |].
  eapply (shipped_errors_come_from_generation ascii_lower ex_config "Marta"
            [] unit ex_create_failing ex_isoformat ex_telegram 24
            (mkSt unit tt [] [] [])).
  vm_compute. reflexivity.
Defined.

Lemma shipped_message_counts_within_limit_witness :
  exists st' d,
    get_digest ascii_lower ex_config "Marta" [] unit ex_create
      (Some (telegram_client.digest_client unit ex_isoformat ex_telegram))
      24 (mkSt unit tt [] [] []) = (st', Ret d)
    /\ length (summaries d) = 3%nat
    /\ forall r, In r (summaries d) -> 1 <= sr_message_count r <= 100.
Proof.
  eexists. eexists. split; [vm_compute; reflexivity |].
  split; [reflexivity |].
  eapply (shipped_message_counts_within_limit ascii_lower ex_config "Marta"
            [] unit ex_create ex_isoformat ex_telegram 24
            (mkSt unit tt [] [] [])).
  - intros w entity reply_to. vm_compute. discriminate.
  - vm_compute. reflexivity.
Defined.

Lemma shipped_counts_are_nonzero_witness :
  exists st' d,
    get_digest ascii_lower ex_config "Marta" [] unit ex_create
      (Some (telegram_client.digest_client unit ex_isoformat ex_telegram))
      24 (mkSt unit tt [] [] []) = (st', Ret d)
    /\ Forall
         (fun entry => ce_count entry <> 0 /\ ce_name entry <> EmptyString)
         (mc_dms (message_counts d) ++ mc_groups (message_counts d))%list
    /\ Forall
         (fun forum =>
            fd_total_count forum <> 0 /\ fd_name forum <> EmptyString)
         (mc_forums (message_counts d)).
Proof.
  eexists. eexists. split; [vm_compute; reflexivity |].
  eapply (shipped_counts_are_nonzero ascii_lower ex_config "Marta" [] unit
            ex_create ex_isoformat ex_telegram 24 (mkSt unit tt [] [] [])).
  vm_compute. reflexivity.
Defined.

Lemma wizard_groups_are_never_summarised_witness :
  (forall group_name,
     get_group_config ascii_lower ex_wizard_config group_name = None)
  /\ Forall (fun ev => is_chat_fetch ev = false)
       (new_calls unit (mkSt unit tt [] [] [])
          (fst (get_digest ascii_lower ex_wizard_config "Marta" [] unit
                  ex_create (Some ex_client) 24 (mkSt unit tt [] [] [])))).
Proof.
  assert (Hw : Forall
                 (fun group =>
                    exists group_name topics default_type,
                      group = wizard_group group_name topics default_type)
                 (config_groups ex_wizard_config)).
  { repeat constructor; do 3 eexists; reflexivity. }
  destruct (wizard_groups_are_never_summarised ascii_lower ex_wizard_config
              "Marta" [] unit ex_create Hw) as (Hnone & _ & Hcalls).
  split; [exact Hnone | apply Hcalls].
Defined.

Lemma health_agrees_with_digest_witness :
  snd (health unit None) = false
  /\ exists r evs,
       new_calls unit (mkSt unit tt [] [] [])
         (fst (get_digest ascii_lower ex_config "Marta" [] unit ex_create
                 (Some ex_client) 24 (mkSt unit tt [] [] [])))
       = EvUnreadSummary r :: evs.
Proof.
  split.
  - apply (proj2 (proj1 (proj2
             (health_agrees_with_digest ascii_lower ex_config "Marta" []
                unit ex_create None 24 (mkSt unit tt [] [] []))))).
    reflexivity.
  - apply (proj1 (proj2 (proj2
             (health_agrees_with_digest ascii_lower ex_config "Marta" []
                unit ex_create (Some ex_client) 24
                (mkSt unit tt [] [] []))))).
    reflexivity.
Defined.

Lemma wizard_topics_always_resolve_witness :
  exists policy style threshold,
    get_topic_config ascii_lower ex_wizard_config "team" "Lounge"
    = Some policy
    /\ tc_type policy = Some style
    /\ tc_threshold policy = Some threshold.
Proof.
  assert (Hw : Forall
                 (fun group =>
                    exists name topics default_type,
                      topics <> []
                      /\ group = wizard_group name topics default_type)
                 (config_groups ex_wizard_config)).
  { repeat constructor; do 3 eexists; (split; [| reflexivity]);
      discriminate. }
  destruct (wizard_topics_always_resolve ascii_lower ex_wizard_config
              "team" "Lounge" Hw eq_refl)
    as (n & ts & dt & before & after & policy & style & threshold
        & _ & _ & _ & Hp & Hs & Ht & _).
  exists policy, style, threshold. auto.
Defined.
